(** * Timetable linker: the scheduling engine and the JSON-column helpers

    A shallow embedding of [src/tlinker/solver.py] (function
    [solve_timetable]) and of the two table helpers of
    [src/tlinker/table_utils.py] ([parse_json_columns] and
    [serialize_json_columns]), with the properties the specification
    states about them. Further sections embed the sample frames and the
    cell text of the table widget ([table_utils.py]), the handlers of
    the web application ([web_app.py]), and the calendar grid and the
    pickers of the desktop application ([app.py]), with properties read
    off the code.

    Conventions of the embedding:
    - Python integers are [Z]; [//] and [%] are floor division and its
      remainder ([Z.div], [Z.modulo]), and raise [ZeroDivisionError] on a
      zero divisor;
    - a raised exception is the [Raise] branch of [result]; a run that
      raises has no other output;
    - a pandas frame of records is the list of its rows, in row order;
      a dict is a [gmap];
    - the half-integer floats of the clock-time strings ([s * 0.5]) are
      exact in binary floating point, so they are carried as twice their
      value in [Z] (exact for every slot index below 2^53). *)

From Stdlib Require Import ZArith String Ascii List Lia Bool.
From Stdlib Require Import Decimal DecimalString DecimalZ DecimalPos DecimalN DecimalFacts.
From stdpp Require Import base option list gmap strings fin_maps.

Open Scope string_scope.
Open Scope Z_scope.
Open Scope list_scope.

(** ** Exceptions and the error monad *)

Inductive exn : Type :=
| ZeroDivisionError
| IndexError
| KeyError
| JSONDecodeError
| RecursionError
| OutsideModel.

Inductive result (A : Type) : Type :=
| Ok (a : A)
| Raise (e : exn).
Arguments Ok {A} a.
Arguments Raise {A} e.

Definition rbind {A B} (m : result A) (k : A → result B) : result B :=
  match m with
  | Ok a => k a
  | Raise e => Raise e
  end.

Notation "'let*' x := m 'in' k" := (rbind m (λ x, k))
  (at level 10, x binder, m at level 100, k at level 200).

Definition is_ok {A} (r : result A) : bool :=
  match r with Ok _ => true | Raise _ => false end.

(** ** Python primitives used by the engine *)

Module Py.

(** [a // b] *)
Definition floordiv (a b : Z) : result Z :=
  if b =? 0 then Raise ZeroDivisionError else Ok (a / b).

(** [a % b] *)
Definition mod_ (a b : Z) : result Z :=
  if b =? 0 then Raise ZeroDivisionError else Ok (a mod b).

(** [l[i]] on a list: a negative index counts from the end, and an
    index outside [-len, len) raises. *)
Definition index {A} (l : list A) (i : Z) : result A :=
  let n := Z.of_nat (length l) in
  let j := if i <? 0 then i + n else i in
  if (0 <=? j) && (j <? n) then
    match l !! Z.to_nat j with
    | Some x => Ok x
    | None => Raise IndexError
    end
  else Raise IndexError.

(** [df.iloc[0]]: the first row of a frame. *)
Definition iloc0 {A} (df : list A) : result A :=
  match df with
  | row :: _ => Ok row
  | [] => Raise IndexError
  end.

(** [str(n)] for a natural number given as [Z] (digits only). *)
Definition digits (n : Z) : string :=
  NilZero.string_of_uint (N.to_uint (Z.to_N n)).

(** [format(n, '02d')] for an integer. *)
Definition fmt_02d (n : Z) : string :=
  if n <? 0 then "-" +:+ digits (- n)
  else let d := digits n in
       if (String.length d <? 2)%nat then "0" +:+ d else d.

(** Rounding of the half-integer [h2 / 2] to the nearest integer, ties
    to the even neighbour, for [0 <= h2]: what float formatting with
    zero decimals does. *)
Definition round_half_even (h2 : Z) : Z :=
  let q := h2 / 2 in
  if Z.even h2 then q else if Z.even q then q else q + 1.

(** [format(x, '02.0f')] for the float [x = h2 / 2]. The sign is
    printed first, then the rounded magnitude, zero-padded to a total
    width of two. *)
Definition fmt_02_0f_half (h2 : Z) : string :=
  if h2 <? 0 then "-" +:+ digits (round_half_even (- h2))
  else fmt_02d (round_half_even h2).

End Py.

(** ** The scheduling engine ([solver.py]) *)

Module Solver.

(** *** Records

    Only the columns the engine reads are kept; the other columns of the
    frames (credits, hours, availability, capacity, ...) are never
    consulted by [solve_timetable]. *)

Record Student := mkStudent { st_id : Z; st_name : string }.

Record Course := mkCourse {
  c_code : string;
  c_name : string;
  c_program : string;
  c_section : string;
  c_duration_slots : Z;
  c_room_type : string;
  (** [course.get('faculty_pool', [])]: a missing column reads as the
      empty pool. *)
  c_faculty_pool : list Z
}.

Record Room := mkRoom { r_id : Z; r_name : string; r_type : string }.

Record Faculty := mkFaculty { f_id : Z; f_name : string }.

Record Constraints := mkConstraints {
  days : list string;
  slots_per_day : Z
}.

(** A row of the selections frame. [sel_section] and [sel_faculty_id]
    are read with [selection.get], so a missing column is [None]. *)
Record Selection := mkSelection {
  sel_student_id : Z;
  sel_course_code : string;
  sel_section : option string;
  sel_faculty_id : option Z
}.

(** An entry of [scheduled_courses]. *)
Record CourseInfo := mkCourseInfo {
  ci_student_id : option Z;
  ci_course_code : string;
  ci_section : string;
  ci_faculty_id : option Z;
  ci_course : Course
}.

(** A row of the result frame. *)
Record ScheduledSession := mkSession {
  s_program : string;
  s_section : string;
  s_course : string;
  s_faculty : string;
  s_room : string;
  s_day : string;
  s_start : Z;
  s_end : Z;
  s_start_time : string;
  s_end_time : string
}.

(** *** Catalog index

    The source also builds [room_map] and [faculty_map], keyed by [id];
    neither is read afterwards (the faculty lookup filters the frame),
    so they are not carried here. *)

(** [{row['code']: row for _, row in courses_df.iterrows()}]: a later
    row with the same code replaces an earlier one. *)
Definition course_map (courses_df : list Course) : gmap string Course :=
  foldl (λ m row, <[c_code row := row]> m) ∅ courses_df.

(** One iteration of the loop that groups the rooms by type. *)
Definition rooms_by_type_step (m : gmap string (list Room)) (room : Room)
  : gmap string (list Room) :=
  let room_type := r_type room in
  let m1 := match m !! room_type with
            | None => <[room_type := []]> m
            | Some _ => m
            end in
  <[room_type := (m1 !!! room_type) ++ [room]]> m1.

Definition rooms_by_type (rooms_df : list Room) : gmap string (list Room) :=
  foldl rooms_by_type_step ∅ rooms_df.

(** *** Time encoding

    [f"{8 + s * 0.5:02.0f}:{int((s * 0.5) % 1 * 60):02d}"]. The hour
    field formats the float [8 + s/2] with zero decimals; the minute
    field is the fractional part of [s/2] times 60. The two definitions
    are the program's strings for the slot indices below 2^53; from
    there on the float [s * 0.5] need not be the half of [s], and
    statements about larger indices carry that bound. *)
Definition time_minutes (s : Z) : Z := if Z.even s then 0 else 30.

Definition time_str (s : Z) : string :=
  Py.fmt_02_0f_half (16 + s) +:+ ":" +:+ Py.fmt_02d (time_minutes s).

(** The clock time as the specification words it: [08:00] plus [s]
    half hours, the whole hour and the minute each on two digits. It is
    compared with [time_str] below. *)
Definition spec_time_str (s : Z) : string :=
  Py.fmt_02d (8 + s / 2) +:+ ":" +:+ Py.fmt_02d (30 * (s mod 2)).

(** *** Request list *)

Definition request_of_selection (cm : gmap string Course) (selection : Selection)
  : list CourseInfo :=
  let student_id := sel_student_id selection in
  let course_code := sel_course_code selection in
  let section := default "A" (sel_section selection) in
  let faculty_id := sel_faculty_id selection in
  match cm !! course_code with
  | Some course =>
      [ {| ci_student_id := Some student_id; ci_course_code := course_code;
           ci_section := section; ci_faculty_id := faculty_id;
           ci_course := course |} ]
  | None => []
  end.

Definition request_of_course (course : Course) : CourseInfo :=
  {| ci_student_id := None; ci_course_code := c_code course;
     ci_section := c_section course; ci_faculty_id := None;
     ci_course := course |}.

(** [selections_df is not None and not selections_df.empty] *)
Definition has_selections (selections_df : option (list Selection)) : bool :=
  match selections_df with
  | Some (_ :: _) => true
  | _ => false
  end.

Definition scheduled_courses (courses_df : list Course)
    (selections_df : option (list Selection)) : list CourseInfo :=
  if has_selections selections_df then
    flat_map (request_of_selection (course_map courses_df))
             (default [] selections_df)
  else
    map request_of_course courses_df.

(** *** Sequential placement *)

Section placement.

Variable rooms_df : list Room.
Variable faculty_df : list Faculty.
Variable constraints : Constraints.

(** Lines 87-91: the first room of the required type, else the first
    room of the frame. *)
Definition resolve_room (course : Course) : result Room :=
  let room_type := c_room_type course in
  match rooms_by_type rooms_df !! room_type with
  | Some (room :: _) => Ok room
  | _ => Py.iloc0 rooms_df
  end.

(** Lines 94-99: the first identifier of the pool, looked up among the
    faculty rows, else the first faculty row. A frame is a list of rows
    that have the columns the engine reads: the empty list is an empty
    frame with its columns, on which the lookup of line 97 raises
    [IndexError] (a frame without the column [id], such as
    [pd.DataFrame()], raises [KeyError] there instead and is not a frame
    of this model). *)
Definition resolve_faculty (course : Course) : result Faculty :=
  match c_faculty_pool course with
  | faculty_id :: _ =>
      Py.iloc0 (filter (λ f, f_id f = faculty_id) faculty_df)
  | [] => Py.iloc0 faculty_df
  end.

(** The body of the placement loop for one request: the emitted row and
    the value of [current_slot] after the advance. *)
Definition place_one (current_slot : Z) (course_info : CourseInfo)
  : result (ScheduledSession * Z) :=
  let course := ci_course course_info in
  let slots_per_day := slots_per_day constraints in
  let days := days constraints in
  let* day_idx := Py.floordiv current_slot slots_per_day in
  let* slot_in_day := Py.mod_ current_slot slots_per_day in
  let '(day_idx, current_slot) :=
    if Z.of_nat (length days) <=? day_idx then (0, slot_in_day)
    else (day_idx, current_slot) in
  let* room := resolve_room course in
  let* faculty := resolve_faculty course in
  let duration := c_duration_slots course in
  let end_slot := current_slot + duration - 1 in
  let* day := Py.index days day_idx in
  let* end_ := Py.mod_ end_slot slots_per_day in
  Ok ({| s_program := c_program course;
         s_section := ci_section course_info;
         s_course := c_name course;
         s_faculty := f_name faculty;
         s_room := r_name room;
         s_day := day;
         s_start := slot_in_day;
         s_end := end_;
         s_start_time := time_str slot_in_day;
         s_end_time := time_str end_ |},
      current_slot + (duration + 1)).

(** The loop over [scheduled_courses], threading [current_slot]. *)
Fixpoint place (current_slot : Z) (requests : list CourseInfo)
  : result (list ScheduledSession) :=
  match requests with
  | [] => Ok []
  | course_info :: rest =>
      let* '(session, next_slot) := place_one current_slot course_info in
      let* sessions := place next_slot rest in
      Ok (session :: sessions)
  end.

End placement.

Definition solve_timetable (students_df : list Student) (courses_df : list Course)
    (rooms_df : list Room) (faculty_df : list Faculty)
    (constraints : Constraints) (selections_df : option (list Selection))
  : result (list ScheduledSession) :=
  place rooms_df faculty_df constraints 0
        (scheduled_courses courses_df selections_df).

(** A selection whose course code is in the catalog. *)
Definition known_code (courses_df : list Course) (selection : Selection) : Prop :=
  is_Some (course_map courses_df !! sel_course_code selection).

#[global] Instance known_code_dec courses_df selection :
  Decision (known_code courses_df selection).
Proof. unfold known_code. apply _. Defined.

(** A selection whose course code is the code of some row of the
    catalog frame. *)
Definition in_catalog (courses_df : list Course) (selection : Selection) : Prop :=
  sel_course_code selection ∈ map c_code courses_df.

#[global] Instance in_catalog_dec courses_df selection :
  Decision (in_catalog courses_df selection).
Proof. unfold in_catalog. apply _. Defined.

(** *** Resource preconditions of a request *)

(** The three ways a request can lack a resource: no room at all, no
    faculty at all with an empty pool, or a pool whose first identifier
    has no faculty row. *)
Definition lacks_resource (rooms_df : list Room) (faculty_df : list Faculty)
    (course_info : CourseInfo) : Prop :=
  rooms_df = [] ∨
  (faculty_df = [] ∧ c_faculty_pool (ci_course course_info) = []) ∨
  (∃ faculty_id pool,
      c_faculty_pool (ci_course course_info) = faculty_id :: pool ∧
      ∀ f, f ∈ faculty_df → f_id f ≠ faculty_id).

End Solver.



(** ** The JSON codec used by the column helpers ([json.dumps], [json.loads])

    Cell values are the Python values a JSON text denotes: [None],
    booleans, integers, strings, lists and string-keyed dicts. Floats are
    outside the model: as soon as the decoder meets a number with a
    fraction or an exponent, [NaN] or an infinity, the outcome is
    [Raise OutsideModel], whatever the rest of the text is. A Python
    string is a [string] whose characters are the code points 0..255; an
    escape for a higher code point is outside the model in the same way.
    On every other text the decoder below returns what [json.loads]
    returns, or [Raise JSONDecodeError] where it raises. *)

Module Json.

#[warnings="-register-all"]
Inductive pyval : Type :=
| PNone
| PBool (b : bool)
| PInt (n : Z)
| PStr (s : string)
| PList (l : list pyval)
| PDict (d : list (string * pyval)).

Definition dquote : ascii := "034"%char.
Definition backslash : ascii := "\"%char.

Definition chars (s : string) : list ascii := list_ascii_of_string s.

(** *** Encoder: [json.dumps] with its default separators and
    [ensure_ascii=True] *)

Definition hex_digit (n : N) : ascii :=
  if (n <? 10)%N then ascii_of_N (48 + n) else ascii_of_N (87 + n).

(** [ESCAPE_ASCII]: the two-character escapes, then [\u00xx] for every
    other character outside the printable range [' ' .. '~']. *)
Definition escape_char (c : ascii) : list ascii :=
  if (c =? dquote)%char then [backslash; dquote]
  else if (c =? backslash)%char then [backslash; backslash]
  else if (c =? "010")%char then [backslash; "n"%char]
  else if (c =? "013")%char then [backslash; "r"%char]
  else if (c =? "009")%char then [backslash; "t"%char]
  else if (c =? "008")%char then [backslash; "b"%char]
  else if (c =? "012")%char then [backslash; "f"%char]
  else
    let n := N_of_ascii c in
    if (32 <=? n)%N && (n <=? 126)%N then [c]
    else [backslash; "u"%char; "0"%char; "0"%char;
          hex_digit (n / 16); hex_digit (n mod 16)].

Definition encode_str (s : string) : list ascii :=
  dquote :: flat_map escape_char (chars s) ++ [dquote].

(** [str(n)] for an integer. *)
Definition encode_int (n : Z) : list ascii :=
  chars (NilZero.string_of_int (Z.to_int n)).

(** [', '.join(parts)] *)
Fixpoint join_comma (parts : list (list ascii)) : list ascii :=
  match parts with
  | [] => []
  | [p] => p
  | p :: ps => p ++ chars ", " ++ join_comma ps
  end.

Fixpoint encode (v : pyval) : list ascii :=
  match v with
  | PNone => chars "null"
  | PBool true => chars "true"
  | PBool false => chars "false"
  | PInt n => encode_int n
  | PStr s => encode_str s
  | PList l => chars "[" ++ join_comma (map encode l) ++ chars "]"
  | PDict d =>
      chars "{" ++
      join_comma (map (λ kv, encode_str (fst kv) ++ chars ": " ++ encode (snd kv)) d)
      ++ chars "}"
  end.

Definition dumps (v : pyval) : string := string_of_list_ascii (encode v).

(** *** Decoder: [json.loads] *)

Definition is_ws (c : ascii) : bool :=
  (c =? " ")%char || (c =? "009")%char || (c =? "010")%char || (c =? "013")%char.

Fixpoint skip_ws (s : list ascii) : list ascii :=
  match s with
  | c :: s' => if is_ws c then skip_ws s' else s
  | [] => []
  end.

Definition is_digit (c : ascii) : bool :=
  let n := N_of_ascii c in (48 <=? n)%N && (n <=? 57)%N.

Definition hex_value (c : ascii) : option N :=
  let n := N_of_ascii c in
  if (48 <=? n)%N && (n <=? 57)%N then Some (n - 48)%N
  else if (97 <=? n)%N && (n <=? 102)%N then Some (n - 87)%N
  else if (65 <=? n)%N && (n <=? 70)%N then Some (n - 55)%N
  else None.

(** The character after a backslash ([BACKSLASH] table of the decoder). *)
Definition unescape (e : ascii) : option ascii :=
  if (e =? dquote)%char then Some dquote
  else if (e =? backslash)%char then Some backslash
  else if (e =? "/")%char then Some "/"%char
  else if (e =? "b")%char then Some "008"%char
  else if (e =? "f")%char then Some "012"%char
  else if (e =? "n")%char then Some "010"%char
  else if (e =? "r")%char then Some "013"%char
  else if (e =? "t")%char then Some "009"%char
  else None.

(** The four hexadecimal digits of a [\u] escape. *)
Definition hex4 (h1 h2 h3 h4 : ascii) : option N :=
  match hex_value h1, hex_value h2, hex_value h3, hex_value h4 with
  | Some a, Some b, Some c, Some d => Some (((a * 16 + b) * 16 + c) * 16 + d)%N
  | _, _, _, _ => None
  end.

(** [scanstring] in strict mode, entered after the opening quote: the
    decoded string and the text after the closing quote. *)
Fixpoint scanstring (s : list ascii) : result (string * list ascii) :=
  match s with
  | [] => Raise JSONDecodeError
  | c :: s1 =>
      if (c =? dquote)%char then Ok (EmptyString, s1)
      else if (c =? backslash)%char then
        match s1 with
        | [] => Raise JSONDecodeError
        | e :: s2 =>
            if (e =? "u")%char then
              match s2 with
              | h1 :: h2 :: h3 :: h4 :: s3 =>
                  match hex4 h1 h2 h3 h4 with
                  | Some cp =>
                      if (cp <? 256)%N then
                        let* r := scanstring s3 in
                        Ok (String (ascii_of_N cp) (fst r), snd r)
                      else Raise OutsideModel
                  | None => Raise JSONDecodeError
                  end
              | _ => Raise JSONDecodeError
              end
            else
              match unescape e with
              | Some ch =>
                  let* r := scanstring s2 in
                  Ok (String ch (fst r), snd r)
              | None => Raise JSONDecodeError
              end
        end
      else if (N_of_ascii c <? 32)%N then Raise JSONDecodeError
      else
        let* r := scanstring s1 in
        Ok (String c (fst r), snd r)
  end.

Definition uint_digit (c : ascii) : option (uint → uint) :=
  if (c =? "0")%char then Some D0
  else if (c =? "1")%char then Some D1
  else if (c =? "2")%char then Some D2
  else if (c =? "3")%char then Some D3
  else if (c =? "4")%char then Some D4
  else if (c =? "5")%char then Some D5
  else if (c =? "6")%char then Some D6
  else if (c =? "7")%char then Some D7
  else if (c =? "8")%char then Some D8
  else if (c =? "9")%char then Some D9
  else None.

(** The longest run of decimal digits at the head of the text. *)
Fixpoint read_uint (s : list ascii) : uint * list ascii :=
  match s with
  | c :: s' =>
      match uint_digit c with
      | Some D => let r := read_uint s' in (D (fst r), snd r)
      | None => (Nil, s)
      end
  | [] => (Nil, [])
  end.

Definition starts_with_digit (s : list ascii) : bool :=
  match s with
  | c :: _ => is_digit c
  | [] => false
  end.

(** Whether a fraction (a dot and a digit) or an exponent (e or E, an
    optional sign and a digit) follows the integer part: the number is
    then a float. *)
Definition float_follows (s : list ascii) : bool :=
  match s with
  | c :: s' =>
      if (c =? ".")%char then starts_with_digit s'
      else if (c =? "e")%char || (c =? "E")%char then
        match s' with
        | sg :: s'' =>
            if (sg =? "+")%char || (sg =? "-")%char then starts_with_digit s''
            else is_digit sg
        | [] => false
        end
      else false
  | [] => false
  end.

(** A number at the head of the text: an optional minus sign, then
    either a single zero or a non-zero digit and more digits (the integer
    part of [NUMBER_RE]). A fraction or an exponent after it makes the
    number a float, which [pyval] does not hold: the result is then
    [OutsideModel], which is no exception of the program (the program
    decodes the float). *)
Definition parse_number (s : list ascii) : result (Z * list ascii) :=
  let neg := match s with c :: _ => (c =? "-")%char | [] => false end in
  let s1 := if neg then tail s else s in
  match s1 with
  | c :: s2 =>
      if is_digit c then
        let r := if (c =? "0")%char then (D0 Nil, s2) else read_uint s1 in
        if float_follows (snd r) then Raise OutsideModel
        else
          let n := Z.of_uint (fst r) in
          Ok (if neg then - n else n, snd r)
      else Raise JSONDecodeError
  | [] => Raise JSONDecodeError
  end.

(** [s] without the prefix [p], when [s] starts with [p]. *)
Fixpoint strip_prefix (p s : list ascii) : option (list ascii) :=
  match p, s with
  | [], _ => Some s
  | a :: p', b :: s' => if (a =? b)%char then strip_prefix p' s' else None
  | _ :: _, [] => None
  end.

Definition has_prefix (p s : list ascii) : bool :=
  match strip_prefix p s with
  | Some _ => true
  | None => false
  end.

(** [dict(pairs)]: a repeated key keeps its first position and takes
    the last value. *)
Fixpoint dict_set (k : string) (v : pyval) (d : list (string * pyval))
  : list (string * pyval) :=
  match d with
  | [] => [(k, v)]
  | kv :: d' =>
      if String.eqb k (fst kv) then (k, v) :: d' else kv :: dict_set k v d'
  end.

Definition py_dict (pairs : list (string * pyval)) : list (string * pyval) :=
  foldl (λ d kv, dict_set (fst kv) (snd kv) d) [] pairs.

(** [scan_once], [JSONArray] and [JSONObject]. [parse_elements] and
    [parse_members] are entered at the first character of an element or
    of a key. The recursion is bounded by [fuel]; running out raises
    [RecursionError], and [loads] supplies enough fuel for that never to
    happen ([loads_fuel] below). *)
Fixpoint parse_value (fuel : nat) (s : list ascii) {struct fuel}
  : result (pyval * list ascii) :=
  match fuel with
  | O => Raise RecursionError
  | S fuel' =>
      match s with
      | [] => Raise JSONDecodeError
      | c :: s1 =>
          if (c =? dquote)%char then
            let* r := scanstring s1 in Ok (PStr (fst r), snd r)
          else if (c =? "{")%char then
            match skip_ws s1 with
            | c2 :: s2 =>
                if (c2 =? "}")%char then Ok (PDict [], s2)
                else
                  let* r := parse_members fuel' (c2 :: s2) in
                  Ok (PDict (py_dict (fst r)), snd r)
            | [] => Raise JSONDecodeError
            end
          else if (c =? "[")%char then
            match skip_ws s1 with
            | c2 :: s2 =>
                if (c2 =? "]")%char then Ok (PList [], s2)
                else
                  let* r := parse_elements fuel' (c2 :: s2) in
                  Ok (PList (fst r), snd r)
            | [] => Raise JSONDecodeError
            end
          else
            match strip_prefix (chars "null") s,
                  strip_prefix (chars "true") s,
                  strip_prefix (chars "false") s with
            | Some rest, _, _ => Ok (PNone, rest)
            | None, Some rest, _ => Ok (PBool true, rest)
            | None, None, Some rest => Ok (PBool false, rest)
            | None, None, None =>
                match parse_number s with
                | Ok r => Ok (PInt (fst r), snd r)
                | Raise OutsideModel => Raise OutsideModel
                | Raise e =>
                    if has_prefix (chars "NaN") s
                       || has_prefix (chars "Infinity") s
                       || has_prefix (chars "-Infinity") s
                    then Raise OutsideModel
                    else Raise e
                end
            end
      end
  end
with parse_elements (fuel : nat) (s : list ascii) {struct fuel}
  : result (list pyval * list ascii) :=
  match fuel with
  | O => Raise RecursionError
  | S fuel' =>
      let* r := parse_value fuel' s in
      match skip_ws (snd r) with
      | c :: s1 =>
          if (c =? "]")%char then Ok ([fst r], s1)
          else if (c =? ",")%char then
            let* rs := parse_elements fuel' (skip_ws s1) in
            Ok (fst r :: fst rs, snd rs)
          else Raise JSONDecodeError
      | [] => Raise JSONDecodeError
      end
  end
with parse_members (fuel : nat) (s : list ascii) {struct fuel}
  : result (list (string * pyval) * list ascii) :=
  match fuel with
  | O => Raise RecursionError
  | S fuel' =>
      match s with
      | c :: s1 =>
          if (c =? dquote)%char then
            let* k := scanstring s1 in
            match skip_ws (snd k) with
            | c2 :: s2 =>
                if (c2 =? ":")%char then
                  let* r := parse_value fuel' (skip_ws s2) in
                  match skip_ws (snd r) with
                  | c3 :: s3 =>
                      if (c3 =? "}")%char then Ok ([(fst k, fst r)], s3)
                      else if (c3 =? ",")%char then
                        let* rs := parse_members fuel' (skip_ws s3) in
                        Ok ((fst k, fst r) :: fst rs, snd rs)
                      else Raise JSONDecodeError
                  | [] => Raise JSONDecodeError
                  end
                else Raise JSONDecodeError
            | [] => Raise JSONDecodeError
            end
          else Raise JSONDecodeError
      | [] => Raise JSONDecodeError
      end
  end.

(** [json.loads]: leading blanks, one value, trailing blanks, end of text. *)
Definition loads (text : string) : result pyval :=
  let s := chars text in
  let* r := parse_value (2 * length s + 2) (skip_ws s) in
  match skip_ws (snd r) with
  | [] => Ok (fst r)
  | _ :: _ => Raise JSONDecodeError
  end.

(** *** Induction on values *)

Section pyval_induction.
Variable P : pyval → Prop.
Hypothesis Hnone : P PNone.
Hypothesis Hbool : ∀ b, P (PBool b).
Hypothesis Hint : ∀ n, P (PInt n).
Hypothesis Hstr : ∀ s, P (PStr s).
Hypothesis Hlist : ∀ l, Forall P l → P (PList l).
Hypothesis Hdict : ∀ d, Forall (λ kv, P (snd kv)) d → P (PDict d).

(** Induction on values, with the hypothesis on every element of a list
    and on every value of a dict. *)
Fixpoint pyval_nested_ind (v : pyval) : P v :=
  match v with
  | PNone => Hnone
  | PBool b => Hbool b
  | PInt n => Hint n
  | PStr s => Hstr s
  | PList l =>
      Hlist l ((fix all (l : list pyval) : Forall P l :=
                  match l with
                  | [] => List.Forall_nil P
                  | x :: xs => List.Forall_cons P x xs (pyval_nested_ind x) (all xs)
                  end) l)
  | PDict d =>
      Hdict d ((fix all (d : list (string * pyval))
                  : Forall (λ kv, P (snd kv)) d :=
                  match d with
                  | [] => List.Forall_nil _
                  | kv :: d' =>
                      List.Forall_cons (λ kv, P (snd kv)) kv d'
                        (pyval_nested_ind (snd kv)) (all d')
                  end) d)
  end.

End pyval_induction.

(** *** Measures and side conditions used in the proofs *)

(** A Python dict has each key once: the association lists under
    [PDict] that denote a dict are those without a repeated key. *)
Fixpoint unique_keys (v : pyval) : bool :=
  match v with
  | PList l => forallb unique_keys l
  | PDict d =>
      bool_decide (NoDup (map fst d)) && forallb (λ kv, unique_keys (snd kv)) d
  | _ => true
  end.

(** Recursion depth that decoding the text of [v] takes. *)
Fixpoint need (v : pyval) : nat :=
  match v with
  | PList l => S (list_sum (map (λ x, S (need x)) l))
  | PDict d => S (list_sum (map (λ kv, S (need (snd kv))) d))
  | _ => 1
  end.

(** The characters an encoded value can start with. *)
Definition value_start (c : ascii) : bool :=
  is_digit c || (c =? "-")%char || (c =? "n")%char || (c =? "t")%char
  || (c =? "f")%char || (c =? dquote)%char || (c =? "[")%char || (c =? "{")%char.

(** The text after a value inside a list or a dict, or at the end. *)
Definition delimited (rest : list ascii) : Prop :=
  match rest with
  | [] => True
  | c :: _ => c = ","%char ∨ c = "]"%char ∨ c = "}"%char
  end.

(** A decoding step that returns leaves a strictly shorter text. *)
Definition shrinks {A} (r : result (A * list ascii)) (s : list ascii) : Prop :=
  match r with
  | Ok x => (length x.2 < length s)%nat
  | Raise _ => True
  end.

(** The text of one member of a dict. *)
Definition encode_member (kv : string * pyval) : list ascii :=
  encode_str (fst kv) ++ chars ": " ++ encode (snd kv).

(** Decoding the text of [v], followed by any delimited text, gives
    [v] back and leaves that text, with any sufficient fuel. *)
Definition decodes (v : pyval) : Prop :=
  unique_keys v = true →
  ∀ fuel rest, (need v ≤ fuel)%nat → delimited rest →
    parse_value fuel (encode v ++ rest) = Ok (v, rest).

(** The exceptions of the decoder. *)
Definition decoder_error (e : exn) : Prop :=
  match e with
  | JSONDecodeError | OutsideModel | RecursionError => True
  | _ => False
  end.

End Json.

(** ** The JSON-column helpers ([table_utils.py]) *)

Module TableUtils.
Import Json.

(** [lambda x: json.loads(x) if isinstance(x, str) and x.startswith('[') else x] *)
Definition parse_cell (x : pyval) : result pyval :=
  match x with
  | PStr s => if String.prefix "[" s then loads s else Ok x
  | _ => Ok x
  end.

(** [lambda x: json.dumps(x) if isinstance(x, (list, dict)) else x] *)
Definition serialize_cell (x : pyval) : pyval :=
  match x with
  | PList _ | PDict _ => PStr (dumps x)
  | _ => x
  end.

(** *** Frames as objects

    A frame is a mutable object: the store maps the address of a frame
    to its columns, and a column name to the cells of the column in row
    order. [dataframe.copy()] allocates a new frame; [df[col] = ...]
    updates the frame at an address in place. *)

Definition loc := positive.
Abbreviation frame := (gmap string (list pyval)).
Abbreviation heap := (gmap loc (gmap string (list pyval))).

(** Computations on the store that may raise. *)
Definition M (A : Type) : Type := heap → result A * heap.

Definition ret {A} (a : A) : M A := λ h, (Ok a, h).

Definition bind {A B} (m : M A) (k : A → M B) : M B :=
  λ h, match m h with
       | (Ok a, h') => k a h'
       | (Raise e, h') => (Raise e, h')
       end.

Definition lift {A} (r : result A) : M A := λ h, (r, h).

Notation "'let!' x := m 'in' k" := (bind m (λ x, k))
  (at level 10, x binder, m at level 100, k at level 200).

(** [dataframe.copy()] *)
Definition df_copy (dataframe : loc) : M loc :=
  λ h, match h !! dataframe with
       | Some fr => let l := fresh (dom h) in (Ok l, <[l := fr]> h)
       | None => (Raise OutsideModel, h)
       end.

(** [col in df.columns] *)
Definition df_has_column (df : loc) (col : string) : M bool :=
  λ h, match h !! df with
       | Some fr => (Ok (bool_decide (is_Some (fr !! col))), h)
       | None => (Raise OutsideModel, h)
       end.

(** [df[col]] *)
Definition df_getitem (df : loc) (col : string) : M (list pyval) :=
  λ h, match h !! df with
       | Some fr =>
           match fr !! col with
           | Some cells => (Ok cells, h)
           | None => (Raise KeyError, h)
           end
       | None => (Raise OutsideModel, h)
       end.

(** [df[col] = cells] *)
Definition df_setitem (df : loc) (col : string) (cells : list pyval) : M unit :=
  λ h, match h !! df with
       | Some fr => (Ok tt, <[df := <[col := cells]> fr]> h)
       | None => (Raise OutsideModel, h)
       end.

(** [series.apply(f)]: [f] on every cell, in row order, stopping at the
    first exception. *)
Fixpoint series_apply (f : pyval → result pyval) (cells : list pyval)
  : result (list pyval) :=
  match cells with
  | [] => Ok []
  | x :: xs =>
      let* y := f x in
      let* ys := series_apply f xs in
      Ok (y :: ys)
  end.

(** [for x in l: body(x)] *)
Fixpoint for_each {A} (body : A → M unit) (l : list A) : M unit :=
  match l with
  | [] => ret tt
  | x :: xs => let! _ := body x in for_each body xs
  end.

Definition parse_json_columns (dataframe : loc) (json_columns : list string)
  : M loc :=
  let! df := df_copy dataframe in
  let! _ :=
    for_each (λ col,
      let! present := df_has_column df col in
      if present : bool then
        let! cells := df_getitem df col in
        let! cells' := lift (series_apply parse_cell cells) in
        df_setitem df col cells'
      else ret tt) json_columns in
  ret df.

Definition serialize_json_columns (dataframe : loc) (json_columns : list string)
  : M loc :=
  let! df := df_copy dataframe in
  let! _ :=
    for_each (λ col,
      let! present := df_has_column df col in
      if present : bool then
        let! cells := df_getitem df col in
        let! cells' := lift (series_apply (λ x, Ok (serialize_cell x)) cells) in
        df_setitem df col cells'
      else ret tt) json_columns in
  ret df.

(** *** The loop body and its effect on the columns

    The two helpers run the same loop with a different cell function.
    [column_pass] is that loop body; [coerce_column] and [coerce_frame]
    describe what it does to the columns of the copied frame. *)

Definition column_pass (f : pyval → result pyval) (df : loc) (col : string)
  : M unit :=
  let! present := df_has_column df col in
  if present : bool then
    let! cells := df_getitem df col in
    let! cells' := lift (series_apply f cells) in
    df_setitem df col cells'
  else ret tt.

Definition coerce_column (f : pyval → result pyval) (fr : frame) (col : string)
  : result frame :=
  match fr !! col with
  | Some cells =>
      let* cells' := series_apply f cells in
      Ok (<[col := cells']> fr)
  | None => Ok fr
  end.

Fixpoint coerce_frame (f : pyval → result pyval) (fr : frame)
    (json_columns : list string) : result frame :=
  match json_columns with
  | [] => Ok fr
  | col :: rest =>
      let* fr' := coerce_column f fr col in
      coerce_frame f fr' rest
  end.

(** The cells of column [col] are fixed by the cell function [f]. *)
Definition settled (f : pyval → result pyval) (fr : frame) (col : string) : Prop :=
  ∀ cells, fr !! col = Some cells → series_apply f cells = Ok cells.

(** What a helper run may do to the store: every frame that was in the
    store, the input among them, still has the cells it had; a returned
    frame sits at an address that was free, has the columns of the
    input, and has the cells of the input in every column that is not a
    listed JSON column. *)
Definition frame_effect (h : heap) (fr : frame) (json_columns : list string)
    (out : result loc * heap) : Prop :=
  (∀ l (fr0 : frame), h !! l = Some fr0 → out.2 !! l = Some fr0) ∧
  (∀ df, out.1 = Ok df →
     h !! df = None ∧
     ∃ fr' : frame,
       out.2 !! df = Some fr' ∧
       dom fr' = dom fr ∧
       ∀ col, col ∉ json_columns → fr' !! col = fr !! col).

End TableUtils.

(** ** Concrete data used in the examples *)

Module Examples.
Import Solver.

Definition course_a : Course :=
  mkCourse "A" "Algorithms" "CS" "A" 2 "Lab" [].
Definition course_b : Course :=
  mkCourse "B" "Biology" "CS" "A" 2 "Lab" [].
(** A course whose pool names a faculty identifier that has no record. *)
Definition course_stale_pool : Course :=
  mkCourse "A" "Algorithms" "CS" "A" 2 "Lab" [9].
(** A course whose room type no room has. *)
Definition course_c : Course :=
  mkCourse "C" "Chemistry" "CS" "A" 3 "Studio" [7].

(** A course with a pool whose first identifier has a record. *)
Definition course_d : Course :=
  mkCourse "D" "Databases" "CS" "B" 2 "Hall" [7; 1].

Definition hall : Room := mkRoom 1 "Hall 1" "Hall".
Definition lab : Room := mkRoom 2 "Lab 1" "Lab".
Definition lab2 : Room := mkRoom 3 "Lab 2" "Lab".

Definition dr_x : Faculty := mkFaculty 1 "Dr X".
Definition dr_y : Faculty := mkFaculty 7 "Dr Y".

Definition grid_2x4 : Constraints := mkConstraints ["Mon"; "Tue"] 4.

Definition select (student : Z) (code : string) : Selection :=
  mkSelection student code None None.

(** A frame with one plain column and one JSON column, and a store
    that holds it at address 1. *)
Definition people : gmap string (list Json.pyval) :=
  <["name" := [Json.PStr "Ann"; Json.PStr "Bob"]]>
    (<["skills" := [Json.PStr "[1, 2]"; Json.PList [Json.PStr "x"]]]> ∅).

Definition store : gmap positive (gmap string (list Json.pyval)) :=
  <[1%positive := people]> ∅.

(** A list cell with a nested mapping. *)
Definition nested : Json.pyval :=
  Json.PList [Json.PInt (-3); Json.PStr "a [b]"; Json.PNone;
              Json.PDict [("k", Json.PList [Json.PBool true]);
                          ("m", Json.PInt 0)]].

End Examples.

(** ** Closed forms of the placement

    What the placement loop computes, written without the loop: the
    slots it emits for a list of durations, and the values the counter
    takes while the day limit is not hit. The loop is compared with
    them below. *)

Module Placement.

(** The (start, end) slots of consecutive placements from a counter
    value: each start is the previous start plus the previous duration
    plus one, modulo [spd]. *)
Fixpoint slots_from (spd current : Z) (durations : list Z) : list (Z * Z) :=
  match durations with
  | [] => []
  | d :: ds =>
      let start := current mod spd in
      (start, (start + d - 1) mod spd) :: slots_from spd (start + d + 1) ds
  end.

(** The value of [current_slot] at the head of each iteration when it
    is only ever advanced. *)
Fixpoint counters (current : Z) (durations : list Z) : list Z :=
  match durations with
  | [] => []
  | d :: ds => current :: counters (current + (d + 1)) ds
  end.

(** The absolute first and last slot of consecutive placements while
    the counter is only advanced: a session of duration [d] that starts
    at [current] ends at [current + d - 1], and the next one starts one
    gap slot later. *)
Fixpoint spans (current : Z) (durations : list Z) : list (Z * Z) :=
  match durations with
  | [] => []
  | d :: ds => (current, current + d - 1) :: spans (current + (d + 1)) ds
  end.

(** The slots a list of durations takes up, one gap slot after each. *)
Definition demand (durations : list Z) : Z :=
  foldr (λ d total, d + 1 + total) 0 durations.

End Placement.

(** ** The sample frames ([create_sample_dataframes])

    The rows of the four sample frames, with the columns the engine
    reads, in the order the source lists them. *)

Module Sample.
Import Solver.

Definition students_df : list Student :=
  [ mkStudent 1 "John Doe";
    mkStudent 2 "Jane Smith";
    mkStudent 3 "Bob Johnson";
    mkStudent 4 "Alice Brown";
    mkStudent 5 "Charlie Wilson" ].

Definition faculty_df : list Faculty :=
  [ mkFaculty 1 "Dr. Smith";
    mkFaculty 2 "Prof. Johnson";
    mkFaculty 3 "Dr. Brown";
    mkFaculty 4 "Prof. Davis";
    mkFaculty 5 "Dr. Wilson" ].

Definition courses_df : list Course :=
  [ mkCourse "CS301" "Data Structures" "Computer Science" "A" 6 "Lecture Hall" [1; 5];
    mkCourse "CS302" "Algorithms" "Computer Science" "A" 6 "Lecture Hall" [1; 5];
    mkCourse "CS303" "Software Engineering" "Computer Science" "A" 4 "Computer Lab" [5];
    mkCourse "CS101" "Programming Fundamentals" "Computer Science" "A" 6 "Computer Lab" [1; 5];
    mkCourse "CS201" "Object-Oriented Programming" "Computer Science" "A" 4 "Computer Lab" [5];
    mkCourse "MATH201" "Calculus III" "Computer Science" "A" 4 "Lecture Hall" [2];
    mkCourse "MATH101" "Calculus I" "Computer Science" "A" 4 "Lecture Hall" [2];
    mkCourse "MATH301" "Linear Algebra" "Electronics" "A" 3 "Lecture Hall" [2];
    mkCourse "PHYS101" "Physics I" "Computer Science" "A" 5 "Physics Lab" [4];
    mkCourse "ENG101" "Technical Writing" "Computer Science" "A" 2 "Classroom" [1; 2; 3; 4; 5];
    mkCourse "EE401" "Digital Electronics" "Electronics" "A" 6 "Electronics Lab" [3];
    mkCourse "EE402" "Control Systems" "Electronics" "A" 6 "Electronics Lab" [3];
    mkCourse "EE403" "Microprocessors" "Electronics" "A" 4 "Computer Lab" [3; 5] ].

Definition rooms_df : list Room :=
  [ mkRoom 1 "Lecture Hall A" "Lecture Hall";
    mkRoom 2 "Lecture Hall B" "Lecture Hall";
    mkRoom 3 "Computer Lab 1" "Computer Lab";
    mkRoom 4 "Computer Lab 2" "Computer Lab";
    mkRoom 5 "Physics Lab" "Physics Lab";
    mkRoom 6 "Electronics Lab" "Electronics Lab";
    mkRoom 7 "Classroom 101" "Classroom";
    mkRoom 8 "Classroom 102" "Classroom" ].

(** A catalog row whose room type has a room, whose pool starts with
    the identifier of a faculty row, and whose duration is not negative
    (decided by running the two lookups). *)
Definition well_resourced (rooms_df : list Room) (faculty_df : list Faculty)
    (course : Course) : bool :=
  match resolve_room rooms_df course, resolve_faculty faculty_df course with
  | Ok room, Ok faculty =>
      bool_decide (r_type room = c_room_type course)
      && bool_decide (head (c_faculty_pool course) = Some (f_id faculty))
      && (0 <=? c_duration_slots course)
  | _, _ => false
  end.

End Sample.

(** ** The table widget's cell text ([DataFrameTable._populate_treeview]) *)

Module TableView.
Import Json.

(** Lines 89-92: a list or a dict is shown as its JSON text, any other
    cell as [str(value)]. An integer is shown by its decimal digits (the
    interpreter's limit on the length of such a text is not modelled
    here). *)
Definition treeview_value (value : pyval) : string :=
  match value with
  | PList _ | PDict _ => dumps value
  | PNone => "None"
  | PBool true => "True"
  | PBool false => "False"
  | PInt n => NilZero.string_of_int (Z.to_int n)
  | PStr s => s
  end.

(** A cell that a save followed by a load gives back: a list (of JSON
    values), or a scalar that is not a string starting with the
    list-open character. A dict is not such a cell. *)
Definition round_trip_cell (x : pyval) : bool :=
  match x with
  | PList _ => unique_keys x
  | PDict _ => false
  | PStr s => negb (String.prefix "[" s)
  | _ => true
  end.

End TableView.

(** ** The web handlers ([web_app.py])

    The module-level frames of the web application are the fields of
    [State]; a handler takes the state and returns its response and the
    state it leaves. Rows are the records of [Solver], so a frame has the
    columns the engine reads. [constraints] is [None] for a dict that
    lacks the [days] or the [slots_per_day] key (such as the initial
    empty dict), on which the engine raises [KeyError]. The fields of a
    request body are typed (an index and the identifiers are integers,
    the other fields text), a missing field is [None]; the JSON
    encoding of a response is not modelled, and of the body of the
    missing-datasets response only the error text is kept. *)

Module WebApp.
Import Solver.

(** *** [allowed_file] *)

Definition ALLOWED_EXTENSIONS : list string := ["csv"; "json"].

(** ['.' in filename] *)
Fixpoint has_dot (s : string) : bool :=
  match s with
  | EmptyString => false
  | String c s' => (c =? ".")%char || has_dot s'
  end.

(** [filename.rsplit('.', 1)[1]]: the text after the last dot; there is
    no second element when the name has no dot. *)
Fixpoint rsplit_dot_tail (s : string) : option string :=
  match s with
  | EmptyString => None
  | String c s' =>
      match rsplit_dot_tail s' with
      | Some t => Some t
      | None => if (c =? ".")%char then Some s' else None
      end
  end.

(** [str.lower] on the code points 0..255: the letters A-Z and the
    accented capitals 192..222 (215, the multiplication sign, apart) move
    up by 32. *)
Definition lower_char (c : ascii) : ascii :=
  let n := N_of_ascii c in
  if ((65 <=? n) && (n <=? 90) || (192 <=? n) && (n <=? 222) && negb (n =? 215))%N
  then ascii_of_N (n + 32) else c.

Fixpoint lower (s : string) : string :=
  match s with
  | EmptyString => EmptyString
  | String c s' => String (lower_char c) (lower s')
  end.

Definition allowed_file (filename : string) : bool :=
  has_dot filename &&
  match rsplit_dot_tail filename with
  | Some ext => bool_decide (lower ext ∈ ALLOWED_EXTENSIONS)
  | None => false
  end.

(** *** State and responses *)

Record State := mkState {
  students_df : list Student;
  faculty_df : list Faculty;
  courses_df : list Course;
  rooms_df : list Room;
  constraints : option Constraints;
  selections_df : list Selection;
  timetable_result : list ScheduledSession
}.

(** What a handler returns: [jsonify] of a success body, or of an error
    text with its status; [Failed] is the [except] branch of a handler
    (status 500, the text of the exception after the given prefix);
    [Uncaught] is an exception that leaves the handler. *)
Inductive response : Type :=
| Success (message : string)
| Selections (selections : list Selection)
| Timetable (timetable : list ScheduledSession)
| Error (status : Z) (error : string)
| Failed (error_prefix : string) (e : exn)
| Uncaught (e : exn).

(** *** [add_row] *)

(** The value of a sum in the 64-bit integers of an identifier column:
    it wraps around. *)
Definition wrap_int64 (n : Z) : Z := (n + 2 ^ 63) mod 2 ^ 64 - 2 ^ 63.

(** [df['id'].max() + 1 if not df.empty else 1]. The identifier column
    is a column of 64-bit integers, as pandas makes it from a file or
    from the sample data, so the sum is taken in them. *)
Definition next_id (ids : list Z) : Z :=
  match ids with
  | [] => 1
  | x :: xs => wrap_int64 (foldl Z.max x xs + 1)
  end.

Definition add_student (df : list Student) : list Student :=
  match last df with
  | None => [ {| st_id := 1; st_name := "New Student" |} ]
  | Some new_row =>
      df ++ [ {| st_id := next_id (map st_id df); st_name := "New Student" |} ]
  end.

Definition add_faculty (df : list Faculty) : list Faculty :=
  match last df with
  | None => [ {| f_id := 1; f_name := "New Faculty" |} ]
  | Some new_row =>
      df ++ [ {| f_id := next_id (map f_id df); f_name := "New Faculty" |} ]
  end.

Definition add_course (df : list Course) : list Course :=
  match last df with
  | None =>
      [ {| c_code := "NEW101"; c_name := "New Course";
           c_program := "Computer Science"; c_section := "A";
           c_duration_slots := 4; c_room_type := "Classroom";
           c_faculty_pool := [] |} ]
  | Some new_row =>
      df ++ [ {| c_code := "NEW" +:+ Py.digits (Z.of_nat (length df) + 101);
                 c_name := "New Course";
                 c_program := c_program new_row; c_section := c_section new_row;
                 c_duration_slots := c_duration_slots new_row;
                 c_room_type := c_room_type new_row;
                 c_faculty_pool := c_faculty_pool new_row |} ]
  end.

Definition add_room (df : list Room) : list Room :=
  match last df with
  | None => [ {| r_id := 1; r_name := "New Room"; r_type := "Classroom" |} ]
  | Some new_row =>
      df ++ [ {| r_id := next_id (map r_id df); r_name := "New Room";
                 r_type := r_type new_row |} ]
  end.

Definition add_row (data_type : string) (st : State) : response * State :=
  if String.eqb data_type "students" then
    (Success ("New row added to " +:+ data_type),
     mkState (add_student (students_df st)) (faculty_df st) (courses_df st)
       (rooms_df st) (constraints st) (selections_df st) (timetable_result st))
  else if String.eqb data_type "faculty" then
    (Success ("New row added to " +:+ data_type),
     mkState (students_df st) (add_faculty (faculty_df st)) (courses_df st)
       (rooms_df st) (constraints st) (selections_df st) (timetable_result st))
  else if String.eqb data_type "courses" then
    (Success ("New row added to " +:+ data_type),
     mkState (students_df st) (faculty_df st) (add_course (courses_df st))
       (rooms_df st) (constraints st) (selections_df st) (timetable_result st))
  else if String.eqb data_type "rooms" then
    (Success ("New row added to " +:+ data_type),
     mkState (students_df st) (faculty_df st) (courses_df st)
       (add_room (rooms_df st)) (constraints st) (selections_df st)
       (timetable_result st))
  else (Error 400 "Invalid data type", st).

(** *** [remove_row] *)

(** [not df.empty and 0 <= row_index < len(df)] *)
Definition valid_index {A} (df : list A) (row_index : Z) : bool :=
  negb (bool_decide (df = [])) && (0 <=? row_index)
  && (row_index <? Z.of_nat (length df)).

(** [df.drop(df.index[row_index]).reset_index(drop=True)] on a frame
    whose index is the row positions. *)
Definition drop_row {A} (df : list A) (row_index : Z) : list A :=
  delete (Z.to_nat row_index) df.

Definition remove_row (data_type : string) (index : option Z) (st : State)
  : response * State :=
  match index with
  | None => (Error 400 "No row index provided", st)
  | Some row_index =>
      if String.eqb data_type "students" then
        if valid_index (students_df st) row_index then
          (Success ("Row removed from " +:+ data_type),
           mkState (drop_row (students_df st) row_index) (faculty_df st)
             (courses_df st) (rooms_df st) (constraints st) (selections_df st)
             (timetable_result st))
        else (Error 400 "Invalid row index", st)
      else if String.eqb data_type "faculty" then
        if valid_index (faculty_df st) row_index then
          (Success ("Row removed from " +:+ data_type),
           mkState (students_df st) (drop_row (faculty_df st) row_index)
             (courses_df st) (rooms_df st) (constraints st) (selections_df st)
             (timetable_result st))
        else (Error 400 "Invalid row index", st)
      else if String.eqb data_type "courses" then
        if valid_index (courses_df st) row_index then
          (Success ("Row removed from " +:+ data_type),
           mkState (students_df st) (faculty_df st)
             (drop_row (courses_df st) row_index) (rooms_df st) (constraints st)
             (selections_df st) (timetable_result st))
        else (Error 400 "Invalid row index", st)
      else if String.eqb data_type "rooms" then
        if valid_index (rooms_df st) row_index then
          (Success ("Row removed from " +:+ data_type),
           mkState (students_df st) (faculty_df st) (courses_df st)
             (drop_row (rooms_df st) row_index) (constraints st)
             (selections_df st) (timetable_result st))
        else (Error 400 "Invalid row index", st)
      else (Error 400 "Invalid data type", st)
  end.

(** *** [handle_selections], POST *)

(** The JSON body of the request; a missing key is [None]. *)
Record SelectionRequest := mkSelectionRequest {
  action : option string;
  req_student_id : option Z;
  req_course_code : option string;
  req_section : option string;
  req_faculty_id : option Z
}.

Definition with_selections (st : State) (selections : list Selection) : State :=
  mkState (students_df st) (faculty_df st) (courses_df st) (rooms_df st)
    (constraints st) selections (timetable_result st).

(** The selections frame of the application always has the column
    [section]: it is created with it, and every added row has it. The
    concatenation with a frame that lacks the column would fill it with
    NaN, which the rows of the model do not hold: on such a state an
    [add] is [OutsideModel]. *)
Definition has_section_column (selections : list Selection) : bool :=
  forallb (λ sel, bool_decide (is_Some (sel_section sel))) selections.

Definition handle_selections (data : SelectionRequest) (st : State)
  : response * State :=
  match action data with
  | Some act =>
      if String.eqb act "add" then
        match req_student_id data, req_course_code data with
        | Some student_id, Some course_code =>
            if has_section_column (selections_df st) then
              let new_selection :=
                {| sel_student_id := student_id;
                   sel_course_code := course_code;
                   sel_section := Some (default "A" (req_section data));
                   sel_faculty_id := req_faculty_id data |} in
              let selections := selections_df st ++ [new_selection] in
              (Selections selections, with_selections st selections)
            else (Uncaught OutsideModel, st)
        | _, _ => (Uncaught KeyError, st)
        end
      else if String.eqb act "clear" then
        (Selections [], with_selections st [])
      else (Selections (selections_df st), st)
  | None => (Selections (selections_df st), st)
  end.

(** *** [generate_timetable] *)

(** The names of the empty datasets, in the order the handler tests
    them. *)
Definition missing_datasets (st : State) : list string :=
  (if bool_decide (students_df st = []) then ["students"] else []) ++
  (if bool_decide (courses_df st = []) then ["courses"] else []) ++
  (if bool_decide (rooms_df st = []) then ["rooms"] else []) ++
  (if bool_decide (faculty_df st = []) then ["faculty"] else []).

(** The engine on the module-level frames; a dict of constraints
    without its keys raises [KeyError] at the first read. *)
Definition run_engine (st : State) : result (list ScheduledSession) :=
  match constraints st with
  | None => Raise KeyError
  | Some c =>
      solve_timetable (students_df st) (courses_df st) (rooms_df st)
        (faculty_df st) c (Some (selections_df st))
  end.

Definition generate_timetable (st : State) : response * State :=
  if bool_decide (selections_df st = []) then
    (Error 400 "No course selections found. Please add some course selections first.",
     st)
  else if bool_decide (students_df st = []) || bool_decide (courses_df st = [])
          || bool_decide (rooms_df st = []) || bool_decide (faculty_df st = []) then
    (Error 400 ("Required datasets not loaded: "
                +:+ String.concat ", " (missing_datasets st)
                +:+ ". Please load the data files first."), st)
  else
    match run_engine st with
    | Ok timetable =>
        (Timetable timetable,
         mkState (students_df st) (faculty_df st) (courses_df st) (rooms_df st)
           (constraints st) (selections_df st) timetable)
    | Raise e => (Failed "Error generating timetable: " e, st)
    end.

End WebApp.

(** ** The calendar grid of the desktop application
    ([TimetableApp._update_calendar_view] in [app.py])

    The widget calls are modelled by their arguments: a label put on
    the grid is the row, the column and the row span of its [grid]
    call, with its text. The view is the list of the labels in the
    order they are made; [None] stands for the [ValueError] that
    [days.index] raises on a day that is not in the list (the labels
    made before it are then not represented). The two arguments
    [days_key] and [slots_key] are the values of the [days] and
    [slots_per_day] keys of the constraints dict, [None] for a missing
    key. *)

Module Calendar.
Import Solver.

Record Cell := mkCell {
  cell_row : Z;
  cell_column : Z;
  cell_rowspan : Z;
  cell_text : string
}.

(** [days.index(day)]: the position of the first occurrence. *)
Fixpoint index_of (days : list string) (day : string) : option Z :=
  match days with
  | [] => None
  | d :: rest =>
      if String.eqb d day then Some 0
      else match index_of rest day with
           | Some i => Some (i + 1)
           | None => None
           end
  end.

(** Lines 502-504: the day headers, in row 0. *)
Definition header_cells (days : list string) : list Cell :=
  imap (λ i day, mkCell 0 (Z.of_nat i + 1) 1 day) days.

(** Lines 507-510: the time labels, in column 0; the text is the same
    expression as the engine's clock-time string. *)
Definition time_cells (slots_per_day : Z) : list Cell :=
  map (λ slot, mkCell (slot + 1) 0 1 (time_str slot)) (seqZ 0 slots_per_day).

(** Lines 520-542: the label of one row of the timetable. *)
Definition course_cell (days : list string) (row : ScheduledSession)
  : option Cell :=
  match index_of days (s_day row) with
  | None => None
  | Some day_idx =>
      let start_slot := s_start row in
      let end_slot := s_end row in
      let course_text :=
        s_course row
        +:+ String "010" (s_section row +:+ String "010" (s_room row)) in
      let rowspan := Z.max 1 (end_slot - start_slot + 1) in
      Some (mkCell (start_slot + 1) (day_idx + 1) rowspan course_text)
  end.

Fixpoint course_cells (days : list string) (timetable : list ScheduledSession)
  : option (list Cell) :=
  match timetable with
  | [] => Some []
  | row :: rest =>
      match course_cell days row with
      | None => None
      | Some cell =>
          match course_cells days rest with
          | None => None
          | Some cells => Some (cell :: cells)
          end
      end
  end.

Definition update_calendar_view (days_key : option (list string))
    (slots_key : option Z) (timetable_result : list ScheduledSession)
  : option (list Cell) :=
  match timetable_result with
  | [] => Some []
  | _ =>
      let days := default ["Mon"; "Tue"; "Wed"; "Thu"; "Fri"] days_key in
      let slots_per_day := default 16 slots_key in
      match course_cells days timetable_result with
      | None => None
      | Some cells =>
          Some (header_cells days ++ time_cells slots_per_day ++ cells)
      end
  end.

(** A label that lies in the rectangle of the header row, the time
    column and the slots of the grid. *)
Definition in_grid (grid : Constraints) (cell : Cell) : Prop :=
  0 <= cell_row cell ∧ 0 <= cell_column cell ∧
  1 <= cell_rowspan cell ∧
  cell_row cell + cell_rowspan cell - 1 <= slots_per_day grid ∧
  cell_column cell <= Z.of_nat (length (days grid)).

(** The label of a session of the engine: in the row after its start
    slot, in the column of the first day of that name, inside the grid;
    and, for a duration between one slot and a whole day, as many rows
    high as the duration when the session ends within the day, one row
    high when it runs past the end of the day. *)
Definition drawn (grid : Constraints) (course_info : CourseInfo)
    (session : ScheduledSession) (cell : Cell) : Prop :=
  let duration := c_duration_slots (ci_course course_info) in
  cell_row cell = s_start session + 1 ∧
  1 <= cell_column cell <= Z.of_nat (length (days grid)) ∧
  days grid !! Z.to_nat (cell_column cell - 1) = Some (s_day session) ∧
  1 <= cell_row cell ∧ 1 <= cell_rowspan cell ∧
  cell_row cell + cell_rowspan cell - 1 <= slots_per_day grid ∧
  (1 <= duration <= slots_per_day grid →
   cell_rowspan cell
   = if s_start session + duration <=? slots_per_day grid then duration else 1).

End Calendar.

(** ** A state of the web application used in the examples

    The sample frames, the week of five days of sixteen slots, and one
    selection. *)

Module Scenario.
Import Solver.

Definition week : Constraints :=
  mkConstraints ["Mon"; "Tue"; "Wed"; "Thu"; "Fri"] 16.

Definition campus : WebApp.State :=
  WebApp.mkState Sample.students_df Sample.faculty_df Sample.courses_df
    Sample.rooms_df (Some week) [Examples.select 1 "CS301"] [].

(** The same state with the selections frame as the application holds
    it, with its section column. *)
Definition enrolled : WebApp.State :=
  WebApp.mkState Sample.students_df Sample.faculty_df Sample.courses_df
    Sample.rooms_df (Some week) [mkSelection 1 "CS301" (Some "A") None] [].

(** The body of a request that adds a selection of the physics course
    for student 2. *)
Definition add_physics : WebApp.SelectionRequest :=
  WebApp.mkSelectionRequest (Some "add") (Some 2) (Some "PHYS101") None None.

End Scenario.

(** ** The pickers of the desktop application
    ([TimetableApp._refresh_pickers] and [TimetableApp._add_selection]
    in [app.py])

    The comboboxes are read-only: the text of one is the empty string
    or one of the options [_refresh_pickers] has put there. The options
    are modelled by the expressions that build them; [_add_selection]
    is a function of the four texts and of the selections frame. Text
    is a string of code points below 256. *)

Module Pickers.
Import Solver.

(** [str(n)] for an integer. *)
Definition str_int (n : Z) : string := NilZero.string_of_int (Z.to_int n).

(** Lines 395, 402 and 416: the options of the student, course and
    faculty comboboxes. *)
Definition student_option (row : Student) : string :=
  str_int (st_id row) +:+ " - " +:+ st_name row.

Definition course_option (row : Course) : string :=
  c_code row +:+ " - " +:+ c_name row.

Definition faculty_option (row : Faculty) : string :=
  str_int (f_id row) +:+ " - " +:+ f_name row.

(** [text.split(' - ')[0]]: the text before the first occurrence of the
    separator, the whole text when there is none. *)
Fixpoint split_head (text : string) : string :=
  match text with
  | EmptyString => EmptyString
  | String c rest =>
      if String.prefix " - " text then EmptyString else String c (split_head rest)
  end.

(** [' - ' in text] *)
Fixpoint has_separator (text : string) : bool :=
  match text with
  | EmptyString => false
  | String c rest => String.prefix " - " text || has_separator rest
  end.

(** The white space that [int] strips from both ends of a text: the
    code points 9 to 13, 32, 133 and 160. *)
Definition is_space (c : ascii) : bool :=
  let n := N_of_ascii c in
  ((9 <=? n) && (n <=? 13) || (n =? 32) || (n =? 133) || (n =? 160))%N.

Fixpoint lstrip (text : list ascii) : list ascii :=
  match text with
  | [] => []
  | c :: rest => if is_space c then lstrip rest else text
  end.

Fixpoint rstrip (text : list ascii) : list ascii :=
  match text with
  | [] => []
  | c :: rest =>
      match rstrip rest with
      | [] => if is_space c then [] else [c]
      | kept => c :: kept
      end
  end.

Definition digit_value (c : ascii) : option Z :=
  let n := N_of_ascii c in
  if ((48 <=? n) && (n <=? 57))%N then Some (Z.of_N n - 48) else None.

(** The digits of an integer literal, with single underscores allowed
    between two digits: the value and the number of digits read after
    [acc] and [count]; [after_digit] tells whether the previous
    character was a digit. *)
Fixpoint parse_digits (acc : Z) (count : nat) (after_digit : bool)
    (text : list ascii) : option (Z * nat) :=
  match text with
  | [] => if after_digit then Some (acc, count) else None
  | c :: rest =>
      match digit_value c with
      | Some d => parse_digits (10 * acc + d) (S count) true rest
      | None =>
          if (c =? "_")%char && after_digit
          then parse_digits acc count false rest
          else None
      end
  end.

(** [int(text)] in base ten; [None] stands for [ValueError]. The text
    is stripped, may start with one sign, and holds at most 4300
    digits (the default limit of the interpreter). *)
Definition py_int (text : string) : option Z :=
  let body := rstrip (lstrip (list_ascii_of_string text)) in
  let '(negative, literal) :=
    match body with
    | c :: rest =>
        if (c =? "-")%char then (true, rest)
        else if (c =? "+")%char then (false, rest)
        else (false, body)
    | [] => (false, body)
    end in
  match parse_digits 0 0 false literal with
  | Some (n, count) =>
      if (4300 <? count)%nat then None
      else Some (if negative then - n else n)
  | None => None
  end.

(** What [_add_selection] does: a warning box and no change, an
    uncaught [ValueError], or the selections frame with the new row. *)
Inductive outcome : Type :=
| Warned
| ValueError
| Added (selections_df : list Selection).

Definition add_selection (student_text course_text section faculty_text : string)
    (selections_df : list Selection) : outcome :=
  if String.eqb student_text "" || String.eqb course_text "" then Warned
  else
    match py_int (split_head student_text) with
    | None => ValueError
    | Some student_id =>
        let course_code := split_head course_text in
        let faculty_id :=
          if String.eqb faculty_text "" then Some None
          else match py_int (split_head faculty_text) with
               | Some n => Some (Some n)
               | None => None
               end in
        match faculty_id with
        | None => ValueError
        | Some faculty_id =>
            Added (selections_df ++
                   [ {| sel_student_id := student_id;
                        sel_course_code := course_code;
                        sel_section := Some section;
                        sel_faculty_id := faculty_id |} ])
        end
    end.

(** The value of a decimal numeral read from the left after [acc]. *)
Fixpoint uint_value (d : Decimal.uint) (acc : Z) : Z :=
  match d with
  | Decimal.Nil => acc
  | Decimal.D0 l => uint_value l (10 * acc + 0)
  | Decimal.D1 l => uint_value l (10 * acc + 1)
  | Decimal.D2 l => uint_value l (10 * acc + 2)
  | Decimal.D3 l => uint_value l (10 * acc + 3)
  | Decimal.D4 l => uint_value l (10 * acc + 4)
  | Decimal.D5 l => uint_value l (10 * acc + 5)
  | Decimal.D6 l => uint_value l (10 * acc + 6)
  | Decimal.D7 l => uint_value l (10 * acc + 7)
  | Decimal.D8 l => uint_value l (10 * acc + 8)
  | Decimal.D9 l => uint_value l (10 * acc + 9)
  end.

(** The characters of a decimal numeral. *)
Definition uint_chars (d : Decimal.uint) : list ascii :=
  list_ascii_of_string (NilEmpty.string_of_uint d).

End Pickers.

(** * Properties of the scheduling engine *)

Import Solver.

(** ** The catalog index *)

Lemma course_map_snoc courses_df row :
  course_map (courses_df ++ [row]) = <[c_code row := row]> (course_map courses_df).
Proof. unfold course_map. by rewrite foldl_app. Qed.

Lemma course_map_last courses_df code :
  course_map courses_df !! code
  = last (filter (λ c, c_code c = code) courses_df).
Proof.
  induction courses_df as [|row courses IH] using rev_ind; [done|].
  rewrite course_map_snoc, filter_app, filter_cons, filter_nil.
  case_decide as Hc.
  - subst code. by rewrite lookup_insert_eq, last_snoc.
  - rewrite lookup_insert_ne by done. by rewrite app_nil_r.
Qed.

Lemma course_map_elem_of courses_df code course :
  course_map courses_df !! code = Some course →
  course ∈ courses_df ∧ c_code course = code.
Proof.
  rewrite course_map_last. intros Hlast.
  assert (course ∈ filter (λ c, c_code c = code) courses_df) as Hin.
  { destruct (filter _ courses_df) as [|c l] using rev_ind; [done|].
    rewrite last_snoc in Hlast. injection Hlast as ->.
    apply elem_of_app. right. left. }
  by apply list_elem_of_filter in Hin as [? ?].
Qed.

(** The index against the frame: a code is known exactly when some
    row of the catalog carries it. *)
Lemma course_map_in_catalog courses_df code :
  is_Some (course_map courses_df !! code) ↔ code ∈ map c_code courses_df.
Proof.
  rewrite course_map_last. split.
  - intros [course Hlast].
    assert (course ∈ filter (λ c, c_code c = code) courses_df) as Hin.
    { destruct (filter _ courses_df) as [|c l] using rev_ind; [done|].
      rewrite last_snoc in Hlast. injection Hlast as ->.
      apply elem_of_app. right. left. }
    apply list_elem_of_filter in Hin as [<- Hin].
    apply list_elem_of_fmap. by exists course.
  - intros Hin. apply list_elem_of_fmap in Hin as (course & -> & Hin).
    assert (course ∈ filter (λ c, c_code c = c_code course) courses_df) as Hf
      by (by apply list_elem_of_filter).
    destruct (filter _ courses_df) as [|c l] using rev_ind.
    + by apply elem_of_nil in Hf.
    + rewrite last_snoc. eauto.
Qed.

Lemma known_code_in_catalog courses_df selection :
  known_code courses_df selection ↔ in_catalog courses_df selection.
Proof. apply course_map_in_catalog. Qed.

Lemma rooms_by_type_step_lookup (m : gmap string (list Room)) room t :
  rooms_by_type_step m room !! t =
    if decide (r_type room = t)
    then Some (default [] (m !! t) ++ [room])
    else m !! t.
Proof.
  unfold rooms_by_type_step.
  case_decide as Ht.
  - subst t. rewrite lookup_insert_eq. f_equal.
    destruct (m !! r_type room) as [l|] eqn:Hm; simpl.
    + by rewrite lookup_total_alt, Hm.
    + by rewrite lookup_total_alt, lookup_insert_eq.
  - rewrite lookup_insert_ne by done.
    destruct (m !! r_type room); [done|].
    by rewrite lookup_insert_ne.
Qed.

Lemma rooms_by_type_foldl rooms_df (m : gmap string (list Room)) t :
  foldl rooms_by_type_step m rooms_df !! t =
    match filter (λ r, r_type r = t) rooms_df with
    | [] => m !! t
    | l => Some (default [] (m !! t) ++ l)
    end.
Proof.
  revert m. induction rooms_df as [|room rooms IH]; intros m; [done|].
  simpl. rewrite IH, rooms_by_type_step_lookup.
  rewrite filter_cons. case_decide as Ht.
  - simpl. destruct (filter _ rooms) as [|r l]; simpl; [done|].
    by rewrite <- app_assoc.
  - done.
Qed.

(** The dict [rooms_by_type] holds, under each room type that occurs,
    the rooms of that type in frame order, and no other key. *)
Lemma rooms_by_type_lookup rooms_df t :
  rooms_by_type rooms_df !! t =
    match filter (λ r, r_type r = t) rooms_df with
    | [] => None
    | l => Some l
    end.
Proof.
  unfold rooms_by_type. rewrite rooms_by_type_foldl, lookup_empty.
  by destruct (filter _ rooms_df).
Qed.

Lemma resolve_room_filter rooms_df course :
  resolve_room rooms_df course =
    match filter (λ r, r_type r = c_room_type course) rooms_df with
    | room :: _ => Ok room
    | [] => Py.iloc0 rooms_df
    end.
Proof.
  unfold resolve_room. rewrite rooms_by_type_lookup.
  by destruct (filter _ rooms_df).
Qed.

(** ** One iteration of the placement loop *)

Lemma index_elem_of {A} (l : list A) i x : Py.index l i = Ok x → x ∈ l.
Proof.
  unfold Py.index. intros H.
  destruct (_ && _); [|done].
  destruct (l !! _) as [y|] eqn:Hy; [|done].
  injection H as <-. by eapply list_elem_of_lookup_2.
Qed.

Lemma index_in_range {A} (l : list A) i :
  0 <= i < Z.of_nat (length l) → ∃ x, Py.index l i = Ok x ∧ l !! Z.to_nat i = Some x.
Proof.
  intros Hi. unfold Py.index.
  destruct (Z.ltb_spec i 0) as [?|_]; [lia|].
  destruct (Z.leb_spec 0 i); [|lia].
  destruct (Z.ltb_spec i (Z.of_nat (length l))); [|lia]. simpl.
  destruct (lookup_lt_is_Some_2 l (Z.to_nat i)) as [x Hx]; [lia|].
  rewrite Hx. eauto.
Qed.

Lemma filter_none {A} (P : A → Prop) `{∀ x, Decision (P x)} (l : list A) :
  (∀ x, x ∈ l → ¬ P x) → filter P l = [].
Proof.
  induction l as [|a l IH]; intros Hno; [done|].
  rewrite filter_cons_False by (apply Hno; left).
  apply IH. intros x Hx. apply Hno. by right.
Qed.

Section one_request.
Variable rooms_df : list Room.
Variable faculty_df : list Faculty.
Variable constraints : Constraints.

(** With a non-zero [slots_per_day], the body of the loop is the two
    resource lookups, the day lookup and the emitted row. *)
Lemma place_one_unfold current_slot course_info :
  slots_per_day constraints ≠ 0 →
  place_one rooms_df faculty_df constraints current_slot course_info =
    let course := ci_course course_info in
    let spd := slots_per_day constraints in
    let wrap := Z.of_nat (length (days constraints)) <=? current_slot / spd in
    let day_idx := if wrap then 0 else current_slot / spd in
    let counter := if wrap then current_slot mod spd else current_slot in
    let* room := resolve_room rooms_df course in
    let* faculty := resolve_faculty faculty_df course in
    let* day := Py.index (days constraints) day_idx in
    let end_ := (counter + c_duration_slots course - 1) mod spd in
    Ok ({| s_program := c_program course;
           s_section := ci_section course_info;
           s_course := c_name course;
           s_faculty := f_name faculty;
           s_room := r_name room;
           s_day := day;
           s_start := current_slot mod spd;
           s_end := end_;
           s_start_time := time_str (current_slot mod spd);
           s_end_time := time_str end_ |},
        counter + (c_duration_slots course + 1)).
Proof.
  intros Hspd. unfold place_one, Py.floordiv, Py.mod_.
  apply Z.eqb_neq in Hspd. rewrite Hspd. simpl.
  destruct (_ <=? _); simpl;
    destruct (resolve_room _ _); simpl; try done;
    destruct (resolve_faculty _ _); simpl; try done;
    destruct (Py.index _ _); simpl; done.
Qed.

Lemma place_one_zero_slots current_slot course_info :
  slots_per_day constraints = 0 →
  place_one rooms_df faculty_df constraints current_slot course_info
  = Raise ZeroDivisionError.
Proof. intros H. unfold place_one, Py.floordiv. by rewrite H. Qed.

Lemma place_cons current_slot course_info rest :
  place rooms_df faculty_df constraints current_slot (course_info :: rest) =
    let* r := place_one rooms_df faculty_df constraints current_slot course_info in
    let* sessions := place rooms_df faculty_df constraints (snd r) rest in
    Ok (fst r :: sessions).
Proof.
  simpl. destruct (place_one _ _ _ _ _) as [[s n]|e]; done.
Qed.

End one_request.

(** ** Day-index overflow *)

(** C5. When [current_slot div slots_per_day] reaches or exceeds the
    number of days, the request is emitted on [days[0]] at
    [slot_in_day = current_slot mod slots_per_day], its end slot is
    computed from the reset counter, and the rest of the pass continues
    from [slot_in_day + duration + 1]: the accumulated days are dropped. *)
Theorem day_wrap_resets_counter
    rooms_df faculty_df constraints current_slot course_info rest room faculty d0 :
  slots_per_day constraints ≠ 0 →
  Z.of_nat (length (days constraints)) <= current_slot / slots_per_day constraints →
  head (days constraints) = Some d0 →
  resolve_room rooms_df (ci_course course_info) = Ok room →
  resolve_faculty faculty_df (ci_course course_info) = Ok faculty →
  let spd := slots_per_day constraints in
  let duration := c_duration_slots (ci_course course_info) in
  let slot_in_day := current_slot mod spd in
  ∃ session,
    place_one rooms_df faculty_df constraints current_slot course_info
      = Ok (session, slot_in_day + (duration + 1)) ∧
    s_day session = d0 ∧
    s_start session = slot_in_day ∧
    s_end session = (slot_in_day + duration - 1) mod spd ∧
    place rooms_df faculty_df constraints current_slot (course_info :: rest) =
      let* sessions :=
        place rooms_df faculty_df constraints (slot_in_day + (duration + 1)) rest in
      Ok (session :: sessions).
Proof.
  intros Hspd Hwrap Hd0 Hroom Hfac spd duration slot_in_day.
  pose proof (place_one_unfold rooms_df faculty_df constraints
                current_slot course_info Hspd) as Hone.
  simpl in Hone. rewrite Hroom, Hfac in Hone. simpl in Hone.
  apply Z.leb_le in Hwrap. rewrite Hwrap in Hone.
  destruct (days constraints) as [|d ds] eqn:Hdays; [done|].
  injection Hd0 as ->.
  change (Py.index (d0 :: ds) 0) with (Ok (A:=string) d0) in Hone.
  simpl in Hone.
  eexists. split; [exact Hone|].
  repeat split.
  rewrite place_cons, Hone. done.
Qed.

Lemma day_wrap_resets_counter_witness :
  ∃ session,
    place_one [Examples.lab] [Examples.dr_x] Examples.grid_2x4 9
      (request_of_course Examples.course_b) = Ok (session, 1 + (2 + 1)) ∧
    s_day session = "Mon" ∧ s_start session = 1 ∧ s_end session = 2.
Proof.
  destruct (day_wrap_resets_counter [Examples.lab] [Examples.dr_x]
              Examples.grid_2x4 9 (request_of_course Examples.course_b) []
              Examples.lab Examples.dr_x "Mon")
    as (session & H1 & H2 & H3 & H4 & _).
  - simpl. lia.
  - vm_compute. discriminate.
  - reflexivity.
  - reflexivity.
  - reflexivity.
  - exists session. auto.
Defined.

(** ** Room resolution *)

Lemma resolve_room_total rooms_df course :
  rooms_df ≠ [] →
  ∃ room,
    resolve_room rooms_df course = Ok room ∧
    match head (filter (λ r, r_type r = c_room_type course) rooms_df) with
    | Some r => room = r
    | None => head rooms_df = Some room
    end.
Proof.
  intros Hne. rewrite resolve_room_filter.
  destruct (filter _ rooms_df) as [|r l]; simpl; [|eauto].
  destruct rooms_df as [|r0 rs]; [done|]. simpl. eauto.
Qed.

(** C7. With a non-empty room frame the room lookup never raises: it
    yields the first room of the required type in frame order when one
    exists, and the first room of the whole frame otherwise; the emitted
    session carries the name of that room. *)
Theorem room_fallback_resolution rooms_df course :
  rooms_df ≠ [] →
  ∃ room,
    resolve_room rooms_df course = Ok room ∧
    match head (filter (λ r, r_type r = c_room_type course) rooms_df) with
    | Some r => room = r
    | None => head rooms_df = Some room
    end ∧
    ∀ faculty_df constraints current_slot course_info session next,
      ci_course course_info = course →
      place_one rooms_df faculty_df constraints current_slot course_info
        = Ok (session, next) →
      s_room session = r_name room.
Proof.
  intros Hne.
  destruct (resolve_room_total rooms_df course Hne) as (room & Hroom & Hwhich).
  exists room. split; [done|]. split; [done|].
  intros faculty_df constraints current_slot course_info session next <- Hone.
  destruct (decide (slots_per_day constraints = 0)) as [Hz|Hnz].
  { by rewrite place_one_zero_slots in Hone. }
  rewrite place_one_unfold in Hone by done. simpl in Hone.
  rewrite Hroom in Hone. simpl in Hone.
  destruct (resolve_faculty _ _); simpl in Hone; [|done].
  destruct (Py.index _ _); simpl in Hone; [|done].
  by injection Hone as <- _.
Qed.

Lemma room_fallback_resolution_witness :
  ∃ room,
    resolve_room [Examples.hall; Examples.lab; Examples.lab2] Examples.course_c
      = Ok room ∧
    room = Examples.hall.
Proof.
  destruct (room_fallback_resolution
              [Examples.hall; Examples.lab; Examples.lab2] Examples.course_c)
    as (room & Hroom & Hwhich & _).
  - discriminate.
  - exists room. split; [exact Hroom|].
    vm_compute in Hwhich. by injection Hwhich.
Defined.

(** The typed case, run: the first of two labs is taken. *)
Example room_first_of_type :
  resolve_room [Examples.hall; Examples.lab; Examples.lab2] Examples.course_a
  = Ok Examples.lab.
Proof. reflexivity. Qed.

(** ** Missing resources *)

Section missing_resources.
Variable rooms_df : list Room.
Variable faculty_df : list Faculty.
Variable constraints : Constraints.

Lemma resolve_room_empty course :
  rooms_df = [] → resolve_room rooms_df course = Raise IndexError.
Proof. intros ->. done. Qed.

Lemma resolve_faculty_lacking course_info :
  (faculty_df = [] ∧ c_faculty_pool (ci_course course_info) = []) ∨
  (∃ faculty_id pool,
      c_faculty_pool (ci_course course_info) = faculty_id :: pool ∧
      ∀ f, f ∈ faculty_df → f_id f ≠ faculty_id) →
  resolve_faculty faculty_df (ci_course course_info) = Raise IndexError.
Proof.
  unfold resolve_faculty.
  intros [[-> ->]|(fid & pool & -> & Hno)]; [done|].
  replace (filter _ faculty_df) with (@nil Faculty); [done|].
  symmetry. apply filter_none. intros f Hf. by apply Hno.
Qed.

Lemma place_one_lacking current_slot course_info :
  lacks_resource rooms_df faculty_df course_info →
  ∃ e, place_one rooms_df faculty_df constraints current_slot course_info = Raise e.
Proof.
  intros Hlack.
  destruct (decide (slots_per_day constraints = 0)) as [Hz|Hnz].
  { rewrite place_one_zero_slots by done. eauto. }
  rewrite place_one_unfold by done. simpl.
  destruct Hlack as [Hrooms|Hfac].
  - rewrite resolve_room_empty by done. simpl. eauto.
  - destruct (resolve_room _ _); simpl; [|eauto].
    rewrite resolve_faculty_lacking by done. simpl. eauto.
Qed.

Lemma place_lacking requests : ∀ current_slot course_info,
  course_info ∈ requests →
  lacks_resource rooms_df faculty_df course_info →
  ∃ e, place rooms_df faculty_df constraints current_slot requests = Raise e.
Proof.
  induction requests as [|r rest IH]; intros cs ci Hin Hlack.
  - by apply elem_of_nil in Hin.
  - rewrite place_cons.
    destruct (place_one _ _ _ cs r) as [[s n]|e] eqn:Hone; simpl; [|eauto].
    apply elem_of_cons in Hin as [->|Hin].
    + destruct (place_one_lacking cs r Hlack) as [e He]. congruence.
    + destruct (IH n ci Hin Hlack) as [e ->]. simpl. eauto.
Qed.

End missing_resources.

(** C6. If some accepted request meets an empty room frame, or an empty
    faculty frame with an empty pool, or a pool whose first identifier
    has no faculty row, the run raises and returns no result list. *)
Theorem missing_resource_raises
    students_df courses_df rooms_df faculty_df constraints selections_df course_info :
  course_info ∈ scheduled_courses courses_df selections_df →
  lacks_resource rooms_df faculty_df course_info →
  ∃ e, solve_timetable students_df courses_df rooms_df faculty_df
         constraints selections_df = Raise e.
Proof. intros Hin Hlack. unfold solve_timetable. by eapply place_lacking. Qed.

Lemma missing_resource_raises_witness :
  ∃ e, solve_timetable [] [Examples.course_a; Examples.course_b] []
         [Examples.dr_x] Examples.grid_2x4
         (Some [Examples.select 1 "B"]) = Raise e.
Proof.
  apply (missing_resource_raises [] [Examples.course_a; Examples.course_b] []
           [Examples.dr_x] Examples.grid_2x4 (Some [Examples.select 1 "B"])
           (mkCourseInfo (Some 1) "B" "A" None Examples.course_b)).
  - vm_compute. left.
  - left. reflexivity.
Defined.

(** ** Emitted sessions stay on the grid *)

Section grid.
Variable rooms_df : list Room.
Variable faculty_df : list Faculty.
Variable constraints : Constraints.

Lemma place_one_on_grid current_slot course_info session next :
  0 < slots_per_day constraints →
  place_one rooms_df faculty_df constraints current_slot course_info
    = Ok (session, next) →
  0 <= s_start session < slots_per_day constraints ∧
  0 <= s_end session < slots_per_day constraints ∧
  s_day session ∈ days constraints.
Proof.
  intros Hpos Hone.
  rewrite place_one_unfold in Hone by lia. simpl in Hone.
  destruct (resolve_room _ _); simpl in Hone; [|done].
  destruct (resolve_faculty _ _); simpl in Hone; [|done].
  destruct (Py.index _ _) as [day|] eqn:Hday; simpl in Hone; [|done].
  injection Hone as <- _. simpl.
  split; [by apply Z.mod_pos_bound|].
  split; [by apply Z.mod_pos_bound|].
  by eapply index_elem_of.
Qed.

Lemma place_on_grid requests : ∀ current_slot sessions,
  0 < slots_per_day constraints →
  place rooms_df faculty_df constraints current_slot requests = Ok sessions →
  Forall (λ s, 0 <= s_start s < slots_per_day constraints ∧
               0 <= s_end s < slots_per_day constraints ∧
               s_day s ∈ days constraints) sessions.
Proof.
  induction requests as [|r rest IH]; intros cs sessions Hpos Hplace.
  - injection Hplace as <-. constructor.
  - rewrite place_cons in Hplace.
    destruct (place_one _ _ _ cs r) as [[s n]|] eqn:Hone; simpl in Hplace; [|done].
    destruct (place _ _ _ n rest) as [out|] eqn:Hrest; simpl in Hplace; [|done].
    injection Hplace as <-. constructor.
    + by eapply place_one_on_grid.
    + by eapply IH.
Qed.

(** One session per request, when the run returns. *)
Lemma place_length requests : ∀ current_slot sessions,
  place rooms_df faculty_df constraints current_slot requests = Ok sessions →
  length sessions = length requests.
Proof.
  induction requests as [|r rest IH]; intros cs sessions Hplace.
  - by injection Hplace as <-.
  - rewrite place_cons in Hplace.
    destruct (place_one _ _ _ cs r) as [[s n]|]; simpl in Hplace; [|done].
    destruct (place _ _ _ n rest) as [out|] eqn:Hrest; simpl in Hplace; [|done].
    injection Hplace as <-. simpl. f_equal. by eapply IH.
Qed.

(** The run returns when the grid is proper, every request finds its
    room and its faculty, and no duration is negative. *)
Lemma place_total requests : ∀ current_slot,
  0 < slots_per_day constraints →
  days constraints ≠ [] →
  0 <= current_slot →
  Forall (λ ci, is_ok (resolve_room rooms_df (ci_course ci)) = true ∧
                is_ok (resolve_faculty faculty_df (ci_course ci)) = true ∧
                0 <= c_duration_slots (ci_course ci)) requests →
  ∃ sessions,
    place rooms_df faculty_df constraints current_slot requests = Ok sessions.
Proof.
  induction requests as [|r rest IH]; intros cs Hpos Hdays Hcs Hres.
  - by exists [].
  - apply Forall_cons in Hres as [(Hroom & Hfac & Hdur) Hres].
    rewrite place_cons, place_one_unfold by lia. simpl.
    destruct (resolve_room _ _) as [room|]; [|done].
    destruct (resolve_faculty _ _) as [fac|]; [|done]. simpl.
    set (n := Z.of_nat (length (days constraints))).
    assert (0 < n) by (subst n; destruct (days constraints); [done|simpl; lia]).
    assert (0 <= cs / slots_per_day constraints) by (apply Z.div_pos; lia).
    pose proof (Z.mod_pos_bound cs (slots_per_day constraints) Hpos).
    destruct (Z.leb_spec n (cs / slots_per_day constraints)).
    + destruct (index_in_range (days constraints) 0) as (d & -> & _); [lia|].
      simpl. destruct (IH (cs mod slots_per_day constraints
                           + (c_duration_slots (ci_course r) + 1)))
        as [out ->]; [done|done|lia|done|]. simpl. eauto.
    + destruct (index_in_range (days constraints) (cs / slots_per_day constraints))
        as (d & -> & _); [lia|].
      simpl. destruct (IH (cs + (c_duration_slots (ci_course r) + 1)))
        as [out ->]; [done|done|lia|done|]. simpl. eauto.
Qed.

End grid.

(** C9. With a positive [slots_per_day] and a non-empty list of days,
    every session in the result has its start slot and its end slot in
    [0, slots_per_day) and its day name among the configured days, at
    every position of the request list. *)
Theorem sessions_within_grid
    students_df courses_df rooms_df faculty_df constraints selections_df sessions :
  0 < slots_per_day constraints →
  days constraints ≠ [] →
  solve_timetable students_df courses_df rooms_df faculty_df
    constraints selections_df = Ok sessions →
  Forall (λ s, 0 <= s_start s < slots_per_day constraints ∧
               0 <= s_end s < slots_per_day constraints ∧
               s_day s ∈ days constraints) sessions.
Proof. intros Hpos _ Hrun. by eapply place_on_grid. Qed.

Lemma sessions_within_grid_witness :
  ∃ sessions,
    solve_timetable [] [Examples.course_a; Examples.course_b] [Examples.lab]
      [Examples.dr_x] Examples.grid_2x4
      (Some [Examples.select 1 "A"; Examples.select 1 "B";
             Examples.select 2 "B"; Examples.select 3 "B"]) = Ok sessions ∧
    length sessions = 4%nat ∧
    Forall (λ s, 0 <= s_start s < 4 ∧ 0 <= s_end s < 4 ∧
                 s_day s ∈ ["Mon"; "Tue"]) sessions.
Proof.
  eexists. split; [vm_compute; reflexivity|]. split; [reflexivity|].
  apply (sessions_within_grid [] [Examples.course_a; Examples.course_b]
           [Examples.lab] [Examples.dr_x] Examples.grid_2x4
           (Some [Examples.select 1 "A"; Examples.select 1 "B";
                  Examples.select 2 "B"; Examples.select 3 "B"])).
  - simpl. lia.
  - discriminate.
  - vm_compute. reflexivity.
Defined.

(** ** The request list *)

Section requests.
Variable courses_df : list Course.

Lemma scheduled_courses_selections selections :
  selections ≠ [] →
  scheduled_courses courses_df (Some selections) =
    flat_map (request_of_selection (course_map courses_df)) selections.
Proof. by destruct selections. Qed.

Lemma request_of_known selection course :
  course_map courses_df !! sel_course_code selection = Some course →
  request_of_selection (course_map courses_df) selection =
    [ {| ci_student_id := Some (sel_student_id selection);
         ci_course_code := sel_course_code selection;
         ci_section := default "A" (sel_section selection);
         ci_faculty_id := sel_faculty_id selection;
         ci_course := course |} ].
Proof. intros H. unfold request_of_selection. by rewrite H. Qed.

Lemma request_of_unknown selection :
  course_map courses_df !! sel_course_code selection = None →
  request_of_selection (course_map courses_df) selection = [].
Proof. intros H. unfold request_of_selection. by rewrite H. Qed.

(** Unknown codes contribute no request. *)
Lemma requests_filter_known selections :
  flat_map (request_of_selection (course_map courses_df)) selections =
  flat_map (request_of_selection (course_map courses_df))
    (filter (known_code courses_df) selections).
Proof.
  induction selections as [|sel sels IH]; [done|].
  simpl. rewrite filter_cons. unfold known_code at 1.
  case_decide as Hk.
  - simpl. by rewrite IH.
  - rewrite request_of_unknown; [done|].
    by apply eq_None_not_Some.
Qed.

(** Every known code contributes exactly one request, in input order. *)
Lemma requests_of_known selections :
  Forall (known_code courses_df) selections →
  map (λ ci, (ci_section ci, Some (ci_course ci)))
      (flat_map (request_of_selection (course_map courses_df)) selections) =
  map (λ sel, (default "A" (sel_section sel),
               course_map courses_df !! sel_course_code sel)) selections.
Proof.
  induction 1 as [|sel sels [c Hc] _ IH]; [done|].
  simpl. rewrite (request_of_known sel c Hc). simpl. by rewrite IH, Hc.
Qed.

Lemma filter_known_split selections :
  (length (filter (known_code courses_df) selections)
   + length (filter (λ sel, ¬ known_code courses_df sel) selections))%nat
  = length selections.
Proof.
  induction selections as [|sel sels IH]; [done|].
  rewrite !filter_cons.
  destruct (decide (known_code courses_df sel)) as [Hk|Hk].
  - rewrite decide_False by tauto. simpl. lia.
  - rewrite decide_True by done. simpl. lia.
Qed.

End requests.

(** ** What the placement reads of a request *)

Section views.
Variable rooms_df : list Room.
Variable faculty_df : list Faculty.
Variable constraints : Constraints.

(** The loop reads only the section label and the course row of a
    request. *)
Lemma place_one_reads current_slot a b :
  ci_section a = ci_section b →
  ci_course a = ci_course b →
  place_one rooms_df faculty_df constraints current_slot a =
  place_one rooms_df faculty_df constraints current_slot b.
Proof. intros Hs Hc. unfold place_one. by rewrite Hs, Hc. Qed.

Lemma place_reads requests1 : ∀ requests2 current_slot,
  Forall2 (λ a b, ci_section a = ci_section b ∧ ci_course a = ci_course b)
          requests1 requests2 →
  place rooms_df faculty_df constraints current_slot requests1 =
  place rooms_df faculty_df constraints current_slot requests2.
Proof.
  induction requests1 as [|a r1 IH]; intros r2 cs Hall.
  - by apply Forall2_nil_inv_l in Hall as ->.
  - apply Forall2_cons_inv_l in Hall as (b & r2' & [Hs Hc] & Hall & ->).
    rewrite !place_cons, (place_one_reads cs a b Hs Hc).
    destruct (place_one _ _ _ cs b) as [[s n]|]; simpl; [|done].
    by rewrite (IH r2' n Hall).
Qed.

(** The section and the course name of each session are those of its
    request. *)
Lemma place_views requests : ∀ current_slot sessions,
  place rooms_df faculty_df constraints current_slot requests = Ok sessions →
  map (λ s, (s_section s, s_course s, s_program s)) sessions =
  map (λ ci, (ci_section ci, c_name (ci_course ci), c_program (ci_course ci)))
      requests.
Proof.
  induction requests as [|r rest IH]; intros cs sessions Hplace.
  - by injection Hplace as <-.
  - rewrite place_cons in Hplace.
    destruct (place_one _ _ _ cs r) as [[s n]|] eqn:Hone; simpl in Hplace; [|done].
    destruct (place _ _ _ n rest) as [out|] eqn:Hrest; simpl in Hplace; [|done].
    injection Hplace as <-. simpl. rewrite (IH n out Hrest). f_equal.
    destruct (decide (slots_per_day constraints = 0)) as [Hz|Hnz].
    { by rewrite place_one_zero_slots in Hone. }
    rewrite place_one_unfold in Hone by done. simpl in Hone.
    destruct (resolve_room _ _); simpl in Hone; [|done].
    destruct (resolve_faculty _ _); simpl in Hone; [|done].
    destruct (Py.index _ _); simpl in Hone; [|done].
    by injection Hone as <- _.
Qed.

End views.

(** C10. Two selection lists of equal length that agree row by row on
    [course_code] and [section] give the same run, whatever their
    [student_id] and [faculty_id] fields (and whatever the student
    frame): the same result list, or the same exception. *)
Theorem output_ignores_student_and_faculty_ids
    students1 students2 courses_df rooms_df faculty_df constraints
    selections1 selections2 :
  Forall2 (λ a b, sel_course_code a = sel_course_code b ∧
                  sel_section a = sel_section b)
          selections1 selections2 →
  solve_timetable students1 courses_df rooms_df faculty_df constraints
    (Some selections1) =
  solve_timetable students2 courses_df rooms_df faculty_df constraints
    (Some selections2).
Proof.
  intros Hagree. unfold solve_timetable.
  destruct Hagree as [|a b l1 l2 Hab Hrest]; [done|].
  rewrite !scheduled_courses_selections by done.
  apply place_reads.
  assert (Forall2 (λ a b, sel_course_code a = sel_course_code b ∧
                          sel_section a = sel_section b) (a :: l1) (b :: l2))
    as Hall by by constructor.
  clear Hab Hrest. induction Hall as [|x y l l' [Hc Hs] _ IH]; [constructor|].
  simpl. unfold request_of_selection at 1 3. rewrite Hc, Hs.
  destruct (course_map courses_df !! sel_course_code y); simpl; [|done].
  by constructor.
Qed.

Lemma output_ignores_student_and_faculty_ids_witness :
  solve_timetable [] [Examples.course_a; Examples.course_b] [Examples.lab]
    [Examples.dr_x] Examples.grid_2x4
    (Some [mkSelection 1 "A" None None; mkSelection 1 "B" (Some "S") (Some 1)]) =
  solve_timetable [mkStudent 5 "Eve"] [Examples.course_a; Examples.course_b]
    [Examples.lab] [Examples.dr_x] Examples.grid_2x4
    (Some [mkSelection 42 "A" None (Some 7); mkSelection 5 "B" (Some "S") None]).
Proof.
  apply output_ignores_student_and_faculty_ids.
  repeat constructor.
Defined.

(** ** Unknown course codes *)

(** The request list in terms of the catalog index: the selections
    whose code the index lacks yield no request. *)
Lemma unknown_codes_by_index
    students_df courses_df rooms_df faculty_df constraints selections :
  selections ≠ [] →
  let kept := filter (known_code courses_df) selections in
  let k := length (filter (λ sel, ¬ known_code courses_df sel) selections) in
  let run := solve_timetable students_df courses_df rooms_df faculty_df constraints in
  (∀ sessions, run (Some selections) = Ok sessions →
     length sessions = (length selections - k)%nat ∧
     map (λ s, (s_section s, Some (s_course s))) sessions =
     map (λ sel, (default "A" (sel_section sel),
                  c_name <$> course_map courses_df !! sel_course_code sel)) kept) ∧
  (kept ≠ [] → run (Some selections) = run (Some kept)) ∧
  (kept = [] → run (Some selections) = Ok []) ∧
  (0 < slots_per_day constraints → days constraints ≠ [] → rooms_df ≠ [] →
   Forall (λ sel, ∀ course,
             course_map courses_df !! sel_course_code sel = Some course →
             is_ok (resolve_faculty faculty_df course) = true ∧
             0 <= c_duration_slots course) kept →
   ∃ sessions, run (Some selections) = Ok sessions ∧
               length sessions = (length selections - k)%nat).
Proof.
  intros Hne kept k run.
  assert (scheduled_courses courses_df (Some selections) =
          flat_map (request_of_selection (course_map courses_df)) kept) as Hreqs.
  { rewrite scheduled_courses_selections by done. apply requests_filter_known. }
  assert (Forall (known_code courses_df) kept) as Hkept.
  { apply Forall_forall. intros sel Hsel.
    by apply list_elem_of_filter in Hsel as [? _]. }
  pose proof (requests_of_known courses_df kept Hkept) as Hviews.
  assert (length (flat_map (request_of_selection (course_map courses_df)) kept)
          = length kept) as Hlen.
  { rewrite <- (length_map (λ ci, (ci_section ci, Some (ci_course ci)))).
    by rewrite Hviews, length_map. }
  assert (length kept = (length selections - k)%nat) as Hcount.
  { pose proof (filter_known_split courses_df selections). subst kept k. lia. }
  assert (∀ sessions, run (Some selections) = Ok sessions →
     length sessions = (length selections - k)%nat ∧
     map (λ s, (s_section s, Some (s_course s))) sessions =
     map (λ sel, (default "A" (sel_section sel),
                  c_name <$> course_map courses_df !! sel_course_code sel)) kept)
    as Hcard.
  { intros sessions Hrun. unfold run, solve_timetable in Hrun.
    rewrite Hreqs in Hrun. split.
    - rewrite (place_length _ _ _ _ _ _ Hrun). lia.
    - apply place_views in Hrun.
      apply (f_equal (map (λ t, (t.1.1, Some t.1.2)))) in Hrun.
      rewrite !map_map in Hrun. simpl in Hrun. rewrite Hrun.
      apply (f_equal (map (λ t, (t.1, c_name <$> t.2)))) in Hviews.
      rewrite !map_map in Hviews. simpl in Hviews. exact Hviews. }
  split; [exact Hcard|].
  split; [|split].
  - intros Hk. unfold run, solve_timetable. rewrite Hreqs.
    by rewrite scheduled_courses_selections.
  - intros Hk. unfold run, solve_timetable. rewrite Hreqs.
    fold kept. by rewrite Hk.
  - intros Hpos Hdays Hrooms Hres.
    destruct (place_total rooms_df faculty_df constraints
                (flat_map (request_of_selection (course_map courses_df)) kept) 0)
      as [sessions Hrun]; [done|done|lia| |].
    + clear -Hres Hrooms Hkept.
      induction Hkept as [|sel sels [c Hc] _ IH]; [constructor|].
      apply Forall_cons in Hres as [Hsel Hres].
      simpl. rewrite (request_of_known _ sel c Hc). simpl.
      constructor; [|by apply IH]. simpl.
      destruct (Hsel c Hc) as [Hfac Hdur]. repeat split; try done.
      destruct (resolve_room_total rooms_df c Hrooms) as (room & -> & _).
      done.
    + assert (run (Some selections) = Ok sessions) as Hrun'.
      { unfold run, solve_timetable. by rewrite Hreqs. }
      exists sessions. split; [done|]. by apply Hcard.
Qed.

(** C4. With a non-empty selection list, the selections whose code no
    row of the catalog frame carries yield no request and raise
    nothing. So a run that returns has [N - k] sessions, one for each
    selection whose code is in the frame, in their order, each under the
    name of the last catalog row with that code; the run on the full
    list equals the run on the selections with a code of the frame
    alone (same sessions with the same placement, or the same
    exception); when no code is in the frame the result is the empty
    list; and under the engine's resource preconditions the run does
    return. *)
Theorem unknown_codes_dropped
    students_df courses_df rooms_df faculty_df constraints selections :
  selections ≠ [] →
  let kept := filter (in_catalog courses_df) selections in
  let k := length (filter (λ sel, ¬ in_catalog courses_df sel) selections) in
  let row_of sel :=
    last (filter (λ c, c_code c = sel_course_code sel) courses_df) in
  let run := solve_timetable students_df courses_df rooms_df faculty_df constraints in
  (∀ sessions, run (Some selections) = Ok sessions →
     length sessions = (length selections - k)%nat ∧
     map (λ s, (s_section s, Some (s_course s))) sessions =
     map (λ sel, (default "A" (sel_section sel), c_name <$> row_of sel)) kept) ∧
  (kept ≠ [] → run (Some selections) = run (Some kept)) ∧
  (kept = [] → run (Some selections) = Ok []) ∧
  (0 < slots_per_day constraints → days constraints ≠ [] → rooms_df ≠ [] →
   Forall (λ sel, ∀ course,
             row_of sel = Some course →
             is_ok (resolve_faculty faculty_df course) = true ∧
             0 <= c_duration_slots course) kept →
   ∃ sessions, run (Some selections) = Ok sessions ∧
               length sessions = (length selections - k)%nat).
Proof.
  intros Hne kept k row_of run.
  assert (kept = filter (known_code courses_df) selections) as Hkept.
  { apply list_filter_iff. intros sel. symmetry. apply known_code_in_catalog. }
  assert (k = length (filter (λ sel, ¬ known_code courses_df sel) selections))
    as Hk.
  { unfold k. f_equal. apply list_filter_iff. intros sel.
    by rewrite known_code_in_catalog. }
  assert (∀ sel, course_map courses_df !! sel_course_code sel = row_of sel)
    as Hrow by (intros sel; apply course_map_last).
  destruct (unknown_codes_by_index students_df courses_df rooms_df faculty_df
              constraints selections Hne) as (Hcard & Hsame & Hnone & Hruns).
  rewrite <- Hkept, <- Hk in *. fold run in Hcard, Hsame, Hnone, Hruns.
  split; [|split; [exact Hsame|split; [exact Hnone|]]].
  - intros sessions Hrun. destruct (Hcard sessions Hrun) as [Hlen Hviews].
    split; [exact Hlen|]. rewrite Hviews. apply map_ext. intros sel.
    by rewrite Hrow.
  - intros Hpos Hdays Hrooms Hres. apply Hruns; [done|done|done|].
    eapply Forall_impl; [exact Hres|]. intros sel Hsel course Hcourse.
    apply Hsel. by rewrite <- Hrow.
Qed.

Lemma unknown_codes_dropped_witness :
  ∃ sessions,
    solve_timetable [] [Examples.course_a; Examples.course_b] [Examples.lab]
      [Examples.dr_x] Examples.grid_2x4
      (Some [Examples.select 1 "A"; Examples.select 1 "ZZ"; Examples.select 1 "B"])
    = Ok sessions ∧
    map (λ s, (s_section s, Some (s_course s))) sessions
    = [("A", Some "Algorithms"); ("A", Some "Biology")] ∧
    solve_timetable [] [Examples.course_a; Examples.course_b] [Examples.lab]
      [Examples.dr_x] Examples.grid_2x4
      (Some [Examples.select 1 "A"; Examples.select 1 "ZZ"; Examples.select 1 "B"]) =
    solve_timetable [] [Examples.course_a; Examples.course_b] [Examples.lab]
      [Examples.dr_x] Examples.grid_2x4
      (Some [Examples.select 1 "A"; Examples.select 1 "B"]).
Proof.
  destruct (unknown_codes_dropped [] [Examples.course_a; Examples.course_b]
              [Examples.lab] [Examples.dr_x] Examples.grid_2x4
              [Examples.select 1 "A"; Examples.select 1 "ZZ"; Examples.select 1 "B"])
    as (Hcard & Hsame & _).
  - discriminate.
  - eexists. split; [vm_compute; reflexivity|]. split.
    + eapply Hcard. vm_compute. reflexivity.
    + apply Hsame. vm_compute. discriminate.
Defined.

(** The corner where no code is known: the result is empty, while a
    run on an empty selection list schedules the whole catalog. *)
Example all_codes_unknown :
  solve_timetable [] [Examples.course_a] [Examples.lab] [Examples.dr_x]
    Examples.grid_2x4 (Some [Examples.select 1 "ZZ"]) = Ok [] ∧
  is_ok (solve_timetable [] [Examples.course_a] [Examples.lab] [Examples.dr_x]
           Examples.grid_2x4 (Some [])) = true ∧
  solve_timetable [] [Examples.course_a] [Examples.lab] [Examples.dr_x]
    Examples.grid_2x4 (Some []) ≠ Ok [].
Proof. vm_compute. repeat split; discriminate. Qed.

(** ** The two-day, four-slot scenario *)

(** C1, amended. Two days of four slots, a non-empty room frame, a
    non-empty faculty frame in which the first identifier of each
    course's pool (when the pool is not empty) has a row, and two
    selections naming known courses A and B of two slots each: the
    result is exactly two sessions, A on [days[0]] from slot 0 to slot
    1, then B on [days[0]] from slot 3 to the wrapped end slot 0. *)
Theorem two_by_four_scenario
    students_df courses_df rooms_df faculty_df constraints
    sel_a sel_b course_a course_b d0 d1 :
  days constraints = [d0; d1] →
  slots_per_day constraints = 4 →
  rooms_df ≠ [] →
  faculty_df ≠ [] →
  course_map courses_df !! sel_course_code sel_a = Some course_a →
  course_map courses_df !! sel_course_code sel_b = Some course_b →
  c_duration_slots course_a = 2 →
  c_duration_slots course_b = 2 →
  (∀ course, course = course_a ∨ course = course_b →
     ∀ faculty_id pool, c_faculty_pool course = faculty_id :: pool →
       ∃ f, f ∈ faculty_df ∧ f_id f = faculty_id) →
  ∃ session_a session_b,
    solve_timetable students_df courses_df rooms_df faculty_df constraints
      (Some [sel_a; sel_b]) = Ok [session_a; session_b] ∧
    s_course session_a = c_name course_a ∧
    s_day session_a = d0 ∧ s_start session_a = 0 ∧ s_end session_a = 1 ∧
    s_course session_b = c_name course_b ∧
    s_day session_b = d0 ∧ s_start session_b = 3 ∧ s_end session_b = 0.
Proof.
  intros Hdays Hspd Hrooms Hfac Ha Hb Hda Hdb Hpool.
  assert (∀ course, course = course_a ∨ course = course_b →
            ∃ f, resolve_faculty faculty_df course = Ok f) as Hres.
  { intros course Hc. unfold resolve_faculty.
    destruct (c_faculty_pool course) as [|fid pool] eqn:Hp.
    - destruct faculty_df; [done|]. simpl. eauto.
    - destruct (Hpool course Hc fid pool Hp) as (f & Hin & Hid).
      destruct (filter _ faculty_df) as [|f' l] eqn:Hfil; simpl; [|eauto].
      exfalso. eapply (filter_nil_not_elem_of _ _ f); eauto. }
  destruct (Hres course_a) as [fa Hfa]; [by left|].
  destruct (Hres course_b) as [fb Hfb]; [by right|].
  destruct (resolve_room_total rooms_df course_a Hrooms) as (ra & Hra & _).
  destruct (resolve_room_total rooms_df course_b Hrooms) as (rb & Hrb & _).
  unfold solve_timetable.
  rewrite scheduled_courses_selections by done. simpl.
  rewrite (request_of_known _ sel_a course_a Ha).
  rewrite (request_of_known _ sel_b course_b Hb). simpl.
  rewrite !place_one_unfold by (rewrite Hspd; lia). simpl.
  rewrite Hra, Hfa, Hdays, Hspd, Hda. simpl.
  change (Py.index [d0; d1] 0) with (Ok (A:=string) d0). simpl.
  rewrite !place_one_unfold by (rewrite Hspd; lia). simpl.
  rewrite Hrb, Hfb, Hdays, Hspd, Hdb. simpl.
  change (Py.index [d0; d1] 0) with (Ok (A:=string) d0). simpl.
  eexists _, _. split; [reflexivity|]. simpl. repeat split.
Qed.

Lemma two_by_four_scenario_witness :
  ∃ session_a session_b,
    solve_timetable [] [Examples.course_a; Examples.course_d]
      [Examples.hall; Examples.lab] [Examples.dr_x; Examples.dr_y]
      Examples.grid_2x4
      (Some [Examples.select 1 "A"; Examples.select 2 "D"])
      = Ok [session_a; session_b] ∧
    s_day session_a = "Mon" ∧ s_start session_a = 0 ∧ s_end session_a = 1 ∧
    s_faculty session_a = "Dr X" ∧
    s_day session_b = "Mon" ∧ s_start session_b = 3 ∧ s_end session_b = 0 ∧
    s_faculty session_b = "Dr Y".
Proof.
  destruct (two_by_four_scenario [] [Examples.course_a; Examples.course_d]
              [Examples.hall; Examples.lab] [Examples.dr_x; Examples.dr_y]
              Examples.grid_2x4 (Examples.select 1 "A") (Examples.select 2 "D")
              Examples.course_a Examples.course_d "Mon" "Tue")
    as (sa & sb & Hrun & _ & Ha1 & Ha2 & Ha3 & _ & Hb1 & Hb2 & Hb3).
  - reflexivity.
  - reflexivity.
  - discriminate.
  - discriminate.
  - reflexivity.
  - reflexivity.
  - reflexivity.
  - reflexivity.
  - intros course [-> | ->] faculty_id pool Hpool.
    + discriminate Hpool.
    + injection Hpool as <- _. exists Examples.dr_y.
      split; [right; left|reflexivity].
  - exists sa, sb. split; [exact Hrun|].
    vm_compute in Hrun. injection Hrun as <- <-. repeat split; assumption.
Defined.

(** C1 as stated fails: every hypothesis of the claim holds (a room of
    the required type, a non-empty faculty frame, two known courses of
    two slots), but the pool of course A names identifier 9, which has
    no faculty row, and the run raises instead of returning sessions. *)
Lemma two_by_four_stale_pool_raises :
  let courses_df := [Examples.course_stale_pool; Examples.course_b] in
  let rooms_df := [Examples.lab] in
  let faculty_df := [Examples.dr_x] in
  (days Examples.grid_2x4 = ["Mon"; "Tue"] ∧
   slots_per_day Examples.grid_2x4 = 4 ∧
   Examples.lab ∈ rooms_df ∧
   r_type Examples.lab = c_room_type Examples.course_stale_pool ∧
   r_type Examples.lab = c_room_type Examples.course_b ∧
   faculty_df ≠ [] ∧
   course_map courses_df !! "A" = Some Examples.course_stale_pool ∧
   course_map courses_df !! "B" = Some Examples.course_b ∧
   c_duration_slots Examples.course_stale_pool = 2 ∧
   c_duration_slots Examples.course_b = 2) ∧
  solve_timetable [] courses_df rooms_df faculty_df Examples.grid_2x4
    (Some [Examples.select 1 "A"; Examples.select 1 "B"]) = Raise IndexError ∧
  ¬ ∃ session_a session_b,
      solve_timetable [] courses_df rooms_df faculty_df Examples.grid_2x4
        (Some [Examples.select 1 "A"; Examples.select 1 "B"])
      = Ok [session_a; session_b].
Proof.
  intros courses_df rooms_df faculty_df.
  assert (solve_timetable [] courses_df rooms_df faculty_df Examples.grid_2x4
            (Some [Examples.select 1 "A"; Examples.select 1 "B"])
          = Raise IndexError) as Hrun by (vm_compute; reflexivity).
  split; [|split; [exact Hrun|]].
  - repeat split; try reflexivity; try discriminate. left.
  - intros (sa & sb & H). rewrite Hrun in H. discriminate.
Qed.

(** ** Clock-time strings *)

Lemma round_half_even_quarters k r :
  0 <= r < 4 →
  Py.round_half_even (4 * k + r) = 2 * k + (if r =? 3 then 2 else r / 2).
Proof.
  intros Hr. unfold Py.round_half_even.
  assert (Z.even (4 * k + r) = Z.even r) as ->.
  { replace (4 * k + r) with (r + 2 * (2 * k)) by lia. apply Z.even_add_mul_2. }
  assert ((4 * k + r) / 2 = 2 * k + r / 2) as ->.
  { replace (4 * k + r) with (r + (2 * k) * 2) by lia.
    rewrite Z.div_add by lia. lia. }
  assert (r = 0 ∨ r = 1 ∨ r = 2 ∨ r = 3) as [-> | [-> | [-> | ->]]] by lia;
    simpl; rewrite ?Z.even_add, ?Z.even_mul; simpl; try reflexivity.
  change (3 / 2) with 1. lia.
Qed.

(** The emitted string is the specified clock time on every slot that
    is not 3 modulo 4: the whole hours, and the half hours whose hour is
    even. *)
Lemma time_str_agrees s :
  0 <= s → s mod 4 ≠ 3 → time_str s = spec_time_str s.
Proof.
  intros Hs Hm. unfold time_str, spec_time_str, Py.fmt_02_0f_half.
  destruct (Z.ltb_spec (16 + s) 0); [lia|].
  pose proof (Z.div_mod s 4 ltac:(lia)) as Hdiv.
  pose proof (Z.mod_pos_bound s 4 ltac:(lia)) as Hb.
  set (k := s / 4) in *. set (r := s mod 4) in *.
  replace (16 + s) with (4 * (k + 4) + r) by lia.
  rewrite round_half_even_quarters by lia.
  destruct (Z.eqb_spec r 3); [lia|].
  assert (s / 2 = 2 * k + r / 2) as ->.
  { rewrite Hdiv. replace (4 * k + r) with (r + (2 * k) * 2) by lia.
    rewrite Z.div_add by lia. lia. }
  assert (time_minutes s = 30 * (s mod 2)) as ->.
  { unfold time_minutes. rewrite Zmod_even. destruct (Z.even s); lia. }
  f_equal. f_equal. lia.
Qed.

(** On the slots that are 3 modulo 4 the hour is rounded up: the
    emitted string is the specified clock time of the slot one hour
    later. *)
Lemma time_str_one_hour_late s :
  0 <= s → s mod 4 = 3 → time_str s = spec_time_str (s + 2).
Proof.
  intros Hs Hm. unfold time_str, spec_time_str, Py.fmt_02_0f_half.
  destruct (Z.ltb_spec (16 + s) 0); [lia|].
  pose proof (Z.div_mod s 4 ltac:(lia)) as Hdiv.
  set (k := s / 4) in *. rewrite Hm in Hdiv.
  replace (16 + s) with (4 * (k + 4) + 3) by lia.
  rewrite round_half_even_quarters by lia. simpl (3 =? 3).
  assert ((s + 2) / 2 = 2 * k + 2) as ->.
  { rewrite Hdiv. replace (4 * k + 3 + 2) with (1 + (2 * k + 2) * 2) by lia.
    rewrite Z.div_add by lia. change (1 / 2) with 0. lia. }
  assert (time_minutes s = 30 * ((s + 2) mod 2)) as ->.
  { unfold time_minutes. rewrite Zmod_even.
    replace (s + 2) with (s + 2 * 1) by lia. rewrite Z.even_add_mul_2.
    destruct (Z.even s); lia. }
  f_equal. f_equal. lia.
Qed.

Lemma time_str_agrees_witness : time_str 16 = spec_time_str 16.
Proof. apply time_str_agrees; [lia|vm_compute; discriminate]. Defined.

Lemma time_str_one_hour_late_witness : time_str 7 = spec_time_str 9.
Proof. apply (time_str_one_hour_late 7); [lia|reflexivity]. Defined.

(** The slots the specification lists. *)
Example time_str_listed :
  time_str 0 = "08:00" ∧ time_str 1 = "08:30" ∧ time_str 16 = "16:00".
Proof. vm_compute. repeat split. Qed.

(** C2 at slot 3. The hour field prints the float 9.5 with zero
    decimals, which rounds to the even neighbour 10: the engine emits
    [10:30] where 08:00 plus three half hours is [09:30]. The same
    happens on every slot that is 3 modulo 4 (slot 7 gives [12:30]). *)
Theorem time_str_slot_3 :
  time_str 3 = "10:30" ∧ spec_time_str 3 = "09:30" ∧
  time_str 7 = "12:30" ∧ spec_time_str 7 = "11:30" ∧
  ∃ session_a session_b,
    solve_timetable [] [Examples.course_a; Examples.course_b] [Examples.lab]
      [Examples.dr_x] Examples.grid_2x4
      (Some [Examples.select 1 "A"; Examples.select 1 "B"])
      = Ok [session_a; session_b] ∧
    s_start session_b = 3 ∧ s_start_time session_b = "10:30".
Proof.
  repeat split; try (vm_compute; reflexivity).
  eexists _, _. split; [vm_compute; reflexivity|]. split; reflexivity.
Qed.

(** * Properties of the JSON-column helpers *)

Import Json TableUtils.

(** ** The helpers as store transformers *)

Section column_loop.
Variable f : pyval → result pyval.

Lemma parse_json_columns_loop dataframe json_columns :
  parse_json_columns dataframe json_columns =
    (let! df := df_copy dataframe in
     let! _ := for_each (column_pass parse_cell df) json_columns in
     ret df).
Proof. reflexivity. Qed.

Lemma serialize_json_columns_loop dataframe json_columns :
  serialize_json_columns dataframe json_columns =
    (let! df := df_copy dataframe in
     let! _ := for_each (column_pass (λ x, Ok (serialize_cell x)) df) json_columns in
     ret df).
Proof. reflexivity. Qed.

(** One pass of the loop body rewrites the frame at [df] and nothing
    else; when the cell function raises, the store is left as it was. *)
Lemma column_pass_run df col (h : heap) (fr : frame) :
  h !! df = Some fr →
  column_pass f df col h =
    match coerce_column f fr col with
    | Ok fr' => (Ok tt, <[df := fr']> h)
    | Raise e => (Raise e, h)
    end.
Proof.
  intros Hdf.
  unfold column_pass, bind, df_has_column, df_getitem, df_setitem, lift,
    ret, coerce_column.
  rewrite Hdf. destruct (fr !! col) as [cells|] eqn:Hcol.
  - rewrite bool_decide_eq_true_2 by eauto. rewrite Hdf, Hcol.
    destruct (series_apply f cells); simpl; [|done]. by rewrite Hdf.
  - rewrite bool_decide_eq_false_2 by (by intros [? ?]).
    by rewrite insert_id.
Qed.

Lemma for_each_run df json_columns : ∀ (h : heap) (fr : frame),
  h !! df = Some fr →
  ∃ fr_last,
    for_each (column_pass f df) json_columns h =
      (match coerce_frame f fr json_columns with
       | Ok _ => Ok tt
       | Raise e => Raise e
       end, <[df := fr_last]> h) ∧
    ∀ fr', coerce_frame f fr json_columns = Ok fr' → fr_last = fr'.
Proof.
  induction json_columns as [|col rest IH]; intros h fr Hdf.
  - exists fr. split; [|intros fr' Heq; by injection Heq].
    simpl. unfold ret. by rewrite insert_id.
  - simpl. unfold bind at 1. rewrite (column_pass_run df col h fr Hdf).
    destruct (coerce_column f fr col) as [fr1|e]; simpl.
    + destruct (IH (<[df := fr1]> h) fr1) as (fr_last & Hrun & Hlast).
      { apply lookup_insert_eq. }
      exists fr_last. rewrite Hrun, insert_insert_eq. done.
    + exists fr. split; [by rewrite insert_id|done].
Qed.

(** A helper run allocates one frame, at the first free address, and
    changes no other address. *)
Lemma helper_run dataframe json_columns (h : heap) (fr : frame) :
  h !! dataframe = Some fr →
  ∃ fr_last,
    (let! df := df_copy dataframe in
     let! _ := for_each (column_pass f df) json_columns in
     ret df) h =
      (match coerce_frame f fr json_columns with
       | Ok _ => Ok (fresh (dom h))
       | Raise e => Raise e
       end, <[fresh (dom h) := fr_last]> h) ∧
    ∀ fr', coerce_frame f fr json_columns = Ok fr' → fr_last = fr'.
Proof.
  intros Hdf. unfold bind at 1. unfold df_copy. rewrite Hdf.
  destruct (for_each_run (fresh (dom h)) json_columns
              (<[fresh (dom h) := fr]> h) fr) as (fr_last & Hrun & Hlast).
  { apply lookup_insert_eq. }
  exists fr_last. split; [|done].
  unfold bind. rewrite Hrun, insert_insert_eq.
  by destruct (coerce_frame f fr json_columns).
Qed.

(** The columns after the loop: same column names, and the columns that
    are not listed keep their cells. *)
Lemma coerce_column_frame (fr fr' : frame) col :
  coerce_column f fr col = Ok fr' →
  dom fr' = dom fr ∧ ∀ c, c ≠ col → fr' !! c = fr !! c.
Proof.
  unfold coerce_column. destruct (fr !! col) as [cells|] eqn:Hcol.
  - destruct (series_apply f cells) as [cells'|]; simpl; [|done].
    intros [= <-]. split.
    + apply dom_insert_lookup_L. eauto.
    + intros c Hc. by rewrite lookup_insert_ne.
  - by intros [= <-].
Qed.

Lemma coerce_frame_frame json_columns : ∀ (fr fr' : frame),
  coerce_frame f fr json_columns = Ok fr' →
  dom fr' = dom fr ∧ ∀ c, c ∉ json_columns → fr' !! c = fr !! c.
Proof.
  induction json_columns as [|col rest IH]; intros fr fr' Hrun.
  - by injection Hrun as <-.
  - simpl in Hrun.
    destruct (coerce_column f fr col) as [fr1|] eqn:Hcol; simpl in Hrun; [|done].
    apply coerce_column_frame in Hcol as [Hdom1 Hother1].
    apply IH in Hrun as [Hdom Hother].
    split; [congruence|].
    intros c Hc. apply not_elem_of_cons in Hc as [Hne Hc].
    rewrite Hother by done. by apply Hother1.
Qed.

End column_loop.

Lemma helper_frame_effect (f : pyval → result pyval)
    dataframe json_columns (h : heap) (fr : frame) :
  h !! dataframe = Some fr →
  frame_effect h fr json_columns
    ((let! df := df_copy dataframe in
      let! _ := for_each (column_pass f df) json_columns in
      ret df) h).
Proof.
  intros Hdf.
  destruct (helper_run f dataframe json_columns h fr Hdf)
    as (fr_last & -> & Hlast).
  assert (h !! fresh (dom h) = None) as Hfresh.
  { apply not_elem_of_dom, is_fresh. }
  split; simpl.
  - intros l fr0 Hl. rewrite lookup_insert_ne; [done|]. congruence.
  - intros df Hres.
    destruct (coerce_frame f fr json_columns) as [fr'|] eqn:Hrun; [|done].
    injection Hres as <-. split; [done|].
    rewrite (Hlast fr' eq_refl). exists fr'.
    split; [apply lookup_insert_eq|].
    by apply coerce_frame_frame in Hrun.
Qed.

Lemma series_apply_total (g : pyval → pyval) cells :
  series_apply (λ x, Ok (g x)) cells = Ok (map g cells).
Proof. induction cells as [|x xs IH]; [done|]. simpl. by rewrite IH. Qed.

Lemma coerce_frame_total (g : pyval → pyval) json_columns : ∀ fr : frame,
  ∃ fr' : frame, coerce_frame (λ x, Ok (g x)) fr json_columns = Ok fr'.
Proof.
  induction json_columns as [|col rest IH]; intros fr; [by exists fr|].
  simpl. unfold coerce_column.
  destruct (fr !! col) as [cells|]; simpl; [|apply IH].
  rewrite series_apply_total. simpl. apply IH.
Qed.

(** ** Frame property *)

(** C8. Neither helper changes a frame that exists when it is called:
    the input frame has the same cells before and after the call, also
    when decoding raises. The frame a helper returns is a new object
    with the columns of the input, and outside the listed JSON columns
    its cells are those of the input; a listed column that the frame
    does not have is not created. Serialization always returns. *)
Theorem helpers_do_not_mutate_input
    (h : heap) (fr : frame) dataframe json_columns :
  h !! dataframe = Some fr →
  frame_effect h fr json_columns (parse_json_columns dataframe json_columns h) ∧
  frame_effect h fr json_columns (serialize_json_columns dataframe json_columns h) ∧
  ∃ df h', serialize_json_columns dataframe json_columns h = (Ok df, h').
Proof.
  intros Hdf.
  split; [|split].
  - rewrite parse_json_columns_loop. by apply helper_frame_effect.
  - rewrite serialize_json_columns_loop. by apply helper_frame_effect.
  - rewrite serialize_json_columns_loop.
    destruct (helper_run (λ x, Ok (serialize_cell x)) dataframe json_columns h fr Hdf)
      as (fr_last & -> & _).
    destruct (coerce_frame_total serialize_cell json_columns fr) as [fr' ->].
    eauto.
Qed.

Lemma helpers_do_not_mutate_input_witness :
  frame_effect Examples.store Examples.people ["skills"]
    (parse_json_columns 1%positive ["skills"] Examples.store) ∧
  frame_effect Examples.store Examples.people ["skills"]
    (serialize_json_columns 1%positive ["skills"] Examples.store).
Proof.
  destruct (helpers_do_not_mutate_input Examples.store Examples.people
              1%positive ["skills"]) as (Hparse & Hser & _).
  - reflexivity.
  - split; assumption.
Defined.

(** ** The codec: decoding an encoded value *)

(** *** Strings *)

Lemma scanstring_escape c rest :
  scanstring (escape_char c ++ rest) =
    let* r := scanstring rest in Ok (String c (fst r), snd r).
Proof.
  destruct c as [b0 b1 b2 b3 b4 b5 b6 b7].
  destruct b0, b1, b2, b3, b4, b5, b6, b7; reflexivity.
Qed.

Lemma scanstring_encode s rest :
  scanstring (flat_map escape_char (chars s) ++ dquote :: rest) = Ok (s, rest).
Proof.
  induction s as [|c s IH]; [done|].
  change (chars (String c s)) with (c :: chars s). simpl flat_map.
  rewrite <- app_assoc, scanstring_escape, IH. done.
Qed.

Lemma encode_str_app s rest :
  encode_str s ++ rest = dquote :: flat_map escape_char (chars s) ++ dquote :: rest.
Proof. unfold encode_str. simpl. by rewrite <- app_assoc. Qed.

(** *** Numbers *)

Lemma unorm_head_zero x y : unorm x = D0 y → y = Nil.
Proof.
  induction x; simpl; intros H; try discriminate; auto.
  by injection H.
Qed.

Lemma to_uint_fixed p : unorm (Pos.to_uint p) = Pos.to_uint p.
Proof.
  rewrite <- (DecimalPos.Unsigned.to_of (Pos.to_uint p)).
  rewrite DecimalPos.Unsigned.of_to. reflexivity.
Qed.

Lemma to_uint_head p :
  match Pos.to_uint p with Nil | D0 _ => False | _ => True end.
Proof.
  pose proof (to_uint_fixed p) as Hfix.
  pose proof (Unsigned.to_uint_nonzero p) as Hnz.
  pose proof (Unsigned.to_uint_nonnil p) as Hnn.
  destruct (Pos.to_uint p) as [|u| | | | | | | | |]; try done.
  apply unorm_head_zero in Hfix as ->. by apply Hnz.
Qed.

Lemma not_digit_uint_digit c : is_digit c = false → uint_digit c = None.
Proof.
  destruct c as [b0 b1 b2 b3 b4 b5 b6 b7].
  destruct b0, b1, b2, b3, b4, b5, b6, b7; (reflexivity || discriminate).
Qed.

Lemma read_uint_print u rest :
  starts_with_digit rest = false →
  read_uint (chars (NilEmpty.string_of_uint u) ++ rest) = (u, rest).
Proof.
  intros Hrest. induction u; simpl; rewrite ?IHu; try done.
  destruct rest as [|c r]; [done|]. simpl in *.
  by rewrite not_digit_uint_digit.
Qed.

Lemma delimited_stop rest :
  delimited rest → starts_with_digit rest = false ∧ float_follows rest = false.
Proof.
  destruct rest as [|c r]; [done|]. simpl.
  intros [-> | [-> | ->]]; done.
Qed.

Lemma parse_digits_print u rest :
  match u with Nil | D0 _ => False | _ => True end →
  delimited rest →
  parse_number (chars (NilEmpty.string_of_uint u) ++ rest) = Ok (Z.of_uint u, rest) ∧
  parse_number ("-"%char :: chars (NilEmpty.string_of_uint u) ++ rest)
    = Ok (- Z.of_uint u, rest).
Proof.
  intros Hu Hrest.
  destruct (delimited_stop rest Hrest) as [Hdig Hfloat].
  pose proof (read_uint_print u rest Hdig) as Hread.
  destruct u; try done;
    unfold parse_number;
    simpl NilEmpty.string_of_uint in *; simpl chars in *; simpl app in *;
    cbn [tail Ascii.eqb Bool.eqb is_digit N_of_ascii N_of_digits andb orb];
    simpl; rewrite (read_uint_print u rest Hdig); simpl; rewrite Hfloat; done.
Qed.

Lemma parse_number_encode n rest :
  delimited rest → parse_number (encode_int n ++ rest) = Ok (n, rest).
Proof.
  intros Hrest. destruct n as [|p|p].
  - destruct (delimited_stop rest Hrest) as [_ Hfloat].
    change (encode_int 0) with ["0"%char]. unfold parse_number. simpl.
    by rewrite Hfloat.
  - pose proof (to_uint_head p) as Hhead.
    destruct (parse_digits_print (Pos.to_uint p) rest Hhead Hrest) as [Hpos _].
    unfold encode_int. simpl Z.to_int. simpl NilZero.string_of_int.
    replace (NilZero.string_of_uint (Pos.to_uint p))
      with (NilEmpty.string_of_uint (Pos.to_uint p))
      by (by destruct (Pos.to_uint p)).
    rewrite Hpos. do 2 f_equal. exact (DecimalZ.of_to (Z.pos p)).
  - pose proof (to_uint_head p) as Hhead.
    destruct (parse_digits_print (Pos.to_uint p) rest Hhead Hrest) as [_ Hneg].
    unfold encode_int. simpl Z.to_int. simpl NilZero.string_of_int.
    replace (NilZero.string_of_uint (Pos.to_uint p))
      with (NilEmpty.string_of_uint (Pos.to_uint p))
      by (by destruct (Pos.to_uint p)).
    change (chars (String "-" ?s)) with ("-"%char :: chars s).
    simpl app. rewrite Hneg. do 2 f_equal.
    exact (DecimalZ.of_to (Z.neg p)).
Qed.


(** *** Unfolding equations of the decoder *)

Lemma parse_value_S fuel s :
  parse_value (S fuel) s =
    match s with
    | [] => Raise JSONDecodeError
    | c :: s1 =>
        if (c =? dquote)%char then
          let* r := scanstring s1 in Ok (PStr (fst r), snd r)
        else if (c =? "{")%char then
          match skip_ws s1 with
          | c2 :: s2 =>
              if (c2 =? "}")%char then Ok (PDict [], s2)
              else
                let* r := parse_members fuel (c2 :: s2) in
                Ok (PDict (py_dict (fst r)), snd r)
          | [] => Raise JSONDecodeError
          end
        else if (c =? "[")%char then
          match skip_ws s1 with
          | c2 :: s2 =>
              if (c2 =? "]")%char then Ok (PList [], s2)
              else
                let* r := parse_elements fuel (c2 :: s2) in
                Ok (PList (fst r), snd r)
          | [] => Raise JSONDecodeError
          end
        else
          match strip_prefix (chars "null") s,
                strip_prefix (chars "true") s,
                strip_prefix (chars "false") s with
          | Some rest, _, _ => Ok (PNone, rest)
          | None, Some rest, _ => Ok (PBool true, rest)
          | None, None, Some rest => Ok (PBool false, rest)
          | None, None, None =>
              match parse_number s with
              | Ok r => Ok (PInt (fst r), snd r)
              | Raise OutsideModel => Raise OutsideModel
              | Raise e =>
                  if has_prefix (chars "NaN") s
                     || has_prefix (chars "Infinity") s
                     || has_prefix (chars "-Infinity") s
                  then Raise OutsideModel
                  else Raise e
              end
          end
    end.
Proof. reflexivity. Qed.

Lemma parse_elements_S fuel s :
  parse_elements (S fuel) s =
    let* r := parse_value fuel s in
    match skip_ws (snd r) with
    | c :: s1 =>
        if (c =? "]")%char then Ok ([fst r], s1)
        else if (c =? ",")%char then
          let* rs := parse_elements fuel (skip_ws s1) in
          Ok (fst r :: fst rs, snd rs)
        else Raise JSONDecodeError
    | [] => Raise JSONDecodeError
    end.
Proof. reflexivity. Qed.

Lemma parse_members_S fuel s :
  parse_members (S fuel) s =
    match s with
    | c :: s1 =>
        if (c =? dquote)%char then
          let* k := scanstring s1 in
          match skip_ws (snd k) with
          | c2 :: s2 =>
              if (c2 =? ":")%char then
                let* r := parse_value fuel (skip_ws s2) in
                match skip_ws (snd r) with
                | c3 :: s3 =>
                    if (c3 =? "}")%char then Ok ([(fst k, fst r)], s3)
                    else if (c3 =? ",")%char then
                      let* rs := parse_members fuel (skip_ws s3) in
                      Ok ((fst k, fst r) :: fst rs, snd rs)
                    else Raise JSONDecodeError
                | [] => Raise JSONDecodeError
                end
              else Raise JSONDecodeError
          | [] => Raise JSONDecodeError
          end
        else Raise JSONDecodeError
    | [] => Raise JSONDecodeError
    end.
Proof. reflexivity. Qed.

(** *** The first character of an encoded value *)

Lemma encode_int_head n :
  ∃ c tl, encode_int n = c :: tl ∧ (is_digit c || (c =? "-")%char = true).
Proof.
  destruct n as [|p|p].
  - by exists "0"%char, [].
  - unfold encode_int. simpl Z.to_int. simpl NilZero.string_of_int.
    pose proof (to_uint_head p).
    destruct (Pos.to_uint p); try done; simpl; eauto.
  - unfold encode_int. simpl Z.to_int. simpl NilZero.string_of_int.
    change (chars (String "-" ?s)) with ("-"%char :: chars s). eauto.
Qed.

Lemma encode_head v : ∃ c tl, encode v = c :: tl ∧ value_start c = true.
Proof.
  destruct v as [|[]|n|s|l|d]; simpl; try (eexists _, _; split; [reflexivity|done]).
  destruct (encode_int_head n) as (c & tl & -> & Hc).
  exists c, tl. split; [done|]. unfold value_start. by rewrite Hc.
Qed.

Lemma value_start_not_ws c :
  value_start c = true →
  is_ws c = false ∧ (c =? "]")%char = false ∧ (c =? "}")%char = false.
Proof.
  destruct c as [b0 b1 b2 b3 b4 b5 b6 b7].
  destruct b0, b1, b2, b3, b4, b5, b6, b7; (discriminate || done).
Qed.

Lemma int_start_dispatch c :
  is_digit c || (c =? "-")%char = true →
  (c =? dquote)%char = false ∧ (c =? "{")%char = false ∧
  (c =? "[")%char = false ∧ ("n" =? c)%char = false ∧
  ("t" =? c)%char = false ∧ ("f" =? c)%char = false.
Proof.
  destruct c as [b0 b1 b2 b3 b4 b5 b6 b7].
  destruct b0, b1, b2, b3, b4, b5, b6, b7; (discriminate || done).
Qed.

Lemma skip_ws_encode v rest : skip_ws (encode v ++ rest) = encode v ++ rest.
Proof.
  destruct (encode_head v) as (c & tl & -> & Hc).
  apply value_start_not_ws in Hc as (Hws & _). simpl. by rewrite Hws.
Qed.

Lemma parse_value_int fuel n rest :
  delimited rest →
  parse_value (S fuel) (encode_int n ++ rest) = Ok (PInt n, rest).
Proof.
  intros Hrest. rewrite parse_value_S.
  pose proof (parse_number_encode n rest Hrest) as Hnum.
  destruct (encode_int_head n) as (c & tl & Heq & Hc).
  rewrite Heq in *. simpl app in *.
  apply int_start_dispatch in Hc as (-> & -> & -> & Hn & Ht & Hf).
  cbn [strip_prefix chars list_ascii_of_string]. rewrite Hn, Ht, Hf, Hnum. done.
Qed.

(** *** Dicts *)

Lemma dict_set_fresh k v (d : list (string * pyval)) :
  k ∉ map fst d → dict_set k v d = d ++ [(k, v)].
Proof.
  induction d as [|[k' v'] d IH]; intros Hk; [done|].
  simpl in *. apply not_elem_of_cons in Hk as [Hne Hk].
  apply String.eqb_neq in Hne. rewrite Hne. by rewrite IH.
Qed.

Lemma py_dict_foldl pairs : ∀ acc : list (string * pyval),
  NoDup (map fst (acc ++ pairs)) →
  foldl (λ d kv, dict_set (fst kv) (snd kv) d) acc pairs = acc ++ pairs.
Proof.
  induction pairs as [|[k v] pairs IH]; intros acc Hnd.
  - by rewrite app_nil_r.
  - simpl. rewrite dict_set_fresh.
    + rewrite IH; rewrite <- app_assoc; done.
    + rewrite map_app in Hnd. apply NoDup_app in Hnd as (_ & Hdisj & _).
      intros Hin. apply (Hdisj k Hin). simpl. left.
Qed.

Lemma py_dict_unique pairs : NoDup (map fst pairs) → py_dict pairs = pairs.
Proof. intros Hnd. unfold py_dict. by rewrite py_dict_foldl. Qed.

(** *** Lists of elements and of members *)

Lemma skip_ws_join x xs rest :
  skip_ws (join_comma (map encode (x :: xs)) ++ rest)
  = join_comma (map encode (x :: xs)) ++ rest.
Proof.
  destruct xs as [|y ys].
  - apply skip_ws_encode.
  - change (join_comma (map encode (x :: y :: ys)))
      with (encode x ++ chars ", " ++ join_comma (map encode (y :: ys))).
    rewrite <- app_assoc. apply skip_ws_encode.
Qed.

Lemma parse_elements_encode l :
  Forall decodes l →
  forallb unique_keys l = true →
  l ≠ [] →
  ∀ fuel rest,
    (list_sum (map (λ x, S (need x)) l) ≤ fuel)%nat →
    parse_elements fuel (join_comma (map encode l) ++ "]"%char :: rest)
    = Ok (l, rest).
Proof.
  induction 1 as [|x xs Hx Hxs IH]; intros Hkeys Hne fuel rest Hfuel; [done|].
  simpl in Hkeys. apply andb_prop in Hkeys as [Hkx Hkxs].
  simpl in Hfuel. destruct fuel as [|fuel]; [lia|].
  rewrite parse_elements_S.
  destruct xs as [|y ys].
  - simpl join_comma. rewrite (Hx Hkx) by (simpl; try lia; auto). simpl.
    done.
  - change (join_comma (map encode (x :: y :: ys)))
      with (encode x ++ chars ", " ++ join_comma (map encode (y :: ys))).
    rewrite <- !app_assoc.
    rewrite (Hx Hkx) by (simpl in *; try lia; auto).
    cbn [rbind fst snd chars list_ascii_of_string app skip_ws is_ws
         Ascii.eqb Bool.eqb orb andb].
    rewrite skip_ws_join.
    rewrite IH by (simpl in *; try lia; done). done.
Qed.

Lemma skip_ws_members kv kvs rest :
  skip_ws (join_comma (map encode_member (kv :: kvs)) ++ rest)
  = join_comma (map encode_member (kv :: kvs)) ++ rest.
Proof.
  destruct kvs as [|kv' kvs']; simpl; done.
Qed.

Lemma parse_members_encode (d : list (string * pyval)) :
  Forall (λ kv, decodes (snd kv)) d →
  forallb (λ kv, unique_keys (snd kv)) d = true →
  d ≠ [] →
  ∀ fuel rest,
    (list_sum (map (λ kv, S (need (snd kv))) d) ≤ fuel)%nat →
    parse_members fuel (join_comma (map encode_member d) ++ "}"%char :: rest)
    = Ok (d, rest).
Proof.
  induction 1 as [|[k v] kvs Hv Hkvs IH]; intros Hkeys Hne fuel rest Hfuel; [done|].
  simpl in Hkeys. apply andb_prop in Hkeys as [Hkv Hkkvs].
  simpl in Hfuel, Hv. destruct fuel as [|fuel]; [lia|].
  rewrite parse_members_S.
  destruct kvs as [|kv' kvs'].
  - simpl join_comma. unfold encode_member. simpl fst. simpl snd.
    rewrite <- !app_assoc, encode_str_app.
    cbn [Ascii.eqb Bool.eqb dquote]. simpl (_ =? _)%char. cbv iota.
    rewrite scanstring_encode.
    cbn [rbind fst snd chars list_ascii_of_string app skip_ws is_ws
         Ascii.eqb Bool.eqb orb andb].
    rewrite skip_ws_encode.
    rewrite (Hv Hkv) by (simpl; try lia; auto).
    done.
  - change (join_comma (map encode_member ((k, v) :: kv' :: kvs')))
      with (encode_member (k, v) ++ chars ", "
            ++ join_comma (map encode_member (kv' :: kvs'))).
    unfold encode_member at 1. simpl fst. simpl snd.
    rewrite <- !app_assoc, encode_str_app.
    simpl (_ =? _)%char. cbv iota.
    rewrite <- ?app_assoc, scanstring_encode.
    cbn [rbind fst snd chars list_ascii_of_string app skip_ws is_ws
         Ascii.eqb Bool.eqb orb andb].
    rewrite skip_ws_encode.
    rewrite (Hv Hkv) by (simpl in *; try lia; auto).
    cbn [rbind fst snd chars list_ascii_of_string app skip_ws is_ws
         Ascii.eqb Bool.eqb orb andb].
    rewrite skip_ws_members.
    rewrite IH by (simpl in *; try lia; done). done.
Qed.

(** *** Values *)

Lemma parse_value_encode v : decodes v.
Proof.
  induction v as [|b|n|s|l IH|d IH] using pyval_nested_ind;
    intros Hkeys fuel rest Hfuel Hrest;
    (destruct fuel as [|fuel]; [simpl in Hfuel; lia|]).
  - done.
  - by destruct b.
  - by apply parse_value_int.
  - simpl encode. rewrite encode_str_app, parse_value_S.
    simpl (_ =? _)%char. cbv iota. by rewrite scanstring_encode.
  - simpl encode. rewrite parse_value_S.
    cbn [chars list_ascii_of_string app]. simpl (_ =? _)%char. cbv iota.
    rewrite <- app_assoc.
    destruct l as [|x xs]; [done|].
    rewrite skip_ws_join.
    destruct (encode_head x) as (c & tl & Hc & Hstart).
    apply value_start_not_ws in Hstart as (_ & Hclose & _).
    pose proof (parse_elements_encode (x :: xs) IH Hkeys ltac:(done) fuel rest) as Hel.
    simpl in Hfuel. specialize (Hel ltac:(simpl; lia)).
    revert Hel.
    assert (∃ tl', join_comma (map encode (x :: xs)) ++ chars "]" ++ rest
                   = c :: tl') as [tl' Htl].
    { destruct xs; simpl; rewrite Hc; simpl; eauto. }
    cbn [chars list_ascii_of_string app] in Htl |- *.
    rewrite Htl, Hclose. by intros ->.
  - simpl encode. rewrite parse_value_S.
    cbn [chars list_ascii_of_string app]. simpl (_ =? _)%char. cbv iota.
    rewrite <- app_assoc.
    simpl in Hkeys. apply andb_prop in Hkeys as [Hnd Hkeys].
    apply bool_decide_eq_true in Hnd.
    destruct d as [|kv kvs]; [done|].
    change (map (λ kv, encode_str kv.1 ++ chars ": " ++ encode kv.2) (kv :: kvs))
      with (map encode_member (kv :: kvs)).
    rewrite skip_ws_members.
    pose proof (parse_members_encode (kv :: kvs) IH Hkeys ltac:(done) fuel rest) as Hel.
    simpl in Hfuel. specialize (Hel ltac:(simpl; lia)).
    revert Hel.
    assert (∃ tl', join_comma (map encode_member (kv :: kvs)) ++ chars "}" ++ rest
                   = dquote :: tl') as [tl' Htl].
    { destruct kvs; simpl; eauto. }
    cbn [chars list_ascii_of_string app] in Htl |- *.
    rewrite Htl. simpl (_ =? _)%char. cbv iota. intros ->.
    simpl. by rewrite py_dict_unique.
Qed.

(** *** Enough fuel *)

Lemma join_comma_need (l : list pyval) :
  Forall (λ v, (need v ≤ 2 * length (encode v))%nat) l →
  (list_sum (map (λ x, S (need x)) l)
   ≤ 2 * length (join_comma (map encode l)) + 1)%nat.
Proof.
  induction 1 as [|x xs Hx Hxs IH]; [simpl; lia|].
  destruct xs as [|y ys].
  - simpl in *. lia.
  - set (t := y :: ys) in *.
    assert (join_comma (map encode (x :: t))
            = encode x ++ chars ", " ++ join_comma (map encode t)) as -> by done.
    rewrite !length_app. change (length (chars ", ")) with 2%nat.
    change (list_sum (map (λ x, S (need x)) (x :: t)))
      with (S (need x) + list_sum (map (λ x, S (need x)) t))%nat.
    lia.
Qed.

Lemma members_need (d : list (string * pyval)) :
  Forall (λ kv, (need (snd kv) ≤ 2 * length (encode (snd kv)))%nat) d →
  (list_sum (map (λ kv, S (need (snd kv))) d)
   ≤ 2 * length (join_comma (map encode_member d)) + 1)%nat.
Proof.
  induction 1 as [|x xs Hx Hxs IH]; [simpl; lia|].
  destruct xs as [|y ys].
  - simpl in *. unfold encode_member. rewrite !length_app. simpl. lia.
  - set (t := y :: ys) in *.
    assert (join_comma (map encode_member (x :: t))
            = encode_member x ++ chars ", " ++ join_comma (map encode_member t))
      as -> by done.
    clearbody t.
    rewrite !length_app. change (length (chars ", ")) with 2%nat.
    change (list_sum (map (λ kv, S (need (snd kv))) (x :: t)))
      with (S (need (snd x)) + list_sum (map (λ kv, S (need (snd kv))) t))%nat.
    unfold encode_member at 1. rewrite !length_app. simpl. lia.
Qed.

Lemma need_le_length v : (need v ≤ 2 * length (encode v))%nat.
Proof.
  induction v as [|b|n|s|l IH|d IH] using pyval_nested_ind.
  - simpl. lia.
  - destruct b; simpl; lia.
  - destruct (encode_int_head n) as (c & tl & Heq & _).
    simpl. rewrite Heq. simpl. lia.
  - simpl. lia.
  - pose proof (join_comma_need l IH). simpl. rewrite length_app. simpl. lia.
  - pose proof (members_need d IH).
    change (encode (PDict d))
      with (chars "{" ++ join_comma (map encode_member d) ++ chars "}").
    change (need (PDict d)) with (S (list_sum (map (λ kv, S (need kv.2)) d))).
    rewrite !length_app.
    change (length (chars "{")) with 1%nat.
    change (length (chars "}")) with 1%nat. lia.
Qed.

(** [json.loads(json.dumps(v)) == v] *)
Lemma loads_dumps v : unique_keys v = true → loads (dumps v) = Ok v.
Proof.
  intros Hkeys. unfold loads, dumps, chars.
  rewrite list_ascii_of_string_of_list_ascii.
  rewrite <- (app_nil_r (encode v)) at 2.
  rewrite skip_ws_encode, app_nil_r.
  rewrite <- (app_nil_r (encode v)) at 2.
  rewrite (parse_value_encode v Hkeys); [done| |done].
  pose proof (need_le_length v). lia.
Qed.

(** *** The decoder always has enough fuel *)

Lemma skip_ws_length s : (length (skip_ws s) ≤ length s)%nat.
Proof.
  induction s as [|c s IH]; [done|]. simpl.
  destruct (is_ws c); simpl; lia.
Qed.

Lemma strip_prefix_length p : ∀ s rest,
  strip_prefix p s = Some rest → (length rest + length p = length s)%nat.
Proof.
  induction p as [|a p IH]; intros [|b s] rest; simpl; try done.
  - by intros [= <-].
  - by intros [= <-].
  - destruct (a =? b)%char; [|done]. intros H. apply IH in H. lia.
Qed.

Lemma scanstring_shrinks n : ∀ s,
  (length s ≤ n)%nat →
  match scanstring s with
  | Ok r => (length r.2 < length s)%nat
  | Raise e => e ≠ RecursionError
  end.
Proof.
  induction n as [|n IH]; intros [|c s1] Hn; simpl in *; try done; try lia.
  destruct (c =? dquote)%char; [simpl; lia|].
  destruct (c =? backslash)%char.
  - destruct s1 as [|e s2]; [done|].
    destruct (e =? "u")%char.
    + destruct s2 as [|h1 [|h2 [|h3 [|h4 s3]]]]; try done.
      destruct (hex4 h1 h2 h3 h4) as [cp|]; [|done].
      destruct (cp <? 256)%N; [|done].
      specialize (IH s3 ltac:(simpl in *; lia)).
      destruct (scanstring s3); simpl in *; [lia|done].
    + destruct (unescape e); [|done].
      specialize (IH s2 ltac:(simpl in *; lia)).
      destruct (scanstring s2); simpl in *; [lia|done].
  - destruct (N_of_ascii c <? 32)%N; [done|].
    specialize (IH s1 ltac:(lia)).
    destruct (scanstring s1); simpl in *; [lia|done].
Qed.

Lemma read_uint_length s : (length (read_uint s).2 ≤ length s)%nat.
Proof.
  induction s as [|c s IH]; [done|]. simpl.
  destruct (uint_digit c); simpl; lia.
Qed.

Lemma digit_uint_digit c : is_digit c = true → uint_digit c ≠ None.
Proof.
  destruct c as [b0 b1 b2 b3 b4 b5 b6 b7].
  destruct b0, b1, b2, b3, b4, b5, b6, b7; (discriminate || done).
Qed.

Lemma parse_number_shrinks s :
  match parse_number s with
  | Ok r => (length r.2 < length s)%nat
  | Raise e => e ≠ RecursionError
  end.
Proof.
  unfold parse_number.
  destruct s as [|c s]; [done|].
  destruct (c =? "-")%char.
  - simpl tail. destruct s as [|c1 s1]; [done|].
    destruct (is_digit c1); [|done].
    destruct (c1 =? "0")%char.
    + simpl. destruct (float_follows s1); simpl; [done|lia].
    + pose proof (read_uint_length (c1 :: s1)).
      destruct (float_follows _); [done|]. simpl length in *. lia.
  - destruct (is_digit c) eqn:Hc; [|done].
    destruct (c =? "0")%char.
    + simpl. destruct (float_follows s); simpl; [done|lia].
    + pose proof (read_uint_length s) as Hlen.
      apply digit_uint_digit in Hc.
      change (read_uint (c :: s))
        with (match uint_digit c with
              | Some D => let r := read_uint s in (D r.1, r.2)
              | None => (Nil, c :: s)
              end).
      destruct (uint_digit c); [|done].
      destruct (float_follows _); simpl in *; [done|lia].
Qed.

Lemma decoder_shrinks fuel :
  (∀ s, shrinks (parse_value fuel s) s) ∧
  (∀ s, shrinks (parse_elements fuel s) s) ∧
  (∀ s, shrinks (parse_members fuel s) s).
Proof.
  induction fuel as [|fuel (IHv & IHe & IHm)]; [done|].
  split; [|split]; intros s.
  - rewrite parse_value_S. destruct s as [|c s1]; [done|].
    destruct (c =? dquote)%char.
    { pose proof (scanstring_shrinks _ s1 (Nat.le_refl _)).
      destruct (scanstring s1); simpl in *; [lia|done]. }
    destruct (c =? "{")%char.
    { pose proof (skip_ws_length s1).
      destruct (skip_ws s1) as [|c2 s2]; [done|].
      destruct (c2 =? "}")%char; [simpl in *; lia|].
      specialize (IHm (c2 :: s2)).
      destruct (parse_members fuel (c2 :: s2)); simpl in *; [lia|done]. }
    destruct (c =? "[")%char.
    { pose proof (skip_ws_length s1).
      destruct (skip_ws s1) as [|c2 s2]; [done|].
      destruct (c2 =? "]")%char; [simpl in *; lia|].
      specialize (IHe (c2 :: s2)).
      destruct (parse_elements fuel (c2 :: s2)); simpl in *; [lia|done]. }
    destruct (strip_prefix (chars "null") (c :: s1)) as [r|] eqn:H1.
    { apply strip_prefix_length in H1. simpl in *. lia. }
    destruct (strip_prefix (chars "true") (c :: s1)) as [r|] eqn:H2.
    { apply strip_prefix_length in H2. simpl in *. lia. }
    destruct (strip_prefix (chars "false") (c :: s1)) as [r|] eqn:H3.
    { apply strip_prefix_length in H3. simpl in *. lia. }
    pose proof (parse_number_shrinks (c :: s1)).
    destruct (parse_number (c :: s1)) as [r|e]; [done|].
    destruct e; try done; by destruct (_ || _).
  - rewrite parse_elements_S.
    specialize (IHv s).
    destruct (parse_value fuel s) as [r|]; [|done]. simpl in *.
    pose proof (skip_ws_length r.2).
    destruct (skip_ws r.2) as [|c s1]; [done|].
    destruct (c =? "]")%char; [simpl in *; lia|].
    destruct (c =? ",")%char; [|done].
    specialize (IHe (skip_ws s1)). pose proof (skip_ws_length s1).
    destruct (parse_elements fuel (skip_ws s1)); simpl in *; [lia|done].
  - rewrite parse_members_S. destruct s as [|c s1]; [done|].
    destruct (c =? dquote)%char; [|done].
    pose proof (scanstring_shrinks _ s1 (Nat.le_refl _)).
    destruct (scanstring s1) as [k|]; [|done]. simpl in *.
    pose proof (skip_ws_length k.2).
    destruct (skip_ws k.2) as [|c2 s2]; [done|].
    destruct (c2 =? ":")%char; [|done].
    specialize (IHv (skip_ws s2)). pose proof (skip_ws_length s2).
    destruct (parse_value fuel (skip_ws s2)) as [r|]; [|done]. simpl in *.
    pose proof (skip_ws_length r.2).
    destruct (skip_ws r.2) as [|c3 s3]; [done|].
    destruct (c3 =? "}")%char; [simpl in *; lia|].
    destruct (c3 =? ",")%char; [|done].
    specialize (IHm (skip_ws s3)). pose proof (skip_ws_length s3).
    destruct (parse_members fuel (skip_ws s3)); simpl in *; [lia|done].
Qed.

Lemma decoder_fuel fuel :
  (∀ s, (2 * length s + 1 ≤ fuel)%nat →
        parse_value fuel s ≠ Raise RecursionError) ∧
  (∀ s, (2 * length s + 2 ≤ fuel)%nat →
        parse_elements fuel s ≠ Raise RecursionError) ∧
  (∀ s, (2 * length s + 1 ≤ fuel)%nat →
        parse_members fuel s ≠ Raise RecursionError).
Proof.
  induction fuel as [|fuel (IHv & IHe & IHm)].
  { repeat split; intros s Hs; lia. }
  destruct (decoder_shrinks fuel) as (Sv & Se & Sm).
  split; [|split]; intros s Hfuel.
  - rewrite parse_value_S. destruct s as [|c s1]; [done|].
    destruct (c =? dquote)%char.
    { pose proof (scanstring_shrinks _ s1 (Nat.le_refl _)).
      destruct (scanstring s1); simpl in *; [done|congruence]. }
    destruct (c =? "{")%char.
    { pose proof (skip_ws_length s1).
      destruct (skip_ws s1) as [|c2 s2]; [done|].
      destruct (c2 =? "}")%char; [done|].
      specialize (IHm (c2 :: s2) ltac:(simpl in *; lia)).
      destruct (parse_members fuel (c2 :: s2)); simpl in *; [done|congruence]. }
    destruct (c =? "[")%char.
    { pose proof (skip_ws_length s1).
      destruct (skip_ws s1) as [|c2 s2]; [done|].
      destruct (c2 =? "]")%char; [done|].
      specialize (IHe (c2 :: s2) ltac:(simpl in *; lia)).
      destruct (parse_elements fuel (c2 :: s2)); simpl in *; [done|congruence]. }
    destruct (strip_prefix (chars "null") (c :: s1)); [done|].
    destruct (strip_prefix (chars "true") (c :: s1)); [done|].
    destruct (strip_prefix (chars "false") (c :: s1)); [done|].
    pose proof (parse_number_shrinks (c :: s1)).
    destruct (parse_number (c :: s1)) as [r|e]; [done|].
    destruct e; try done; by destruct (_ || _).
  - rewrite parse_elements_S.
    specialize (IHv s ltac:(lia)). specialize (Sv s).
    destruct (parse_value fuel s) as [r|]; [|simpl; congruence]. simpl in *.
    pose proof (skip_ws_length r.2).
    destruct (skip_ws r.2) as [|c s1]; [done|].
    destruct (c =? "]")%char; [done|].
    destruct (c =? ",")%char; [|done].
    pose proof (skip_ws_length s1).
    specialize (IHe (skip_ws s1) ltac:(simpl in *; lia)).
    destruct (parse_elements fuel (skip_ws s1)); simpl in *; [done|congruence].
  - rewrite parse_members_S. destruct s as [|c s1]; [done|].
    destruct (c =? dquote)%char; [|done].
    pose proof (scanstring_shrinks _ s1 (Nat.le_refl _)).
    destruct (scanstring s1) as [k|]; [|simpl; congruence]. simpl in *.
    pose proof (skip_ws_length k.2).
    destruct (skip_ws k.2) as [|c2 s2]; [done|].
    destruct (c2 =? ":")%char; [|done].
    pose proof (skip_ws_length s2).
    specialize (IHv (skip_ws s2) ltac:(simpl in *; lia)). specialize (Sv (skip_ws s2)).
    destruct (parse_value fuel (skip_ws s2)) as [r|]; [|simpl; congruence]. simpl in *.
    pose proof (skip_ws_length r.2).
    destruct (skip_ws r.2) as [|c3 s3]; [done|].
    destruct (c3 =? "}")%char; [done|].
    destruct (c3 =? ",")%char; [|done].
    pose proof (skip_ws_length s3).
    specialize (IHm (skip_ws s3) ltac:(simpl in *; lia)).
    destruct (parse_members fuel (skip_ws s3)); simpl in *; [done|congruence].
Qed.

(** [loads] never runs out of fuel: its exceptions are those of the
    decoder. *)
Lemma loads_fuel text : loads text ≠ Raise RecursionError.
Proof.
  unfold loads.
  destruct (decoder_fuel (2 * length (chars text) + 2)) as (Hv & _ & _).
  pose proof (skip_ws_length (chars text)).
  specialize (Hv (skip_ws (chars text)) ltac:(lia)).
  destruct (parse_value _ _) as [r|]; simpl; [|congruence].
  by destruct (skip_ws r.2).
Qed.

(** ** Cells *)

Lemma dumps_list_prefix l : String.prefix "[" (dumps (PList l)) = true.
Proof. unfold dumps. simpl. by destruct (string_of_list_ascii _). Qed.

Lemma dumps_dict_prefix d : String.prefix "[" (dumps (PDict d)) = false.
Proof. reflexivity. Qed.

(** A text that starts with the list-open character decodes to a list
    or not at all. *)
Lemma loads_list_text s v :
  String.prefix "[" s = true → loads s = Ok v → ∃ l, v = PList l.
Proof.
  destruct s as [|c s]; [done|].
  change (String.prefix "[" (String c s))
    with (if ascii_dec "[" c then String.prefix "" s else false).
  destruct (ascii_dec "[" c) as [<-|]; [|done]. intros _.
  unfold loads. change (chars (String "[" s)) with ("["%char :: chars s).
  change (skip_ws ("["%char :: chars s)) with ("["%char :: chars s).
  replace (2 * length ("["%char :: chars s) + 2)%nat
    with (S (2 * length (chars s) + 3))%nat by (simpl; lia).
  rewrite parse_value_S. simpl (_ =? _)%char. cbv iota.
  destruct (skip_ws (chars s)) as [|c2 s2]; [done|].
  destruct (c2 =? "]")%char.
  - simpl. destruct (skip_ws s2); [|done]. intros [= <-]. eauto.
  - destruct (parse_elements _ _) as [r|]; simpl; [|done].
    destruct (skip_ws r.2); [|done]. intros [= <-]. eauto.
Qed.

(** A decoded cell is left alone by a second decoding. *)
Lemma parse_cell_stable x y : parse_cell x = Ok y → parse_cell y = Ok y.
Proof.
  destruct x as [| | |s| |]; simpl; try (by intros [= <-]).
  destruct (String.prefix "[" s) eqn:Hp.
  - intros Hl. by destruct (loads_list_text s y Hp Hl) as [l ->].
  - intros [= <-]. simpl. by rewrite Hp.
Qed.

(** ** Collections *)

Section stable_columns.
Variable f : pyval → result pyval.
Hypothesis f_stable : ∀ x y, f x = Ok y → f y = Ok y.

Lemma series_apply_stable cells : ∀ cells',
  series_apply f cells = Ok cells' → series_apply f cells' = Ok cells'.
Proof.
  induction cells as [|x xs IH]; intros cells' Hrun.
  - by injection Hrun as <-.
  - simpl in Hrun. destruct (f x) as [y|] eqn:Hy; simpl in Hrun; [|done].
    destruct (series_apply f xs) as [ys|]; simpl in Hrun; [|done].
    injection Hrun as <-. simpl.
    by rewrite (f_stable x y Hy), (IH ys eq_refl).
Qed.

Lemma coerce_column_settles (fr fr' : frame) col :
  coerce_column f fr col = Ok fr' →
  settled f fr' col ∧ ∀ c, settled f fr c → settled f fr' c.
Proof.
  unfold coerce_column, settled.
  destruct (fr !! col) as [cells|] eqn:Hcol.
  - destruct (series_apply f cells) as [cells'|] eqn:Hrun; simpl; [|done].
    intros [= <-]. apply series_apply_stable in Hrun. split.
    + intros cs. rewrite lookup_insert_eq. by intros [= <-].
    + intros c Hc cs. destruct (decide (col = c)) as [->|Hne].
      * rewrite lookup_insert_eq. by intros [= <-].
      * rewrite lookup_insert_ne by done. apply Hc.
  - intros [= <-]. split; [|done]. intros cs. by rewrite Hcol.
Qed.

Lemma coerce_frame_settles json_columns : ∀ (fr fr' : frame),
  coerce_frame f fr json_columns = Ok fr' →
  (∀ c, c ∈ json_columns → settled f fr' c) ∧ (∀ c, settled f fr c → settled f fr' c).
Proof.
  induction json_columns as [|col rest IH]; intros fr fr' Hrun.
  - injection Hrun as <-. split; [|done]. intros c Hc. by apply elem_of_nil in Hc.
  - simpl in Hrun.
    destruct (coerce_column f fr col) as [fr1|] eqn:Hcol; simpl in Hrun; [|done].
    apply coerce_column_settles in Hcol as [Hcol Hkeep1].
    apply IH in Hrun as [Hrest Hkeep].
    split; [|by auto].
    intros c Hc. apply elem_of_cons in Hc as [->|Hc]; auto.
Qed.

Lemma coerce_frame_settled json_columns (fr : frame) :
  (∀ c, c ∈ json_columns → settled f fr c) →
  coerce_frame f fr json_columns = Ok fr.
Proof.
  induction json_columns as [|col rest IH]; intros Hall; [done|].
  simpl. unfold coerce_column.
  destruct (fr !! col) as [cells|] eqn:Hcol; simpl.
  - rewrite (Hall col ltac:(left) cells Hcol). simpl.
    rewrite insert_id by done. apply IH. intros c Hc. apply Hall. by right.
  - apply IH. intros c Hc. apply Hall. by right.
Qed.

(** Running the loop on its own result changes nothing. *)
Lemma coerce_frame_idempotent json_columns (fr fr' : frame) :
  coerce_frame f fr json_columns = Ok fr' →
  coerce_frame f fr' json_columns = Ok fr'.
Proof.
  intros Hrun. apply coerce_frame_settled.
  by apply coerce_frame_settles in Hrun as [Hall _].
Qed.

End stable_columns.

Lemma parse_json_columns_idempotent
    (h h1 : heap) (fr : frame) dataframe json_columns df :
  h !! dataframe = Some fr →
  parse_json_columns dataframe json_columns h = (Ok df, h1) →
  ∃ df2 h2,
    parse_json_columns df json_columns h1 = (Ok df2, h2) ∧
    h2 !! df2 = h1 !! df.
Proof.
  intros Hdf Hrun. rewrite parse_json_columns_loop in Hrun.
  destruct (helper_run parse_cell dataframe json_columns h fr Hdf)
    as (fr_last & Hrun1 & Hlast).
  rewrite Hrun1 in Hrun.
  destruct (coerce_frame parse_cell fr json_columns) as [fr'|] eqn:Hco; [|done].
  injection Hrun as <- <-. rewrite (Hlast fr' eq_refl).
  assert ((<[fresh (dom h) := fr']> h : heap) !! fresh (dom h) = Some fr') as Hdf1.
  { apply lookup_insert_eq. }
  destruct (helper_run parse_cell (fresh (dom h)) json_columns _ fr' Hdf1)
    as (fr_last2 & Hrun2 & Hlast2).
  rewrite (coerce_frame_idempotent parse_cell parse_cell_stable _ _ _ Hco) in *.
  rewrite parse_json_columns_loop, Hrun2.
  eexists _, _. split; [reflexivity|].
  rewrite (Hlast2 fr' eq_refl), Hdf1. apply lookup_insert_eq.
Qed.

(** ** Round trip *)




(** * Further properties of the scheduling engine *)

(** ** Slots and days along the pass *)

Lemma slots_from_mod spd a b durations :
  a mod spd = b mod spd →
  Placement.slots_from spd a durations = Placement.slots_from spd b durations.
Proof. intros H. destruct durations; simpl; [done|]. by rewrite H. Qed.

Lemma place_slots rooms_df faculty_df constraints requests :
  ∀ current_slot sessions,
  slots_per_day constraints ≠ 0 →
  place rooms_df faculty_df constraints current_slot requests = Ok sessions →
  map (λ s, (s_start s, s_end s)) sessions =
  Placement.slots_from (slots_per_day constraints) current_slot
    (map (λ ci, c_duration_slots (ci_course ci)) requests).
Proof.
  induction requests as [|r rest IH]; intros cs sessions Hspd Hplace.
  - by injection Hplace as <-.
  - rewrite place_cons in Hplace.
    rewrite place_one_unfold in Hplace by done. simpl in Hplace.
    destruct (resolve_room _ _); simpl in Hplace; [|done].
    destruct (resolve_faculty _ _); simpl in Hplace; [|done].
    destruct (Py.index _ _); simpl in Hplace; [|done].
    destruct (place _ _ _ _ rest) as [out|] eqn:Hrest; simpl in Hplace; [|done].
    injection Hplace as <-. simpl. rewrite (IH _ _ Hspd Hrest).
    set (spd := slots_per_day constraints) in *.
    set (d := c_duration_slots (ci_course r)).
    destruct (_ <=? _).
    + f_equal. apply slots_from_mod. f_equal. lia.
    + f_equal.
      * f_equal. rewrite <- (Z.add_sub_assoc cs), <- (Z.add_sub_assoc (cs mod spd)).
        by rewrite Zplus_mod_idemp_l.
      * apply slots_from_mod.
        replace (cs mod spd + d + 1) with (cs mod spd + (d + 1)) by lia.
        by rewrite Zplus_mod_idemp_l.
Qed.

(** X1. The start and end slots of a run do not depend on the list of
    days: the first session starts at slot 0, each later one at the
    previous start plus the previous duration plus one, modulo
    [slots_per_day], whether or not the day index overflowed in between;
    and every end slot is start plus duration minus one, modulo
    [slots_per_day]. *)
Theorem slots_follow_recurrence
    students_df courses_df rooms_df faculty_df constraints selections_df sessions :
  slots_per_day constraints ≠ 0 →
  solve_timetable students_df courses_df rooms_df faculty_df constraints
    selections_df = Ok sessions →
  map (λ s, (s_start s, s_end s)) sessions =
  Placement.slots_from (slots_per_day constraints) 0
    (map (λ ci, c_duration_slots (ci_course ci))
         (scheduled_courses courses_df selections_df)).
Proof. intros Hspd Hrun. by apply place_slots in Hrun. Qed.

Lemma slots_follow_recurrence_witness :
  ∃ sessions,
    solve_timetable [] [Examples.course_a; Examples.course_b] [Examples.lab]
      [Examples.dr_x] Examples.grid_2x4
      (Some [Examples.select 1 "A"; Examples.select 1 "B";
             Examples.select 2 "B"; Examples.select 3 "B"]) = Ok sessions ∧
    map (λ s, (s_start s, s_end s)) sessions = [(0, 1); (3, 0); (2, 3); (1, 2)].
Proof.
  eexists. split; [vm_compute; reflexivity|].
  apply (slots_follow_recurrence [] [Examples.course_a; Examples.course_b]
           [Examples.lab] [Examples.dr_x] Examples.grid_2x4
           (Some [Examples.select 1 "A"; Examples.select 1 "B";
                  Examples.select 2 "B"; Examples.select 3 "B"])).
  - simpl. lia.
  - vm_compute. reflexivity.
Defined.

Lemma place_days rooms_df faculty_df constraints requests :
  ∀ current_slot sessions,
  0 < slots_per_day constraints →
  Forall (λ a, 0 <= a ∧
               a / slots_per_day constraints < Z.of_nat (length (days constraints)))
         (Placement.counters current_slot
            (map (λ ci, c_duration_slots (ci_course ci)) requests)) →
  place rooms_df faculty_df constraints current_slot requests = Ok sessions →
  Forall2 (λ a s, days constraints !! Z.to_nat (a / slots_per_day constraints)
                    = Some (s_day s) ∧
                  s_start s = a mod slots_per_day constraints)
          (Placement.counters current_slot
             (map (λ ci, c_duration_slots (ci_course ci)) requests))
          sessions.
Proof.
  induction requests as [|r rest IH]; intros cs sessions Hspd Hgrid Hplace.
  - injection Hplace as <-. constructor.
  - simpl in Hgrid. apply Forall_cons in Hgrid as [[Hcs Hday] Hgrid].
    rewrite place_cons in Hplace.
    rewrite place_one_unfold in Hplace by lia. simpl in Hplace.
    destruct (resolve_room _ _); simpl in Hplace; [|done].
    destruct (resolve_faculty _ _); simpl in Hplace; [|done].
    destruct (Z.leb_spec (Z.of_nat (length (days constraints)))
                (cs / slots_per_day constraints)) as [?|_]; [lia|].
    assert (0 <= cs / slots_per_day constraints) by (apply Z.div_pos; lia).
    destruct (index_in_range (days constraints) (cs / slots_per_day constraints))
      as (d & Hidx & Hd); [lia|].
    rewrite Hidx in Hplace. simpl in Hplace.
    destruct (place _ _ _ _ rest) as [out|] eqn:Hrest; simpl in Hplace; [|done].
    injection Hplace as <-. simpl. constructor; [done|].
    by apply IH.
Qed.

(** X2. While the running counter stays on the grid, nothing is reset:
    the k-th session sits at the absolute slot that is the sum of the
    earlier durations plus one gap slot each, on the day whose index is
    that slot divided by [slots_per_day]. *)
Theorem days_follow_counter
    students_df courses_df rooms_df faculty_df constraints selections_df sessions :
  0 < slots_per_day constraints →
  Forall (λ a, 0 <= a ∧
               a / slots_per_day constraints < Z.of_nat (length (days constraints)))
         (Placement.counters 0
            (map (λ ci, c_duration_slots (ci_course ci))
                 (scheduled_courses courses_df selections_df))) →
  solve_timetable students_df courses_df rooms_df faculty_df constraints
    selections_df = Ok sessions →
  Forall2 (λ a s, days constraints !! Z.to_nat (a / slots_per_day constraints)
                    = Some (s_day s) ∧
                  s_start s = a mod slots_per_day constraints)
          (Placement.counters 0
             (map (λ ci, c_duration_slots (ci_course ci))
                  (scheduled_courses courses_df selections_df)))
          sessions.
Proof. intros Hspd Hgrid Hrun. by apply place_days in Hrun. Qed.

Lemma days_follow_counter_witness :
  ∃ sessions,
    solve_timetable [] [Examples.course_a; Examples.course_b] [Examples.lab]
      [Examples.dr_x] Examples.grid_2x4
      (Some [Examples.select 1 "A"; Examples.select 1 "B";
             Examples.select 2 "B"]) = Ok sessions ∧
    Forall2 (λ a s, ["Mon"; "Tue"] !! Z.to_nat (a / 4) = Some (s_day s) ∧
                    s_start s = a mod 4)
            [0; 3; 6] sessions.
Proof.
  eexists. split; [vm_compute; reflexivity|].
  apply (days_follow_counter [] [Examples.course_a; Examples.course_b]
           [Examples.lab] [Examples.dr_x] Examples.grid_2x4
           (Some [Examples.select 1 "A"; Examples.select 1 "B";
                  Examples.select 2 "B"])).
  - simpl. lia.
  - repeat constructor; by vm_compute.
  - vm_compute. reflexivity.
Defined.

(** ** The catalog and the request list *)

Lemma scheduled_courses_catalog courses_df selections_df :
  Forall (λ ci, ci_course ci ∈ courses_df)
         (scheduled_courses courses_df selections_df).
Proof.
  unfold scheduled_courses. destruct (has_selections selections_df).
  - induction (default [] selections_df) as [|sel sels IH]; [constructor|].
    simpl. apply Forall_app. split; [|done].
    unfold request_of_selection.
    destruct (course_map courses_df !! _) as [c|] eqn:Hc; [|constructor].
    apply course_map_elem_of in Hc as [Hin _]. by repeat constructor.
  - apply Forall_forall. intros ci Hci.
    apply list_elem_of_fmap in Hci as (c & -> & Hc). done.
Qed.

(** X3. A selection is served by the last catalog row that carries its
    code: when several rows share a code, the earlier ones are never
    scheduled from a selection, and a code that no row carries yields no
    request. *)
Theorem duplicate_code_last_row_wins courses_df selections :
  selections ≠ [] →
  map ci_course (scheduled_courses courses_df (Some selections)) =
  omap (λ sel, last (filter (λ c, c_code c = sel_course_code sel) courses_df))
       selections.
Proof.
  intros Hne. rewrite scheduled_courses_selections by done. clear Hne.
  induction selections as [|sel sels IH]; [done|].
  simpl. rewrite map_app, IH. unfold request_of_selection.
  rewrite course_map_last.
  by destruct (last (filter _ courses_df)).
Qed.

Lemma duplicate_code_last_row_wins_witness :
  map ci_course
    (scheduled_courses [Examples.course_a; Examples.course_b; Examples.course_stale_pool]
       (Some [Examples.select 1 "A"; Examples.select 1 "ZZ"]))
  = [Examples.course_stale_pool].
Proof.
  rewrite duplicate_code_last_row_wins by discriminate. reflexivity.
Defined.

(** X4. With no selection frame, or an empty one, every catalog row is
    scheduled once, in row order, under its own section, name and
    program, also when rows share a code; and the run returns when the
    grid is proper, the room frame is not empty, every row finds its
    faculty and no duration is negative. *)
Theorem catalog_mode students_df courses_df rooms_df faculty_df constraints :
  let run := solve_timetable students_df courses_df rooms_df faculty_df constraints in
  run None = run (Some []) ∧
  (∀ sessions, run None = Ok sessions →
     map (λ s, (s_section s, s_course s, s_program s)) sessions =
     map (λ c, (c_section c, c_name c, c_program c)) courses_df) ∧
  (0 < slots_per_day constraints → days constraints ≠ [] → rooms_df ≠ [] →
   Forall (λ c, is_ok (resolve_faculty faculty_df c) = true ∧
                0 <= c_duration_slots c) courses_df →
   ∃ sessions, run None = Ok sessions ∧ length sessions = length courses_df).
Proof.
  intros run. split; [done|]. split.
  - intros sessions Hrun. apply place_views in Hrun. rewrite Hrun.
    unfold scheduled_courses. simpl. by rewrite map_map.
  - intros Hspd Hdays Hrooms Hres.
    destruct (place_total rooms_df faculty_df constraints
                (map request_of_course courses_df) 0) as [sessions Hrun];
      [done|done|lia| |].
    + apply Forall_fmap. eapply Forall_impl; [exact Hres|].
      intros c [Hfac Hdur]. simpl. repeat split; try done.
      by destruct (resolve_room_total rooms_df c Hrooms) as (room & -> & _).
    + exists sessions. split; [done|].
      apply place_length in Hrun. by rewrite Hrun, length_map.
Qed.

Lemma catalog_mode_witness :
  ∃ sessions,
    solve_timetable [] [Examples.course_a; Examples.course_b; Examples.course_b]
      [Examples.lab] [Examples.dr_x] Examples.grid_2x4 None = Ok sessions ∧
    length sessions = 3%nat.
Proof.
  destruct (catalog_mode [] [Examples.course_a; Examples.course_b; Examples.course_b]
              [Examples.lab] [Examples.dr_x] Examples.grid_2x4) as (_ & _ & Hrun).
  destruct Hrun as (sessions & Hrun & Hlen).
  - simpl. lia.
  - discriminate.
  - discriminate.
  - repeat constructor; simpl; lia.
  - exists sessions. split; [exact Hrun|exact Hlen].
Defined.

(** ** Degenerate grids *)

(** X5. A run without any accepted request returns the empty list,
    whatever the grid and the frames are. With at least one accepted
    request, zero slots per day raise [ZeroDivisionError] before any
    lookup, and an empty list of days makes the run raise: [IndexError]
    when the faculty frame has a row (on an empty faculty frame the
    exception of the program depends on whether the frame has its
    columns, which a list of rows does not tell). *)
Theorem degenerate_grid
    students_df courses_df rooms_df faculty_df constraints selections_df :
  let run := solve_timetable students_df courses_df rooms_df faculty_df
               constraints selections_df in
  let requests := scheduled_courses courses_df selections_df in
  (requests = [] → run = Ok []) ∧
  (requests ≠ [] → slots_per_day constraints = 0 → run = Raise ZeroDivisionError) ∧
  (requests ≠ [] → slots_per_day constraints ≠ 0 → days constraints = [] →
   (∃ e, run = Raise e) ∧ (faculty_df ≠ [] → run = Raise IndexError)).
Proof.
  intros run requests. subst run. unfold solve_timetable. fold requests.
  split; [by intros ->|]. split.
  - intros Hne Hz. destruct requests as [|r rest]; [done|].
    by rewrite place_cons, place_one_zero_slots.
  - intros Hne Hnz Hdays. destruct requests as [|r rest]; [done|].
    assert (∀ i, Py.index (@nil string) i = Raise IndexError) as Hidx.
    { intros i. unfold Py.index. simpl length.
      destruct (_ && _) eqn:H; [|done].
      apply andb_prop in H as [H1 H2].
      apply Z.leb_le in H1. apply Z.ltb_lt in H2. simpl in *. lia. }
    assert (∀ course, resolve_room rooms_df course = Raise IndexError ∨
                      ∃ room, resolve_room rooms_df course = Ok room) as Hroom.
    { intros course. rewrite resolve_room_filter.
      destruct (filter _ rooms_df); [|eauto]. destruct rooms_df; simpl; eauto. }
    assert (∀ course, resolve_faculty faculty_df course = Raise IndexError ∨
                      ∃ f, resolve_faculty faculty_df course = Ok f) as Hfac.
    { intros course. unfold resolve_faculty.
      destruct (c_faculty_pool course); [destruct faculty_df; simpl; eauto|].
      destruct (filter _ faculty_df); simpl; eauto. }
    assert (place rooms_df faculty_df constraints 0 (r :: rest) = Raise IndexError)
      as ->; [|by eauto].
    rewrite place_cons, place_one_unfold by done. cbv zeta.
    rewrite Hdays, Hidx.
    destruct (Hroom (ci_course r)) as [-> | [room ->]]; [done|]. simpl.
    by destruct (Hfac (ci_course r)) as [-> | [f ->]].
Qed.

Lemma degenerate_grid_witness :
  solve_timetable [] [Examples.course_a] [Examples.lab] [Examples.dr_x]
    (mkConstraints ["Mon"] 0) (Some [Examples.select 1 "A"])
  = Raise ZeroDivisionError ∧
  solve_timetable [] [Examples.course_a] [Examples.lab] [Examples.dr_x]
    (mkConstraints [] 4) (Some [Examples.select 1 "A"])
  = Raise IndexError ∧
  solve_timetable [] [Examples.course_a] [] []
    (mkConstraints [] 0) (Some [Examples.select 1 "ZZ"]) = Ok [].
Proof.
  split; [|split].
  - apply (degenerate_grid [] [Examples.course_a] [Examples.lab] [Examples.dr_x]
             (mkConstraints ["Mon"] 0) (Some [Examples.select 1 "A"]));
      [vm_compute; discriminate|reflexivity].
  - apply (degenerate_grid [] [Examples.course_a] [Examples.lab] [Examples.dr_x]
             (mkConstraints [] 4) (Some [Examples.select 1 "A"]));
      [vm_compute; discriminate|simpl; lia|reflexivity|discriminate].
  - apply (degenerate_grid [] [Examples.course_a] [] []
             (mkConstraints [] 0) (Some [Examples.select 1 "ZZ"])).
    reflexivity.
Defined.

(** ** The sample frames *)

Lemma place_resources rooms_df faculty_df constraints requests :
  ∀ current_slot sessions,
  place rooms_df faculty_df constraints current_slot requests = Ok sessions →
  Forall2 (λ ci s, ∃ room faculty,
             resolve_room rooms_df (ci_course ci) = Ok room ∧
             resolve_faculty faculty_df (ci_course ci) = Ok faculty ∧
             s_room s = r_name room ∧ s_faculty s = f_name faculty ∧
             s_course s = c_name (ci_course ci))
          requests sessions.
Proof.
  induction requests as [|r rest IH]; intros cs sessions Hplace.
  - injection Hplace as <-. constructor.
  - rewrite place_cons in Hplace.
    destruct (place_one _ _ _ cs r) as [[s n]|] eqn:Hone; simpl in Hplace; [|done].
    destruct (place _ _ _ n rest) as [out|] eqn:Hrest; simpl in Hplace; [|done].
    injection Hplace as <-. constructor; [|by eapply IH].
    destruct (decide (slots_per_day constraints = 0)) as [Hz|Hnz].
    { by rewrite place_one_zero_slots in Hone. }
    rewrite place_one_unfold in Hone by done. simpl in Hone.
    destruct (resolve_room _ _) as [room|]; simpl in Hone; [|done].
    destruct (resolve_faculty _ _) as [fac|]; simpl in Hone; [|done].
    destruct (Py.index _ _); simpl in Hone; [|done].
    injection Hone as <- _. exists room, fac. done.
Qed.

Lemma resolve_room_elem_of rooms_df course room :
  resolve_room rooms_df course = Ok room → room ∈ rooms_df.
Proof.
  rewrite resolve_room_filter.
  destruct (filter _ rooms_df) as [|r l] eqn:Hf.
  - destruct rooms_df; [done|]. intros [= <-]. left.
  - intros [= <-].
    assert (r ∈ filter (λ r, r_type r = c_room_type course) rooms_df) as Hin
      by (rewrite Hf; left).
    by apply list_elem_of_filter in Hin as [_ ?].
Qed.

Lemma resolve_faculty_elem_of faculty_df course faculty :
  resolve_faculty faculty_df course = Ok faculty → faculty ∈ faculty_df.
Proof.
  unfold resolve_faculty. destruct (c_faculty_pool course) as [|fid pool].
  - destruct faculty_df; [done|]. intros [= <-]. left.
  - destruct (filter _ faculty_df) as [|f l] eqn:Hf; [done|]. intros [= <-].
    assert (f ∈ filter (λ f, f_id f = fid) faculty_df) as Hin by (rewrite Hf; left).
    by apply list_elem_of_filter in Hin as [_ ?].
Qed.

Lemma well_resourced_schedules
    students_df courses_df rooms_df faculty_df constraints selections_df :
  forallb (Sample.well_resourced rooms_df faculty_df) courses_df = true →
  0 < slots_per_day constraints →
  days constraints ≠ [] →
  ∃ sessions,
    solve_timetable students_df courses_df rooms_df faculty_df constraints
      selections_df = Ok sessions ∧
    Forall (λ s, ∃ course room faculty,
              course ∈ courses_df ∧ room ∈ rooms_df ∧ faculty ∈ faculty_df ∧
              s_course s = c_name course ∧
              s_room s = r_name room ∧ r_type room = c_room_type course ∧
              s_faculty s = f_name faculty ∧
              head (c_faculty_pool course) = Some (f_id faculty))
           sessions.
Proof.
  intros Hall Hspd Hdays.
  rewrite forallb_forall in Hall.
  pose proof (scheduled_courses_catalog courses_df selections_df) as Hcat.
  unfold solve_timetable.
  set (requests := scheduled_courses courses_df selections_df) in *.
  assert (∀ ci, ci ∈ requests →
            Sample.well_resourced rooms_df faculty_df (ci_course ci) = true)
    as Hreq.
  { intros ci Hci. apply Hall, list_elem_of_In.
    by apply (proj1 (Forall_forall _ _) Hcat). }
  destruct (place_total rooms_df faculty_df constraints requests 0)
    as [sessions Hrun]; [done|done|lia| |].
  { apply Forall_forall. intros ci Hci. specialize (Hreq ci Hci).
    unfold Sample.well_resourced in Hreq.
    destruct (resolve_room _ _); [|done]. destruct (resolve_faculty _ _); [|done].
    apply andb_prop in Hreq as [_ Hdur]. apply Z.leb_le in Hdur. done. }
  exists sessions. split; [exact Hrun|].
  apply place_resources in Hrun.
  apply Forall_forall. intros s Hs.
  apply list_elem_of_lookup in Hs as [i Hs].
  destruct (Forall2_lookup_r _ _ _ _ _ Hrun Hs)
    as (ci & Hci & room & fac & Hroom & Hfac & Hr & Hf & Hc).
  assert (ci ∈ requests) as Hin by (by eapply list_elem_of_lookup_2).
  specialize (Hreq ci Hin). unfold Sample.well_resourced in Hreq.
  rewrite Hroom, Hfac in Hreq.
  apply andb_prop in Hreq as [Hreq _]. apply andb_prop in Hreq as [Htype Hpool].
  apply bool_decide_eq_true in Htype. apply bool_decide_eq_true in Hpool.
  exists (ci_course ci), room, fac.
  split; [exact (proj1 (Forall_forall _ _) Hcat ci Hin)|].
  split; [exact (resolve_room_elem_of _ _ _ Hroom)|].
  split; [exact (resolve_faculty_elem_of _ _ _ Hfac)|].
  split; [exact Hc|]. split; [exact Hr|]. split; [exact Htype|].
  split; [exact Hf|exact Hpool].
Qed.

(** X6. On the sample frames the engine never lacks a resource: for
    every selection frame (or none) and every grid with positive
    [slots_per_day] and at least one day, the run returns, and each
    session is in a room of the type its course requires (never the
    fallback room) with the first faculty of the course's pool. *)
Theorem sample_frames_always_schedule students_df constraints selections_df :
  0 < slots_per_day constraints →
  days constraints ≠ [] →
  ∃ sessions,
    solve_timetable students_df Sample.courses_df Sample.rooms_df
      Sample.faculty_df constraints selections_df = Ok sessions ∧
    Forall (λ s, ∃ course room faculty,
              course ∈ Sample.courses_df ∧ room ∈ Sample.rooms_df ∧
              faculty ∈ Sample.faculty_df ∧
              s_course s = c_name course ∧
              s_room s = r_name room ∧ r_type room = c_room_type course ∧
              s_faculty s = f_name faculty ∧
              head (c_faculty_pool course) = Some (f_id faculty))
           sessions.
Proof.
  apply well_resourced_schedules. vm_compute. reflexivity.
Qed.

Lemma sample_frames_always_schedule_witness :
  ∃ sessions,
    solve_timetable Sample.students_df Sample.courses_df Sample.rooms_df
      Sample.faculty_df (mkConstraints ["Mon"; "Tue"; "Wed"; "Thu"; "Fri"] 16)
      (Some [Examples.select 1 "CS301"; Examples.select 2 "PHYS101"])
    = Ok sessions.
Proof.
  destruct (sample_frames_always_schedule Sample.students_df
              (mkConstraints ["Mon"; "Tue"; "Wed"; "Thu"; "Fri"] 16)
              (Some [Examples.select 1 "CS301"; Examples.select 2 "PHYS101"]))
    as (sessions & Hrun & _).
  - simpl. lia.
  - discriminate.
  - exists sessions. exact Hrun.
Defined.

(** ** Sessions of one day do not overlap *)

Lemma demand_nonneg durations :
  Forall (λ d, 1 <= d) durations → 0 <= Placement.demand durations.
Proof. induction 1; simpl; lia. Qed.

Lemma spans_lookup durations : ∀ current i a e,
  Forall (λ d, 1 <= d) durations →
  Placement.spans current durations !! i = Some (a, e) →
  current <= a ∧ a <= e ∧ e + 2 <= current + Placement.demand durations.
Proof.
  induction durations as [|d ds IH]; intros cs i a e Hd Hi; [done|].
  apply Forall_cons in Hd as [Hd Hds]. pose proof (demand_nonneg ds Hds).
  destruct i as [|i]; simpl in *.
  - injection Hi as <- <-. lia.
  - apply IH in Hi; [lia|done].
Qed.

Lemma spans_ordered durations : ∀ current i j a e a' e',
  Forall (λ d, 1 <= d) durations →
  (i < j)%nat →
  Placement.spans current durations !! i = Some (a, e) →
  Placement.spans current durations !! j = Some (a', e') →
  e < a'.
Proof.
  induction durations as [|d ds IH]; intros cs i j a e a' e' Hd Hij Hi Hj; [done|].
  apply Forall_cons in Hd as [Hd Hds].
  destruct j as [|j]; [lia|]. simpl in Hj.
  destruct i as [|i]; simpl in Hi.
  - injection Hi as <- <-. apply spans_lookup in Hj; [lia|done].
  - eapply (IH _ i j); eauto. lia.
Qed.

Lemma place_spans rooms_df faculty_df constraints requests :
  ∀ current_slot sessions,
  0 < slots_per_day constraints →
  0 <= current_slot →
  Forall (λ ci, 1 <= c_duration_slots (ci_course ci)) requests →
  current_slot + Placement.demand (map (λ ci, c_duration_slots (ci_course ci)) requests)
    <= slots_per_day constraints * Z.of_nat (length (days constraints)) →
  place rooms_df faculty_df constraints current_slot requests = Ok sessions →
  Forall2 (λ span s,
             days constraints !! Z.to_nat (span.1 / slots_per_day constraints)
               = Some (s_day s) ∧
             s_start s = span.1 mod slots_per_day constraints ∧
             s_end s = span.2 mod slots_per_day constraints)
          (Placement.spans current_slot
             (map (λ ci, c_duration_slots (ci_course ci)) requests))
          sessions.
Proof.
  induction requests as [|r rest IH]; intros cs sessions Hspd Hcs Hdur Hfit Hplace.
  - injection Hplace as <-. constructor.
  - apply Forall_cons in Hdur as [Hd Hdur]. simpl in Hfit.
    assert (0 <= Placement.demand (map (λ ci, c_duration_slots (ci_course ci)) rest)) as Hrest0.
    { apply demand_nonneg. by apply Forall_map. }
    rewrite place_cons in Hplace.
    rewrite place_one_unfold in Hplace by lia. simpl in Hplace.
    destruct (resolve_room _ _); simpl in Hplace; [|done].
    destruct (resolve_faculty _ _); simpl in Hplace; [|done].
    assert (cs / slots_per_day constraints < Z.of_nat (length (days constraints))).
    { apply Z.div_lt_upper_bound; lia. }
    destruct (Z.leb_spec (Z.of_nat (length (days constraints)))
                (cs / slots_per_day constraints)) as [?|_]; [lia|].
    assert (0 <= cs / slots_per_day constraints) by (apply Z.div_pos; lia).
    destruct (index_in_range (days constraints) (cs / slots_per_day constraints))
      as (d & Hidx & Hday); [lia|].
    rewrite Hidx in Hplace. simpl in Hplace.
    destruct (place _ _ _ _ rest) as [out|] eqn:Hout; simpl in Hplace; [|done].
    injection Hplace as <-. simpl. constructor; [done|].
    apply IH; [done|lia|done|lia|done].
Qed.

(** X7. While the durations, with one gap slot after each, fit the
    grid, no two sessions overlap: of two sessions on the same day, the
    earlier one ends (at or after its own start) before the later one
    starts. The days are taken to be distinct and every catalog course
    to last at least one slot. *)
Theorem no_double_booking_on_the_grid
    students_df courses_df rooms_df faculty_df constraints selections_df sessions :
  0 < slots_per_day constraints →
  NoDup (days constraints) →
  Forall (λ course, 1 <= c_duration_slots course) courses_df →
  Placement.demand (map (λ ci, c_duration_slots (ci_course ci))
                   (scheduled_courses courses_df selections_df))
    <= slots_per_day constraints * Z.of_nat (length (days constraints)) →
  solve_timetable students_df courses_df rooms_df faculty_df constraints
    selections_df = Ok sessions →
  ∀ i j a b,
    (i < j)%nat → sessions !! i = Some a → sessions !! j = Some b →
    s_day a = s_day b →
    s_start a <= s_end a ∧ s_end a < s_start b.
Proof.
  intros Hspd Hnodup Hdur Hfit Hrun i j a b Hij Ha Hb Hday.
  pose proof (scheduled_courses_catalog courses_df selections_df) as Hcat.
  set (requests := scheduled_courses courses_df selections_df) in *.
  assert (Forall (λ ci, 1 <= c_duration_slots (ci_course ci)) requests) as Hreq.
  { apply Forall_forall. intros ci Hci.
    apply (proj1 (Forall_forall _ _) Hdur).
    by apply (proj1 (Forall_forall _ _) Hcat). }
  apply place_spans in Hrun; [|done|done|done|done].
  assert (Forall (λ d, 1 <= d) (map (λ ci, c_duration_slots (ci_course ci)) requests))
    as Hds by (by apply Forall_map).
  destruct (Forall2_lookup_r _ _ _ _ _ Hrun Ha) as ([sa ea] & Hsa & Hda & -> & ->).
  destruct (Forall2_lookup_r _ _ _ _ _ Hrun Hb) as ([sb eb] & Hsb & Hdb & -> & _).
  simpl in *.
  pose proof (spans_lookup _ _ _ _ _ Hds Hsa) as (Hsa0 & Hae & _).
  pose proof (spans_lookup _ _ _ _ _ Hds Hsb) as (Hsb0 & _ & _).
  pose proof (spans_ordered _ _ _ _ _ _ _ _ Hds Hij Hsa Hsb) as Hlt.
  rewrite Hday in Hda.
  pose proof (NoDup_lookup _ _ _ _ Hnodup Hda Hdb) as Hk.
  set (spd := slots_per_day constraints) in *.
  assert (0 <= sa / spd) by (apply Z.div_pos; lia).
  assert (0 <= sb / spd) by (apply Z.div_pos; lia).
  assert (sa / spd = sb / spd) as Hk' by lia.
  assert (ea / spd = sa / spd) as Hke.
  { pose proof (Z.div_le_mono sa ea spd Hspd Hae).
    pose proof (Z.div_le_mono ea sb spd Hspd ltac:(lia)). lia. }
  rewrite !Z.mod_eq by lia. rewrite Hke, <- Hk'. lia.
Qed.

Lemma no_double_booking_on_the_grid_witness :
  ∃ sessions,
    solve_timetable Sample.students_df Sample.courses_df Sample.rooms_df
      Sample.faculty_df (mkConstraints ["Mon"; "Tue"; "Wed"; "Thu"; "Fri"] 16)
      None = Ok sessions ∧
    ∀ i j a b,
      (i < j)%nat → sessions !! i = Some a → sessions !! j = Some b →
      s_day a = s_day b →
      s_start a <= s_end a ∧ s_end a < s_start b.
Proof.
  eexists. split; [vm_compute; reflexivity|].
  apply (no_double_booking_on_the_grid Sample.students_df Sample.courses_df
           Sample.rooms_df Sample.faculty_df
           (mkConstraints ["Mon"; "Tue"; "Wed"; "Thu"; "Fri"] 16) None).
  - simpl. lia.
  - apply (bool_decide_unpack (NoDup ["Mon"; "Tue"; "Wed"; "Thu"; "Fri"])).
    vm_compute. exact I.
  - apply (bool_decide_unpack
             (Forall (λ course, 1 <= c_duration_slots course) Sample.courses_df)).
    vm_compute. exact I.
  - vm_compute. discriminate.
  - vm_compute. reflexivity.
Defined.

(** * Further properties of the JSON-column helpers *)

(** ** Malformed JSON text *)

Lemma series_apply_fails (f : pyval → result pyval) cells x :
  x ∈ cells → is_ok (f x) = false → is_ok (series_apply f cells) = false.
Proof.
  induction cells as [|y ys IH]; intros Hin Hx.
  - by apply elem_of_nil in Hin.
  - simpl. apply elem_of_cons in Hin as [<-|Hin].
    + by destruct (f x).
    + destruct (f y); simpl; [|done].
      specialize (IH Hin Hx). by destruct (series_apply f ys).
Qed.

Lemma coerce_frame_ok_cells (f : pyval → result pyval) json_columns :
  ∀ (fr fr' : frame) col cells,
  coerce_frame f fr json_columns = Ok fr' →
  col ∈ json_columns → fr !! col = Some cells →
  is_ok (series_apply f cells) = true.
Proof.
  induction json_columns as [|c rest IH]; intros fr fr' col cells Hrun Hin Hcol.
  - by apply elem_of_nil in Hin.
  - simpl in Hrun.
    destruct (coerce_column f fr c) as [fr1|] eqn:Hc; simpl in Hrun; [|done].
    destruct (decide (col = c)) as [->|Hne].
    + unfold coerce_column in Hc. rewrite Hcol in Hc.
      by destruct (series_apply f cells).
    + apply elem_of_cons in Hin as [?|Hin]; [done|].
      apply coerce_column_frame in Hc as [_ Hother].
      eapply IH; [exact Hrun|exact Hin|]. by rewrite Hother.
Qed.

Lemma series_apply_raise (f : pyval → result pyval) cells e :
  series_apply f cells = Raise e → ∃ y, y ∈ cells ∧ f y = Raise e.
Proof.
  induction cells as [|x xs IH]; [done|]. simpl.
  destruct (f x) as [y|e'] eqn:Hx; simpl.
  - destruct (series_apply f xs) as [ys|e'']; simpl; [done|].
    intros [= <-]. destruct (IH eq_refl) as (y' & Hin & Hy').
    exists y'. split; [by right|done].
  - intros [= <-]. exists x. split; [left|done].
Qed.

(** An exception of the loop is the exception of a cell of the frame
    it started from: the columns it has already been through hold
    settled cells, which raise nothing. *)
Lemma coerce_frame_raise (f : pyval → result pyval)
    (f_stable : ∀ x y, f x = Ok y → f y = Ok y) json_columns :
  ∀ (fr0 fr : frame) e,
  (∀ c, fr !! c = fr0 !! c ∨ settled f fr c) →
  coerce_frame f fr json_columns = Raise e →
  ∃ c ys y, c ∈ json_columns ∧ fr0 !! c = Some ys ∧ y ∈ ys ∧ f y = Raise e.
Proof.
  induction json_columns as [|col rest IH]; intros fr0 fr e Hinv Hrun; [done|].
  simpl in Hrun.
  destruct (coerce_column f fr col) as [fr1|e1] eqn:Hcol; simpl in Hrun.
  - destruct (IH fr0 fr1 e) as (c & ys & y & Hc & Hys & Hy & Hraise); [|done|].
    + pose proof (coerce_column_settles f f_stable _ _ _ Hcol) as [Hs Hkeep].
      pose proof (coerce_column_frame f _ _ _ Hcol) as [_ Hother].
      intros c. destruct (decide (c = col)) as [->|Hne]; [by right|].
      rewrite (Hother c Hne). destruct (Hinv c) as [?|?]; [by left|right; auto].
    + exists c, ys, y. split; [by right|done].
  - injection Hrun as ->. unfold coerce_column in Hcol.
    destruct (fr !! col) as [cells|] eqn:Hcells; [|done].
    destruct (series_apply f cells) as [cells'|e'] eqn:Happly; simpl in Hcol; [done|].
    injection Hcol as ->.
    destruct (Hinv col) as [Hsame|Hsettled].
    + apply series_apply_raise in Happly as (y & Hy & Hraise).
      exists col, cells, y. split; [left|]. by rewrite <- Hsame.
    + by rewrite (Hsettled cells Hcells) in Happly.
Qed.

Lemma scanstring_errors n : ∀ s e,
  (length s ≤ n)%nat → scanstring s = Raise e → decoder_error e.
Proof.
  induction n as [|n IH]; intros [|c s1] e Hn; simpl in *;
    try (by intros [= <-]); try lia.
  destruct (c =? dquote)%char; [done|].
  destruct (c =? backslash)%char.
  - destruct s1 as [|x s2]; [by intros [= <-]|].
    destruct (x =? "u")%char.
    + destruct s2 as [|h1 [|h2 [|h3 [|h4 s3]]]]; try (by intros [= <-]).
      destruct (hex4 h1 h2 h3 h4) as [cp|]; [|by intros [= <-]].
      destruct (cp <? 256)%N; [|by intros [= <-]].
      destruct (scanstring s3) eqn:Hs; simpl; [done|].
      intros [= <-]. eapply (IH s3); [simpl in *; lia|done].
    + destruct (unescape x); [|by intros [= <-]].
      destruct (scanstring s2) eqn:Hs; simpl; [done|].
      intros [= <-]. eapply (IH s2); [simpl in *; lia|done].
  - destruct (N_of_ascii c <? 32)%N; [by intros [= <-]|].
    destruct (scanstring s1) eqn:Hs; simpl; [done|].
    intros [= <-]. eapply (IH s1); [lia|done].
Qed.

Lemma parse_number_errors s e : parse_number s = Raise e → decoder_error e.
Proof.
  unfold parse_number.
  destruct (if match s with [] => false | c :: _ => (c =? "-")%char end
            then tail s else s) as [|c s2]; [by intros [= <-]|].
  destruct (is_digit c); [|by intros [= <-]].
  destruct (float_follows _); [by intros [= <-]|done].
Qed.

Lemma decoder_errors fuel :
  (∀ s e, parse_value fuel s = Raise e → decoder_error e) ∧
  (∀ s e, parse_elements fuel s = Raise e → decoder_error e) ∧
  (∀ s e, parse_members fuel s = Raise e → decoder_error e).
Proof.
  induction fuel as [|fuel (IHv & IHe & IHm)].
  { repeat split; intros s e; simpl; by intros [= <-]. }
  split; [|split]; intros s e.
  - rewrite parse_value_S. destruct s as [|c s1]; [by intros [= <-]|].
    destruct (c =? dquote)%char.
    { destruct (scanstring s1) eqn:Hs; simpl; [done|]. intros [= <-].
      by eapply scanstring_errors. }
    destruct (c =? "{")%char.
    { destruct (skip_ws s1) as [|c2 s2]; [by intros [= <-]|].
      destruct (c2 =? "}")%char; [done|].
      destruct (parse_members fuel (c2 :: s2)) eqn:Hm; simpl; [done|].
      intros [= <-]. by eapply IHm. }
    destruct (c =? "[")%char.
    { destruct (skip_ws s1) as [|c2 s2]; [by intros [= <-]|].
      destruct (c2 =? "]")%char; [done|].
      destruct (parse_elements fuel (c2 :: s2)) eqn:He; simpl; [done|].
      intros [= <-]. by eapply IHe. }
    destruct (strip_prefix (chars "null") (c :: s1)); [done|].
    destruct (strip_prefix (chars "true") (c :: s1)); [done|].
    destruct (strip_prefix (chars "false") (c :: s1)); [done|].
    destruct (parse_number (c :: s1)) as [r|e'] eqn:Hn; [done|].
    apply parse_number_errors in Hn.
    destruct e'; try done; try (by intros [= <-]);
      destruct (_ || _); by intros [= <-].
  - rewrite parse_elements_S.
    destruct (parse_value fuel s) as [r|e'] eqn:Hv; simpl.
    + destruct (skip_ws r.2) as [|c s1]; [by intros [= <-]|].
      destruct (c =? "]")%char; [done|].
      destruct (c =? ",")%char; [|by intros [= <-]].
      destruct (parse_elements fuel (skip_ws s1)) eqn:He; simpl; [done|].
      intros [= <-]. by eapply IHe.
    + intros [= <-]. by eapply IHv.
  - rewrite parse_members_S. destruct s as [|c s1]; [by intros [= <-]|].
    destruct (c =? dquote)%char; [|by intros [= <-]].
    destruct (scanstring s1) as [k|e'] eqn:Hs; simpl.
    2:{ intros [= <-]. by eapply scanstring_errors. }
    destruct (skip_ws k.2) as [|c2 s2]; [by intros [= <-]|].
    destruct (c2 =? ":")%char; [|by intros [= <-]].
    destruct (parse_value fuel (skip_ws s2)) as [r|e'] eqn:Hv; simpl.
    2:{ intros [= <-]. by eapply IHv. }
    destruct (skip_ws r.2) as [|c3 s3]; [by intros [= <-]|].
    destruct (c3 =? "}")%char; [done|].
    destruct (c3 =? ",")%char; [|by intros [= <-]].
    destruct (parse_members fuel (skip_ws s3)) eqn:Hm; simpl; [done|].
    intros [= <-]. by eapply IHm.
Qed.

Lemma parse_cell_errors x e :
  parse_cell x = Raise e → e = JSONDecodeError ∨ e = OutsideModel.
Proof.
  destruct x as [| | |s| |]; simpl; try done.
  destruct (String.prefix "[" s); [|done]. intros Hl.
  pose proof (loads_fuel s) as Hfuel. rewrite Hl in Hfuel.
  assert (decoder_error e) as He.
  { unfold loads in Hl.
    destruct (parse_value _ _) as [r|e'] eqn:Hv; simpl in Hl.
    - destruct (skip_ws r.2); [done|]. by injection Hl as <-.
    - injection Hl as <-.
      by destruct (decoder_errors (2 * length (chars s) + 2)) as (Hv' & _ & _);
         eapply Hv'. }
  destruct e; try done; [by left|by right].
Qed.



(** ** Serialize, then parse *)

Lemma serialize_cell_idempotent x :
  serialize_cell (serialize_cell x) = serialize_cell x.
Proof. by destruct x. Qed.

Lemma round_trip_cell_spec x :
  TableView.round_trip_cell x = true →
  parse_cell (serialize_cell x) = Ok x ∧ parse_cell x = Ok x.
Proof.
  destruct x as [| | |s|l|d]; cbn [TableView.round_trip_cell]; try done.
  - intros Hs. apply negb_true_iff in Hs. simpl. by rewrite Hs.
  - intros Hkeys. split; [|done]. unfold serialize_cell, parse_cell.
    rewrite dumps_list_prefix. by apply loads_dumps.
Qed.

Lemma series_apply_round_trip cells :
  Forall (λ x, TableView.round_trip_cell x = true) cells →
  series_apply parse_cell (map serialize_cell cells) = Ok cells ∧
  series_apply parse_cell cells = Ok cells.
Proof.
  induction 1 as [|x xs Hx _ [IH1 IH2]]; [done|].
  apply round_trip_cell_spec in Hx as [H1 H2].
  simpl. by rewrite H1, H2, IH1, IH2.
Qed.

(** The columns after the serializing loop. *)
Lemma coerce_frame_serialize json_columns : ∀ fr : frame,
  ∃ fs : frame,
    coerce_frame (λ x, Ok (serialize_cell x)) fr json_columns = Ok fs ∧
    ∀ c, fs !! c = if decide (c ∈ json_columns)
                   then map serialize_cell <$> fr !! c
                   else fr !! c.
Proof.
  induction json_columns as [|col rest IH]; intros fr.
  - exists fr. split; [done|]. intros c. rewrite decide_False; [done|].
    apply not_elem_of_nil.
  - simpl. unfold coerce_column at 1.
    destruct (fr !! col) as [cells|] eqn:Hcol; simpl.
    + rewrite series_apply_total. simpl.
      destruct (IH (<[col := map serialize_cell cells]> fr)) as (fs & -> & Hfs).
      exists fs. split; [done|]. intros c. rewrite Hfs.
      destruct (decide (c = col)) as [->|Hne].
      * rewrite lookup_insert_eq, Hcol. rewrite (decide_True _ _ (list_elem_of_here _ _)).
        case_decide; simpl; [|done].
        rewrite map_map. f_equal. apply map_ext. intros. apply serialize_cell_idempotent.
      * rewrite lookup_insert_ne by done.
        destruct (decide (c ∈ rest)) as [Hin|Hnin].
        -- rewrite decide_True; [done|]. by right.
        -- rewrite decide_False; [done|]. by apply not_elem_of_cons.
    + destruct (IH fr) as (fs & -> & Hfs).
      exists fs. split; [done|]. intros c. rewrite Hfs.
      destruct (decide (c = col)) as [->|Hne].
      * rewrite Hcol. by repeat case_decide.
      * destruct (decide (c ∈ rest)) as [Hin|Hnin].
        -- rewrite decide_True; [done|]. by right.
        -- rewrite decide_False; [done|]. by apply not_elem_of_cons.
Qed.

(** Decoding a frame in which each listed column is either already the
    wanted cells or their serialized form gives the wanted frame. *)
Lemma coerce_frame_parse_back json_columns : ∀ fs fr : frame,
  (∀ c, match fr !! c with
        | Some cells =>
            (c ∈ json_columns →
             Forall (λ x, TableView.round_trip_cell x = true) cells) ∧
            (fs !! c = Some cells ∨
             (c ∈ json_columns ∧ fs !! c = Some (map serialize_cell cells)))
        | None => fs !! c = None
        end) →
  coerce_frame parse_cell fs json_columns = Ok fr.
Proof.
  induction json_columns as [|col rest IH]; intros fs fr Hrel.
  - simpl. f_equal. apply map_eq. intros c. specialize (Hrel c).
    destruct (fr !! c) as [cells|]; [|done].
    destruct Hrel as [_ [?|[Hin _]]]; [done|]. by apply elem_of_nil in Hin.
  - simpl. unfold coerce_column at 1.
    pose proof (Hrel col) as Hcol.
    destruct (fr !! col) as [cells|] eqn:Hfr.
    + destruct Hcol as [Hrt Hfs]. specialize (Hrt ltac:(left)).
      apply series_apply_round_trip in Hrt as [Hback Hsame].
      assert (∃ cs, fs !! col = Some cs ∧ series_apply parse_cell cs = Ok cells)
        as (cs & -> & ->).
      { destruct Hfs as [->|[_ ->]]; eauto. }
      simpl. apply IH. intros c. specialize (Hrel c).
      destruct (decide (c = col)) as [->|Hne].
      * rewrite Hfr. rewrite lookup_insert_eq. split; [|by left].
        rewrite Hfr in Hrel. intros Hin. apply Hrel. by right.
      * rewrite lookup_insert_ne by done.
        destruct (fr !! c) as [cells'|]; [|done].
        destruct Hrel as [Hrt' Hfs']. split.
        -- intros Hin. apply Hrt'. by right.
        -- destruct Hfs' as [?|[Hin ?]]; [by left|].
           apply elem_of_cons in Hin as [?|Hin]; [done|]. by right.
    + rewrite Hcol. simpl. apply IH. intros c. specialize (Hrel c).
      destruct (fr !! c) as [cells'|] eqn:Hc; [|done].
      destruct Hrel as [Hrt' Hfs']. split.
      * intros Hin. apply Hrt'. by right.
      * destruct Hfs' as [?|[Hin Hser]]; [by left|].
        apply elem_of_cons in Hin as [->|Hin]; [congruence|]. by right.
Qed.



(** ** After serialization *)

Lemma serialize_run (h : heap) (fr : frame) dataframe json_columns :
  h !! dataframe = Some fr →
  ∃ fs : frame,
    serialize_json_columns dataframe json_columns h
      = (Ok (fresh (dom h)), <[fresh (dom h) := fs]> h) ∧
    ∀ c, fs !! c = if decide (c ∈ json_columns)
                   then map serialize_cell <$> fr !! c
                   else fr !! c.
Proof.
  intros Hdf.
  destruct (coerce_frame_serialize json_columns fr) as (fs & Hser & Hfs).
  destruct (helper_run (λ x, Ok (serialize_cell x)) dataframe json_columns h fr Hdf)
    as (fr1 & Hrun1 & Hlast1).
  rewrite Hser in Hrun1. rewrite (Hlast1 fs Hser) in Hrun1.
  exists fs. by rewrite serialize_json_columns_loop.
Qed.

(** X10. After [serialize_json_columns] no cell of a listed column is a
    list or a dict any more (every one is text or a scalar, so the frame
    can be written as delimited text), and serializing the result again
    changes nothing. *)
Theorem serialize_leaves_no_structure
    (h : heap) (fr : frame) dataframe json_columns :
  h !! dataframe = Some fr →
  ∃ df1 h1 (fs : frame),
    serialize_json_columns dataframe json_columns h = (Ok df1, h1) ∧
    h1 !! df1 = Some fs ∧
    (∀ col cells x, col ∈ json_columns → fs !! col = Some cells → x ∈ cells →
       (∀ l, x ≠ PList l) ∧ (∀ d, x ≠ PDict d)) ∧
    ∃ df2 h2,
      serialize_json_columns df1 json_columns h1 = (Ok df2, h2) ∧
      h2 !! df2 = Some fs.
Proof.
  intros Hdf.
  destruct (serialize_run h fr dataframe json_columns Hdf) as (fs & Hrun & Hfs).
  assert ((<[fresh (dom h) := fs]> h : heap) !! fresh (dom h) = Some fs) as Hdf1
    by apply lookup_insert_eq.
  exists (fresh (dom h)), (<[fresh (dom h) := fs]> h), fs.
  split; [done|]. split; [done|]. split.
  - intros col cells x Hin Hcol Hx. rewrite Hfs, decide_True in Hcol by done.
    destruct (fr !! col) as [cells0|]; [|done].
    injection Hcol as <-. apply list_elem_of_fmap in Hx as (y & -> & _).
    by destruct y.
  - destruct (serialize_run _ fs _ json_columns Hdf1) as (fs2 & Hrun2 & Hfs2).
    eexists _, _. split; [exact Hrun2|]. rewrite lookup_insert_eq. f_equal.
    apply map_eq. intros c. rewrite Hfs2. case_decide as Hc; [|done].
    rewrite Hfs, decide_True by done.
    destruct (fr !! c) as [cells|]; [|done]. simpl. f_equal.
    rewrite map_map. apply map_ext. intros. apply serialize_cell_idempotent.
Qed.

Lemma serialize_leaves_no_structure_witness :
  ∃ df1 h1 (fs : frame),
    serialize_json_columns 1%positive ["skills"] Examples.store = (Ok df1, h1) ∧
    h1 !! df1 = Some fs ∧
    ∀ cells x, fs !! "skills" = Some cells → x ∈ cells →
      (∀ l, x ≠ PList l) ∧ (∀ d, x ≠ PDict d).
Proof.
  destruct (serialize_leaves_no_structure Examples.store Examples.people
              1%positive ["skills"]) as (df1 & h1 & fs & Hrun & Hfs & Hflat & _).
  - reflexivity.
  - exists df1, h1, fs. split; [exact Hrun|]. split; [exact Hfs|].
    intros cells x. apply Hflat. left.
Defined.

(** X11. The table widget shows the same text for a frame and for its
    serialized copy: in every column, the text of each cell is
    unchanged by [serialize_json_columns]. *)
Theorem table_text_unchanged_by_serialize
    (h : heap) (fr : frame) dataframe json_columns :
  h !! dataframe = Some fr →
  ∃ df1 h1 (fs : frame),
    serialize_json_columns dataframe json_columns h = (Ok df1, h1) ∧
    h1 !! df1 = Some fs ∧
    ∀ col, map TableView.treeview_value <$> fs !! col
           = map TableView.treeview_value <$> fr !! col.
Proof.
  intros Hdf.
  destruct (serialize_run h fr dataframe json_columns Hdf) as (fs & Hrun & Hfs).
  exists (fresh (dom h)), (<[fresh (dom h) := fs]> h), fs.
  split; [done|]. split; [apply lookup_insert_eq|].
  intros col. rewrite Hfs. case_decide; [|done].
  destruct (fr !! col) as [cells|]; [|done]. simpl. f_equal.
  rewrite map_map. apply map_ext. intros x. by destruct x.
Qed.

Lemma table_text_unchanged_by_serialize_witness :
  ∃ df1 h1 (fs : frame),
    serialize_json_columns 1%positive ["skills"] Examples.store = (Ok df1, h1) ∧
    h1 !! df1 = Some fs ∧
    map TableView.treeview_value <$> fs !! "skills"
    = Some ["[1, 2]"; dumps (PList [PStr "x"])].
Proof.
  destruct (table_text_unchanged_by_serialize Examples.store Examples.people
              1%positive ["skills"]) as (df1 & h1 & fs & Hrun & Hfs & Htext).
  - reflexivity.
  - exists df1, h1, fs. split; [exact Hrun|]. split; [exact Hfs|].
    rewrite Htext. vm_compute. reflexivity.
Defined.

(** * Properties of the web handlers *)

(** ** Upload file names *)

Lemma rsplit_dot_tail_none s :
  WebApp.rsplit_dot_tail s = None ↔ WebApp.has_dot s = false.
Proof.
  induction s as [|c s IH]; [done|]. simpl.
  destruct (WebApp.rsplit_dot_tail s) as [t|].
  - split; [done|]. intros H. apply orb_false_elim in H as [_ H].
    by apply IH in H.
  - destruct (c =? ".")%char; [done|]. simpl. split; [intros _|done].
    by apply IH.
Qed.

Lemma rsplit_dot_tail_spec s t :
  WebApp.rsplit_dot_tail s = Some t ↔
  ∃ base, s = base +:+ "." +:+ t ∧ WebApp.has_dot t = false.
Proof.
  split.
  - revert t. induction s as [|c s IH]; intros t; [done|]. simpl.
    destruct (WebApp.rsplit_dot_tail s) as [t'|] eqn:Hs.
    + intros [= <-]. destruct (IH t' eq_refl) as (base & -> & Ht).
      by exists (String c base).
    + destruct (Ascii.eqb_spec c ".") as [->|]; [|done]. intros [= <-].
      exists "". split; [done|]. by apply rsplit_dot_tail_none.
  - intros (base & -> & Ht). induction base as [|c base IH].
    + apply rsplit_dot_tail_none in Ht.
      change ("" +:+ "." +:+ t) with (String "."%char t).
      cbn [WebApp.rsplit_dot_tail]. rewrite Ht. done.
    + change (String c base +:+ "." +:+ t) with (String c (base +:+ "." +:+ t)).
      cbn [WebApp.rsplit_dot_tail]. by rewrite IH.
Qed.

(** X12. [allowed_file] accepts exactly the names that end in a dot
    followed by a dot-free extension which, in lower case, is [csv] or
    [json]: the case of the extension does not matter, only the last
    extension counts, and a name without a dot is refused. *)
Theorem allowed_file_iff filename :
  WebApp.allowed_file filename = true ↔
  ∃ base ext,
    filename = base +:+ "." +:+ ext ∧
    WebApp.has_dot ext = false ∧
    (WebApp.lower ext = "csv" ∨ WebApp.lower ext = "json").
Proof.
  unfold WebApp.allowed_file. split.
  - intros H. apply andb_prop in H as [_ H].
    destruct (WebApp.rsplit_dot_tail filename) as [ext|] eqn:Hext; [|done].
    apply rsplit_dot_tail_spec in Hext as (base & -> & Hdot).
    exists base, ext. split; [done|]. split; [done|].
    apply bool_decide_eq_true in H. unfold WebApp.ALLOWED_EXTENSIONS in H.
    apply elem_of_cons in H as [?|H]; [by left|].
    apply elem_of_cons in H as [?|H]; [by right|]. by apply elem_of_nil in H.
  - intros (base & ext & Hname & Hdot & Hext).
    assert (WebApp.rsplit_dot_tail filename = Some ext) as Hsplit.
    { apply rsplit_dot_tail_spec. eauto. }
    rewrite Hsplit. apply andb_true_intro. split.
    + destruct (WebApp.has_dot filename) eqn:Hd; [done|].
      apply rsplit_dot_tail_none in Hd. congruence.
    + apply bool_decide_eq_true. unfold WebApp.ALLOWED_EXTENSIONS.
      destruct Hext as [-> | ->]; [left|right; left].
Qed.

Example allowed_file_examples :
  WebApp.allowed_file "rooms.CSV" = true ∧
  WebApp.allowed_file "data.v2.Json" = true ∧
  WebApp.allowed_file ".json" = true ∧
  WebApp.allowed_file "csv" = false ∧
  WebApp.allowed_file "rooms.csv.bak" = false ∧
  WebApp.allowed_file "rooms.csv." = false.
Proof. vm_compute. repeat split. Qed.

(** ** Adding and removing rows *)

Lemma foldl_max_ge xs : ∀ x,
  x <= foldl Z.max x xs ∧ Forall (λ y, y <= foldl Z.max x xs) xs.
Proof.
  induction xs as [|y ys IH]; intros x; simpl; [split; [lia|constructor]|].
  destruct (IH (Z.max x y)) as [Hx Hys]. split; [lia|].
  constructor; [lia|done].
Qed.

Lemma wrap_int64_small n : - 2 ^ 63 <= n < 2 ^ 63 → WebApp.wrap_int64 n = n.
Proof. intros Hn. unfold WebApp.wrap_int64. rewrite Z.mod_small; lia. Qed.

Lemma next_id_fresh ids :
  Forall (λ x, - 2 ^ 63 <= x < 2 ^ 63 - 1) ids →
  Forall (λ x, x < WebApp.next_id ids) ids.
Proof.
  destruct ids as [|x xs]; [constructor|]. intros Hrange. unfold WebApp.next_id.
  destruct (foldl_max_ge xs x) as [Hx Hxs].
  assert (- 2 ^ 63 <= foldl Z.max x xs < 2 ^ 63 - 1) as Hmax.
  { clear Hx Hxs. revert x Hrange.
    induction xs as [|y ys IH]; intros x Hrange; simpl.
    - by apply Forall_cons in Hrange as [? _].
    - apply IH. apply Forall_cons in Hrange as [Hx Hrest].
      apply Forall_cons in Hrest as [Hy Hys]. constructor; [lia|done]. }
  rewrite wrap_int64_small by lia.
  constructor; [lia|]. eapply Forall_impl; [exact Hxs|]. simpl. lia.
Qed.

Lemma last_None_nil {A} (l : list A) : last l = None → l = [].
Proof. by intros ->%last_None. Qed.

(** X13. [add_row] on the students, faculty or rooms frame appends
    exactly one row, and the identifier of the new row is greater than
    every identifier already in the frame, so identifiers that were
    distinct stay distinct; this as long as every identifier is a 64-bit
    integer below the largest one, so that the sum does not wrap. *)
Theorem add_row_appends_fresh_id st :
  (Forall (λ r, - 2 ^ 63 <= st_id r < 2 ^ 63 - 1) (WebApp.students_df st) →
   ∃ row, WebApp.students_df (WebApp.add_row "students" st).2
          = WebApp.students_df st ++ [row] ∧
          Forall (λ r, st_id r < st_id row) (WebApp.students_df st)) ∧
  (Forall (λ r, - 2 ^ 63 <= f_id r < 2 ^ 63 - 1) (WebApp.faculty_df st) →
   ∃ row, WebApp.faculty_df (WebApp.add_row "faculty" st).2
          = WebApp.faculty_df st ++ [row] ∧
          Forall (λ r, f_id r < f_id row) (WebApp.faculty_df st)) ∧
  (Forall (λ r, - 2 ^ 63 <= r_id r < 2 ^ 63 - 1) (WebApp.rooms_df st) →
   ∃ row, WebApp.rooms_df (WebApp.add_row "rooms" st).2
          = WebApp.rooms_df st ++ [row] ∧
          Forall (λ r, r_id r < r_id row) (WebApp.rooms_df st)).
Proof.
  split; [|split]; intros Hrange; simpl.
  - unfold WebApp.add_student.
    destruct (last (WebApp.students_df st)) eqn:Hlast.
    + eexists. split; [done|]. simpl.
      pose proof (next_id_fresh (map st_id (WebApp.students_df st))) as Hfresh.
      apply Forall_fmap in Hfresh; [done|]. by apply Forall_fmap.
    + apply last_None_nil in Hlast as ->. eexists. by split.
  - unfold WebApp.add_faculty.
    destruct (last (WebApp.faculty_df st)) eqn:Hlast.
    + eexists. split; [done|]. simpl.
      pose proof (next_id_fresh (map f_id (WebApp.faculty_df st))) as Hfresh.
      apply Forall_fmap in Hfresh; [done|]. by apply Forall_fmap.
    + apply last_None_nil in Hlast as ->. eexists. by split.
  - unfold WebApp.add_room.
    destruct (last (WebApp.rooms_df st)) eqn:Hlast.
    + eexists. split; [done|]. simpl.
      pose proof (next_id_fresh (map r_id (WebApp.rooms_df st))) as Hfresh.
      apply Forall_fmap in Hfresh; [done|]. by apply Forall_fmap.
    + apply last_None_nil in Hlast as ->. eexists. by split.
Qed.

Lemma add_row_appends_fresh_id_witness :
  ∃ row, WebApp.students_df (WebApp.add_row "students" Scenario.campus).2
         = Sample.students_df ++ [row] ∧
         st_id row = 6 ∧
         Forall (λ r, st_id r < st_id row) Sample.students_df.
Proof.
  destruct (add_row_appends_fresh_id Scenario.campus) as (Hstudents & _ & _).
  destruct Hstudents as (row & Hrows & Hfresh).
  - apply (bool_decide_unpack
             (Forall (λ r, - 2 ^ 63 <= st_id r < 2 ^ 63 - 1) Sample.students_df)).
    vm_compute. exact I.
  - exists row. split; [exact Hrows|]. split; [|exact Hfresh].
    apply (f_equal last) in Hrows. rewrite last_snoc in Hrows.
    vm_compute in Hrows. by injection Hrows as <-.
Defined.

Lemma add_student_snoc df : ∃ row, WebApp.add_student df = df ++ [row].
Proof.
  unfold WebApp.add_student. destruct (last df) eqn:H; [by eexists|].
  apply last_None_nil in H as ->. by eexists.
Qed.

Lemma add_faculty_snoc df : ∃ row, WebApp.add_faculty df = df ++ [row].
Proof.
  unfold WebApp.add_faculty. destruct (last df) eqn:H; [by eexists|].
  apply last_None_nil in H as ->. by eexists.
Qed.

Lemma add_course_snoc df : ∃ row, WebApp.add_course df = df ++ [row].
Proof.
  unfold WebApp.add_course. destruct (last df) eqn:H; [by eexists|].
  apply last_None_nil in H as ->. by eexists.
Qed.

Lemma add_room_snoc df : ∃ row, WebApp.add_room df = df ++ [row].
Proof.
  unfold WebApp.add_room. destruct (last df) eqn:H; [by eexists|].
  apply last_None_nil in H as ->. by eexists.
Qed.

Lemma valid_index_snoc {A} (df : list A) row :
  WebApp.valid_index (df ++ [row]) (Z.of_nat (length df)) = true.
Proof.
  unfold WebApp.valid_index. rewrite length_app. simpl.
  rewrite bool_decide_eq_false_2 by (by destruct df).
  apply andb_true_intro. split; [apply Z.leb_le|apply Z.ltb_lt]; lia.
Qed.

Lemma drop_row_snoc {A} (df : list A) row :
  WebApp.drop_row (df ++ [row]) (Z.of_nat (length df)) = df.
Proof.
  unfold WebApp.drop_row. rewrite Nat2Z.id.
  induction df as [|x df IH]; [done|]. simpl. by rewrite IH.
Qed.

(** X14. Removing the row that [add_row] has just appended (the row at
    the index that was the length of the frame) gives back the state
    before the addition, for each of the four frames. *)
Theorem add_then_remove_last_restores st :
  WebApp.remove_row "students"
    (Some (Z.of_nat (length (WebApp.students_df st))))
    (WebApp.add_row "students" st).2
  = (WebApp.Success "Row removed from students", st) ∧
  WebApp.remove_row "faculty"
    (Some (Z.of_nat (length (WebApp.faculty_df st))))
    (WebApp.add_row "faculty" st).2
  = (WebApp.Success "Row removed from faculty", st) ∧
  WebApp.remove_row "courses"
    (Some (Z.of_nat (length (WebApp.courses_df st))))
    (WebApp.add_row "courses" st).2
  = (WebApp.Success "Row removed from courses", st) ∧
  WebApp.remove_row "rooms"
    (Some (Z.of_nat (length (WebApp.rooms_df st))))
    (WebApp.add_row "rooms" st).2
  = (WebApp.Success "Row removed from rooms", st).
Proof.
  destruct st as [students faculty courses rooms cons sels tt].
  repeat split; simpl.
  - destruct (add_student_snoc students) as [row ->].
    by rewrite valid_index_snoc, drop_row_snoc.
  - destruct (add_faculty_snoc faculty) as [row ->].
    by rewrite valid_index_snoc, drop_row_snoc.
  - destruct (add_course_snoc courses) as [row ->].
    by rewrite valid_index_snoc, drop_row_snoc.
  - destruct (add_room_snoc rooms) as [row ->].
    by rewrite valid_index_snoc, drop_row_snoc.
Qed.

Lemma drop_row_app {A} (df : list A) row row_index :
  0 <= row_index < Z.of_nat (length df) →
  WebApp.drop_row (df ++ [row]) row_index = WebApp.drop_row df row_index ++ [row].
Proof.
  intros Hidx. unfold WebApp.drop_row.
  assert (Z.to_nat row_index < length df)%nat as Hlt by lia.
  revert Hlt. generalize (Z.to_nat row_index). clear.
  induction df as [|c cs IH]; intros [|i] Hlt; simpl in *; try lia; [done|].
  by rewrite IH by lia.
Qed.

Lemma add_course_nonempty df :
  df ≠ [] →
  ∃ row, last df = Some row ∧
    WebApp.add_course df =
    df ++ [ {| c_code := "NEW" +:+ Py.digits (Z.of_nat (length df) + 101);
               c_name := "New Course";
               c_program := c_program row; c_section := c_section row;
               c_duration_slots := c_duration_slots row;
               c_room_type := c_room_type row;
               c_faculty_pool := c_faculty_pool row |} ].
Proof.
  intros Hne. unfold WebApp.add_course.
  destruct (last df) as [row|] eqn:H; [by eexists|].
  by apply last_None_nil in H.
Qed.

(** X15. The code of a new course is made from the number of rows, so
    it can repeat: add a course, remove any earlier row, add again, and
    the catalog ends with two rows of the same code (two equal rows). *)
Theorem add_row_repeats_course_code st row_index :
  WebApp.courses_df st ≠ [] →
  0 <= row_index < Z.of_nat (length (WebApp.courses_df st)) →
  let st1 := (WebApp.add_row "courses" st).2 in
  let st2 := (WebApp.remove_row "courses" (Some row_index) st1).2 in
  let st3 := (WebApp.add_row "courses" st2).2 in
  ∃ row,
    WebApp.courses_df st3
    = WebApp.drop_row (WebApp.courses_df st) row_index ++ [row; row] ∧
    c_code row
    = "NEW" +:+ Py.digits (Z.of_nat (length (WebApp.courses_df st)) + 101).
Proof.
  intros Hne Hidx. destruct st as [students faculty courses rooms cons sels tt].
  simpl in *.
  destruct (add_course_nonempty courses Hne) as (row & Hlast & ->).
  set (new := {| c_code := _ |}).
  assert (WebApp.valid_index (courses ++ [new]) row_index = true) as ->.
  { unfold WebApp.valid_index. rewrite length_app. simpl.
    rewrite bool_decide_eq_false_2 by (by destruct courses).
    apply andb_true_intro.
    split; [apply Z.leb_le|apply Z.ltb_lt]; lia. }
  simpl.
  assert (WebApp.drop_row (courses ++ [new]) row_index
          = WebApp.drop_row courses row_index ++ [new]) as ->.
  { by apply drop_row_app. }
  destruct (add_course_nonempty (WebApp.drop_row courses row_index ++ [new]))
    as (row' & Hlast' & ->); [by destruct (WebApp.drop_row courses row_index)|].
  rewrite last_snoc in Hlast'. injection Hlast' as <-.
  exists new. split; [|done].
  rewrite <- app_assoc. f_equal. simpl. f_equal. subst new. simpl. f_equal.
  f_equal. f_equal. rewrite length_app. unfold WebApp.drop_row.
  assert (is_Some (courses !! Z.to_nat row_index)) as Hsome
    by (apply lookup_lt_is_Some; lia).
  rewrite (length_delete _ _ Hsome). simpl.
  assert (0 < length courses)%nat by lia. do 2 f_equal. lia.
Qed.

Lemma add_row_repeats_course_code_witness :
  let st1 := (WebApp.add_row "courses" Scenario.campus).2 in
  let st2 := (WebApp.remove_row "courses" (Some 0) st1).2 in
  let st3 := (WebApp.add_row "courses" st2).2 in
  ∃ row,
    WebApp.courses_df st3
    = WebApp.drop_row Sample.courses_df 0 ++ [row; row] ∧
    c_code row = "NEW114".
Proof.
  destruct (add_row_repeats_course_code Scenario.campus 0) as (row & Hrows & Hcode).
  - discriminate.
  - simpl. lia.
  - exists row. split; [exact Hrows|]. rewrite Hcode. reflexivity.
Defined.

(** ** Generation *)

Lemma generate_timetable_guarded st :
  WebApp.selections_df st ≠ [] → WebApp.students_df st ≠ [] →
  WebApp.courses_df st ≠ [] → WebApp.rooms_df st ≠ [] →
  WebApp.faculty_df st ≠ [] →
  WebApp.generate_timetable st =
  match WebApp.run_engine st with
  | Ok timetable =>
      (WebApp.Timetable timetable,
       WebApp.mkState (WebApp.students_df st) (WebApp.faculty_df st)
         (WebApp.courses_df st) (WebApp.rooms_df st) (WebApp.constraints st)
         (WebApp.selections_df st) timetable)
  | Raise e => (WebApp.Failed "Error generating timetable: " e, st)
  end.
Proof.
  intros Hsel Hst Hc Hr Hf. unfold WebApp.generate_timetable.
  by rewrite !bool_decide_eq_false_2.
Qed.

Lemma generate_timetable_inv st timetable st1 :
  WebApp.generate_timetable st = (WebApp.Timetable timetable, st1) →
  WebApp.selections_df st ≠ [] ∧ WebApp.students_df st ≠ [] ∧
  WebApp.courses_df st ≠ [] ∧ WebApp.rooms_df st ≠ [] ∧
  WebApp.faculty_df st ≠ [] ∧
  WebApp.run_engine st = Ok timetable ∧
  st1 = WebApp.mkState (WebApp.students_df st) (WebApp.faculty_df st)
          (WebApp.courses_df st) (WebApp.rooms_df st) (WebApp.constraints st)
          (WebApp.selections_df st) timetable.
Proof.
  unfold WebApp.generate_timetable.
  destruct (decide (WebApp.selections_df st = [])) as [?|Hsel];
    [by rewrite bool_decide_eq_true_2|].
  rewrite (bool_decide_eq_false_2 _ Hsel).
  destruct (decide (WebApp.students_df st = [])) as [?|Hst];
    [by rewrite bool_decide_eq_true_2|].
  rewrite (bool_decide_eq_false_2 _ Hst).
  destruct (decide (WebApp.courses_df st = [])) as [?|Hc];
    [by rewrite bool_decide_eq_true_2|].
  rewrite (bool_decide_eq_false_2 _ Hc).
  destruct (decide (WebApp.rooms_df st = [])) as [?|Hr];
    [by rewrite bool_decide_eq_true_2|].
  rewrite (bool_decide_eq_false_2 _ Hr).
  destruct (decide (WebApp.faculty_df st = [])) as [?|Hf];
    [by rewrite bool_decide_eq_true_2|].
  rewrite (bool_decide_eq_false_2 _ Hf). simpl.
  destruct (WebApp.run_engine st) as [t|e]; [|done].
  by intros [= <- <-].
Qed.

Lemma place_app_ok rooms_df faculty_df constraints xs ys : ∀ current_slot a,
  place rooms_df faculty_df constraints current_slot xs = Ok a →
  (∃ e, place rooms_df faculty_df constraints current_slot (xs ++ ys) = Raise e) ∨
  (∃ b, place rooms_df faculty_df constraints current_slot (xs ++ ys) = Ok (a ++ b) ∧
        length b = length ys).
Proof.
  induction xs as [|x xs IH]; intros cs a Ha.
  - injection Ha as <-. simpl.
    destruct (place _ _ _ cs ys) as [b|e] eqn:Hb; [right|left; eauto].
    exists b. split; [done|]. by apply place_length in Hb.
  - rewrite <- app_comm_cons, place_cons. rewrite place_cons in Ha.
    destruct (place_one _ _ _ cs x) as [[s n]|e]; simpl in *; [|done].
    destruct (place _ _ _ n xs) as [a'|e] eqn:Hxs; simpl in Ha; [|done].
    injection Ha as <-.
    destruct (IH n a' Hxs) as [[e ->] | (b & -> & Hlen)]; simpl; eauto.
Qed.

(** X16. Adding a selection never changes the sessions already
    scheduled. After a successful generation and an [add] request, the
    stored timetable is still the old one; a new generation returns the
    old sessions unchanged when no row of the catalog carries the code,
    and otherwise either fails (leaving the state as it is) or returns
    the old sessions followed by one new session. The selections frame
    is one of the application, with its section column. *)
Theorem added_selection_extends_timetable
    st timetable st1 data student_id course_code :
  WebApp.has_section_column (WebApp.selections_df st) = true →
  WebApp.generate_timetable st = (WebApp.Timetable timetable, st1) →
  WebApp.action data = Some "add" →
  WebApp.req_student_id data = Some student_id →
  WebApp.req_course_code data = Some course_code →
  let st2 := (WebApp.handle_selections data st1).2 in
  let stored t :=
    WebApp.mkState (WebApp.students_df st) (WebApp.faculty_df st)
      (WebApp.courses_df st) (WebApp.rooms_df st) (WebApp.constraints st)
      (WebApp.selections_df st2) t in
  st2 = stored timetable ∧
  (∃ selection, WebApp.selections_df st2 = WebApp.selections_df st ++ [selection] ∧
                sel_course_code selection = course_code) ∧
  (course_code ∉ map c_code (WebApp.courses_df st) →
   WebApp.generate_timetable st2 = (WebApp.Timetable timetable, st2)) ∧
  (course_code ∈ map c_code (WebApp.courses_df st) →
   (∃ e, WebApp.generate_timetable st2
         = (WebApp.Failed "Error generating timetable: " e, st2)) ∨
   (∃ session, WebApp.generate_timetable st2
               = (WebApp.Timetable (timetable ++ [session]),
                  stored (timetable ++ [session])))).
Proof.
  intros Hcolumn Hgen Hact Hsid Hcode.
  apply generate_timetable_inv in Hgen
    as (Hsel & Hst & Hc & Hr & Hf & Hrun & ->).
  unfold WebApp.handle_selections. rewrite Hact, Hsid, Hcode. simpl.
  rewrite Hcolumn.
  set (new := {| sel_student_id := student_id |}).
  set (sels := WebApp.selections_df st ++ [new]).
  split; [done|]. split; [by exists new|].
  unfold WebApp.with_selections. simpl.
  set (st2 := WebApp.mkState _ _ _ _ _ sels timetable).
  assert (sels ≠ []) as Hsels by (subst sels; by destruct (WebApp.selections_df st)).
  pose proof (generate_timetable_guarded st2 Hsels Hst Hc Hr Hf) as Hgen2.
  unfold WebApp.run_engine in Hrun, Hgen2. simpl in Hgen2.
  destruct (WebApp.constraints st) as [c|]; [|done].
  unfold solve_timetable in Hrun, Hgen2.
  rewrite scheduled_courses_selections in Hrun by done.
  rewrite scheduled_courses_selections in Hgen2 by done.
  subst sels. rewrite flat_map_app in Hgen2. simpl in Hgen2.
  rewrite app_nil_r in Hgen2.
  split.
  - intros Hnone.
    assert (course_map (WebApp.courses_df st) !! course_code = None) as Hunknown.
    { apply eq_None_not_Some. by rewrite course_map_in_catalog. }
    rewrite (request_of_unknown _ new Hunknown), app_nil_r in Hgen2.
    by rewrite Hrun in Hgen2.
  - intros Hknown. apply course_map_in_catalog in Hknown as [course Hcourse].
    rewrite (request_of_known _ new course Hcourse) in Hgen2.
    destruct (place_app_ok _ _ _ _
                [ {| ci_student_id := Some (sel_student_id new);
                     ci_course_code := sel_course_code new;
                     ci_section := default "A" (sel_section new);
                     ci_faculty_id := sel_faculty_id new;
                     ci_course := course |} ] _ _ Hrun)
      as [[e He] | (b & Hb & Hlen)].
    + left. exists e. by rewrite He in Hgen2.
    + right. destruct b as [|session [|? ?]]; try done.
      exists session. by rewrite Hb in Hgen2.
Qed.

Lemma added_selection_extends_timetable_witness :
  ∃ timetable st1,
    WebApp.generate_timetable Scenario.enrolled = (WebApp.Timetable timetable, st1) ∧
    let st2 := (WebApp.handle_selections Scenario.add_physics st1).2 in
    WebApp.timetable_result st2 = timetable ∧
    ∃ selection,
      WebApp.selections_df st2 = [mkSelection 1 "CS301" (Some "A") None; selection] ∧
      sel_course_code selection = "PHYS101".
Proof.
  destruct (WebApp.generate_timetable Scenario.enrolled)
    as [[message|selections|timetable|status error|error_prefix e|e] st1] eqn:Hgen;
    try (vm_compute in Hgen; discriminate).
  exists timetable, st1. split; [reflexivity|].
  destruct (added_selection_extends_timetable Scenario.enrolled timetable st1
              Scenario.add_physics 2 "PHYS101" eq_refl Hgen eq_refl eq_refl eq_refl)
    as (Hstate & Hadded & _).
  split; [by rewrite Hstate|exact Hadded].
Defined.

Lemma requests_length courses_df selections :
  length (flat_map (request_of_selection (course_map courses_df)) selections)
  = length (filter (known_code courses_df) selections).
Proof.
  rewrite requests_filter_known.
  assert (Forall (known_code courses_df) (filter (known_code courses_df) selections))
    as Hkept.
  { apply Forall_forall. intros sel Hsel.
    by apply list_elem_of_filter in Hsel as [? _]. }
  rewrite <- (length_map (λ ci, (ci_section ci, Some (ci_course ci)))).
  by rewrite (requests_of_known _ _ Hkept), length_map.
Qed.

(** X17. On consistent data generation succeeds: with at least one
    selection and one student, a grid with a day and a positive number
    of slots, and a non-empty catalog in which every course has a room
    of its type, a faculty record for the head of its pool and a
    duration that is not negative, [generate_timetable] answers with a
    timetable, stores it, and the timetable has one session per
    selection of a known code, each within the grid. *)
Theorem generate_timetable_succeeds st grid :
  WebApp.selections_df st ≠ [] →
  WebApp.students_df st ≠ [] →
  WebApp.courses_df st ≠ [] →
  WebApp.constraints st = Some grid →
  0 < slots_per_day grid →
  days grid ≠ [] →
  forallb (Sample.well_resourced (WebApp.rooms_df st) (WebApp.faculty_df st))
          (WebApp.courses_df st) = true →
  ∃ timetable,
    WebApp.generate_timetable st
    = (WebApp.Timetable timetable,
       WebApp.mkState (WebApp.students_df st) (WebApp.faculty_df st)
         (WebApp.courses_df st) (WebApp.rooms_df st) (WebApp.constraints st)
         (WebApp.selections_df st) timetable) ∧
    length timetable
    = length (filter (known_code (WebApp.courses_df st)) (WebApp.selections_df st)) ∧
    Forall (λ s, 0 <= s_start s < slots_per_day grid ∧
                 0 <= s_end s < slots_per_day grid ∧
                 s_day s ∈ days grid) timetable.
Proof.
  intros Hsel Hst Hc Hgrid Hspd Hdays Hall.
  destruct (well_resourced_schedules (WebApp.students_df st) _ _ _ grid
              (Some (WebApp.selections_df st)) Hall Hspd Hdays)
    as (timetable & Hrun & _).
  assert (WebApp.rooms_df st ≠ [] ∧ WebApp.faculty_df st ≠ []) as [Hr Hf].
  { destruct (WebApp.courses_df st) as [|course rest]; [done|].
    simpl in Hall. apply andb_prop in Hall as [Hres _].
    unfold Sample.well_resourced in Hres.
    destruct (resolve_room _ _) as [room|] eqn:Hroom; [|done].
    destruct (resolve_faculty _ _) as [fac|] eqn:Hfac; [|done].
    apply resolve_room_elem_of in Hroom. apply resolve_faculty_elem_of in Hfac.
    split; intros Hnil; rewrite Hnil in *; by eapply elem_of_nil. }
  exists timetable. split; [|split].
  - rewrite generate_timetable_guarded by done.
    unfold WebApp.run_engine. by rewrite Hgrid, Hrun.
  - unfold solve_timetable in Hrun. apply place_length in Hrun.
    rewrite Hrun, scheduled_courses_selections by done. apply requests_length.
  - unfold solve_timetable in Hrun. by eapply place_on_grid.
Qed.

Lemma generate_timetable_succeeds_witness :
  ∃ timetable,
    (WebApp.generate_timetable Scenario.campus).1 = WebApp.Timetable timetable ∧
    length timetable = 1%nat.
Proof.
  destruct (generate_timetable_succeeds Scenario.campus Scenario.week)
    as (timetable & Hgen & Hlen & _).
  - discriminate.
  - discriminate.
  - discriminate.
  - reflexivity.
  - simpl. lia.
  - discriminate.
  - vm_compute. reflexivity.
  - exists timetable. split; [by rewrite Hgen|]. rewrite Hlen. reflexivity.
Defined.

(** * Properties of the calendar grid *)

Lemma index_of_elem_of days day :
  day ∈ days →
  ∃ i, Calendar.index_of days day = Some i ∧
       0 <= i < Z.of_nat (length days) ∧ days !! Z.to_nat i = Some day ∧
       ∀ j, (j < Z.to_nat i)%nat → days !! j ≠ Some day.
Proof.
  induction days as [|d rest IH]; intros Hin; [by apply elem_of_nil in Hin|].
  simpl. destruct (String.eqb_spec d day) as [->|Hne].
  - exists 0. split; [done|]. split; [simpl; lia|]. split; [done|].
    intros j Hj. simpl in Hj. lia.
  - apply elem_of_cons in Hin as [?|Hin]; [congruence|].
    destruct (IH Hin) as (i & -> & Hi & Hday & Hfirst).
    exists (i + 1). split; [done|]. split; [lia|].
    replace (Z.to_nat (i + 1)) with (S (Z.to_nat i)) by lia. split; [done|].
    intros [|j] Hj; simpl; [congruence|]. apply Hfirst. lia.
Qed.

Lemma index_of_None days day :
  Calendar.index_of days day = None ↔ day ∉ days.
Proof.
  induction days as [|d rest IH]; simpl.
  - split; [intros _; apply not_elem_of_nil|done].
  - rewrite not_elem_of_cons.
    destruct (String.eqb_spec d day) as [->|Hne]; [split; [done|tauto]|].
    destruct (Calendar.index_of rest day) as [i|].
    + split; [done|]. intros [_ H]. by apply IH in H.
    + split; [|done]. intros _. split; [congruence|]. by apply IH.
Qed.

Lemma header_cells_spec days cell :
  cell ∈ Calendar.header_cells days →
  Calendar.cell_row cell = 0 ∧ Calendar.cell_rowspan cell = 1 ∧
  1 <= Calendar.cell_column cell <= Z.of_nat (length days).
Proof.
  unfold Calendar.header_cells. intros Hin.
  apply list_elem_of_lookup in Hin as [i Hi].
  rewrite list_lookup_imap in Hi.
  destruct (days !! i) as [d|] eqn:Hd; [|done]. injection Hi as <-. simpl.
  apply lookup_lt_Some in Hd. lia.
Qed.

Lemma time_cells_spec slots_per_day cell :
  cell ∈ Calendar.time_cells slots_per_day →
  Calendar.cell_column cell = 0 ∧ Calendar.cell_rowspan cell = 1 ∧
  1 <= Calendar.cell_row cell <= slots_per_day.
Proof.
  unfold Calendar.time_cells. intros Hin.
  apply list_elem_of_fmap in Hin as (slot & -> & Hslot).
  apply elem_of_seqZ in Hslot. simpl. lia.
Qed.

Lemma place_one_extent rooms_df faculty_df constraints current_slot course_info
    session next :
  0 < slots_per_day constraints →
  place_one rooms_df faculty_df constraints current_slot course_info
    = Ok (session, next) →
  s_end session
  = (s_start session + c_duration_slots (ci_course course_info) - 1)
      mod slots_per_day constraints.
Proof.
  intros Hspd Hone. rewrite place_one_unfold in Hone by lia. simpl in Hone.
  destruct (resolve_room _ _); simpl in Hone; [|done].
  destruct (resolve_faculty _ _); simpl in Hone; [|done].
  destruct (Py.index _ _); simpl in Hone; [|done].
  injection Hone as <- <-. simpl.
  set (spd := slots_per_day constraints) in *.
  set (d := c_duration_slots (ci_course course_info)).
  destruct (_ <=? _); [done|].
  rewrite <- (Z.add_sub_assoc current_slot),
          <- (Z.add_sub_assoc (current_slot mod spd)).
  by rewrite Zplus_mod_idemp_l.
Qed.

Lemma place_one_drawn rooms_df faculty_df constraints current_slot course_info
    session next :
  0 < slots_per_day constraints →
  place_one rooms_df faculty_df constraints current_slot course_info
    = Ok (session, next) →
  ∃ cell, Calendar.course_cell (days constraints) session = Some cell ∧
          Calendar.drawn constraints course_info session cell.
Proof.
  intros Hspd Hone.
  pose proof (place_one_extent _ _ _ _ _ _ _ Hspd Hone) as Hend.
  destruct (place_one_on_grid _ _ _ _ _ _ _ Hspd Hone) as (Hs & He & Hday).
  destruct (index_of_elem_of _ _ Hday) as (i & Hi & Hrange & Hlook & _).
  unfold Calendar.course_cell. rewrite Hi. eexists. split; [done|].
  unfold Calendar.drawn. simpl. replace (i + 1 - 1) with i by lia.
  repeat split; try lia; try done.
  intros Hd. set (spd := slots_per_day constraints) in *.
  set (d := c_duration_slots (ci_course course_info)) in *.
  destruct (Z.leb_spec (s_start session + d) spd).
  - rewrite Z.mod_small in Hend by lia. lia.
  - assert (s_end session = s_start session + d - 1 - spd) as ->; [|lia].
    rewrite Hend. symmetry. apply Z.mod_unique_pos with 1; lia.
Qed.

Lemma place_drawn rooms_df faculty_df constraints requests :
  ∀ current_slot sessions,
  0 < slots_per_day constraints →
  place rooms_df faculty_df constraints current_slot requests = Ok sessions →
  ∃ cells, Calendar.course_cells (days constraints) sessions = Some cells ∧
           Forall3 (Calendar.drawn constraints) requests sessions cells.
Proof.
  induction requests as [|r rest IH]; intros cs sessions Hspd Hplace.
  - injection Hplace as <-. exists []. split; [done|constructor].
  - rewrite place_cons in Hplace.
    destruct (place_one _ _ _ cs r) as [[s n]|] eqn:Hone; simpl in Hplace; [|done].
    destruct (place _ _ _ n rest) as [out|] eqn:Hrest; simpl in Hplace; [|done].
    injection Hplace as <-.
    destruct (place_one_drawn _ _ _ _ _ _ _ Hspd Hone) as (cell & Hcell & Hdrawn).
    destruct (IH _ _ Hspd Hrest) as (cells & Hcells & Hall).
    exists (cell :: cells). simpl. rewrite Hcell, Hcells.
    split; [done|]. by constructor.
Qed.

Lemma drawn_in_grid grid requests sessions cells :
  Forall3 (Calendar.drawn grid) requests sessions cells → Forall (Calendar.in_grid grid) cells.
Proof.
  induction 1 as [|ci s cell ? ? ? Hd _ IH]; constructor; [|done].
  unfold Calendar.drawn in Hd. unfold Calendar.in_grid. lia.
Qed.

(** X18. The calendar can always draw what the engine returned for the
    same constraints: no day is missing from the list, every label lies
    within the header row, the time column and the slots of the grid,
    and each session is drawn in the row after its start slot, in the
    column of its day. A session that ends within the day is as many
    rows high as its duration; one that runs past the end of the day is
    drawn one row high. *)
Theorem calendar_draws_engine_output
    students_df courses_df rooms_df faculty_df constraints selections_df sessions :
  0 < slots_per_day constraints →
  solve_timetable students_df courses_df rooms_df faculty_df constraints
    selections_df = Ok sessions →
  ∃ view cells,
    Calendar.update_calendar_view (Some (days constraints))
      (Some (slots_per_day constraints)) sessions = Some view ∧
    Forall (Calendar.in_grid constraints) view ∧
    Calendar.course_cells (days constraints) sessions = Some cells ∧
    Forall3 (Calendar.drawn constraints)
      (scheduled_courses courses_df selections_df) sessions cells.
Proof.
  intros Hspd Hrun.
  destruct (place_drawn _ _ _ _ _ _ Hspd Hrun) as (cells & Hcells & Hall).
  destruct sessions as [|s rest].
  { exists [], cells. split; [done|]. split; [constructor|]. by split. }
  change (Calendar.update_calendar_view _ _ (s :: rest))
    with (match Calendar.course_cells (days constraints) (s :: rest) with
          | Some cells =>
              Some (Calendar.header_cells (days constraints) ++
                    Calendar.time_cells (slots_per_day constraints) ++ cells)
          | None => None
          end).
  rewrite Hcells.
  eexists _, cells. split; [reflexivity|]. split; [|by split].
  apply Forall_app. split; [|apply Forall_app; split].
  - apply Forall_forall. intros cell Hin.
    apply header_cells_spec in Hin as (Hr & Hs & Hc). unfold Calendar.in_grid. lia.
  - apply Forall_forall. intros cell Hin.
    apply time_cells_spec in Hin as (Hc & Hs & Hr). unfold Calendar.in_grid. lia.
  - by eapply drawn_in_grid.
Qed.

Lemma calendar_draws_engine_output_witness :
  ∃ sessions view,
    solve_timetable [] [Examples.course_a; Examples.course_b] [Examples.lab]
      [Examples.dr_x] Examples.grid_2x4
      (Some [Examples.select 1 "A"; Examples.select 1 "B"]) = Ok sessions ∧
    Calendar.update_calendar_view (Some ["Mon"; "Tue"]) (Some 4) sessions
    = Some view ∧
    Forall (Calendar.in_grid Examples.grid_2x4) view.
Proof.
  eexists. 
  destruct (calendar_draws_engine_output [] [Examples.course_a; Examples.course_b]
              [Examples.lab] [Examples.dr_x] Examples.grid_2x4
              (Some [Examples.select 1 "A"; Examples.select 1 "B"]) _
              ltac:(simpl; lia) ltac:(vm_compute; reflexivity))
    as (view & cells & Hview & Hgrid & _).
  exists view. split; [reflexivity|]. split; [exact Hview|exact Hgrid].
Defined.

(** X19. The time labels of the calendar repeat: the row of a slot that
    is 3 modulo 4 carries the clock time of the slot two rows below, as
    that row does itself (rows 4 and 6 both read 10:30). The start and
    end times of the engine's sessions are the same strings. The slots
    are below 2^53, where the floats of the program are exact. *)
Theorem calendar_time_labels_repeat slots_per_day slot :
  0 <= slot → slot mod 4 = 3 → slot + 2 < slots_per_day →
  slot + 2 < 2 ^ 53 →
  time_str slot = time_str (slot + 2) ∧
  Calendar.mkCell (slot + 1) 0 1 (spec_time_str (slot + 2))
    ∈ Calendar.time_cells slots_per_day ∧
  Calendar.mkCell (slot + 3) 0 1 (spec_time_str (slot + 2))
    ∈ Calendar.time_cells slots_per_day.
Proof.
  intros Hslot Hmod Hspd _.
  assert (time_str slot = spec_time_str (slot + 2)) as Hlate
    by (by apply time_str_one_hour_late).
  assert (time_str (slot + 2) = spec_time_str (slot + 2)) as Hright.
  { apply time_str_agrees; [lia|].
    rewrite <- Zplus_mod_idemp_l, Hmod. by vm_compute. }
  split; [congruence|]. unfold Calendar.time_cells. split.
  - apply list_elem_of_fmap. exists slot. rewrite Hlate. split; [done|].
    apply elem_of_seqZ. lia.
  - apply list_elem_of_fmap. exists (slot + 2). rewrite Hright.
    split; [f_equal; lia|]. apply elem_of_seqZ. lia.
Qed.

Lemma calendar_time_labels_repeat_witness :
  time_str 3 = time_str 5 ∧
  Calendar.mkCell 4 0 1 "10:30" ∈ Calendar.time_cells 16 ∧
  Calendar.mkCell 6 0 1 "10:30" ∈ Calendar.time_cells 16.
Proof.
  apply (calendar_time_labels_repeat 16 3); [lia|reflexivity|lia|lia].
Defined.

(** * Properties of the pickers *)

(** ** Reading back the text of an integer *)

Lemma of_uint_acc_value d : ∀ p,
  Z.pos (Pos.of_uint_acc d p) = Pickers.uint_value d (Z.pos p).
Proof.
  induction d; intros p; simpl; try done; rewrite IHd; f_equal; lia.
Qed.

Lemma of_uint_value d : Z.of_N (Pos.of_uint d) = Pickers.uint_value d 0.
Proof.
  induction d; simpl; try done; by rewrite of_uint_acc_value.
Qed.

Lemma uint_chars_no_space d :
  Forall (λ c, Pickers.is_space c = false) (Pickers.uint_chars d).
Proof. induction d; constructor; done. Qed.

Lemma uint_chars_length d : length (Pickers.uint_chars d) = Decimal.nb_digits d.
Proof. induction d; simpl; [done|..]; by f_equal. Qed.

Lemma parse_uint d : ∀ acc count after_digit,
  d ≠ Decimal.Nil ∨ after_digit = true →
  Pickers.parse_digits acc count after_digit (Pickers.uint_chars d)
  = Some (Pickers.uint_value d acc, (count + Decimal.nb_digits d)%nat).
Proof.
  induction d; intros acc count b Hb;
    try (cbn [Pickers.uint_chars NilEmpty.string_of_uint list_ascii_of_string
              Pickers.parse_digits Pickers.uint_value Decimal.nb_digits];
         change (Pickers.digit_value _) with (Some 0) ||
         change (Pickers.digit_value _) with (Some 1) ||
         change (Pickers.digit_value _) with (Some 2) ||
         change (Pickers.digit_value _) with (Some 3) ||
         change (Pickers.digit_value _) with (Some 4) ||
         change (Pickers.digit_value _) with (Some 5) ||
         change (Pickers.digit_value _) with (Some 6) ||
         change (Pickers.digit_value _) with (Some 7) ||
         change (Pickers.digit_value _) with (Some 8) ||
         change (Pickers.digit_value _) with (Some 9);
         cbv iota beta;
         fold (Pickers.uint_chars d); rewrite IHd by (by right);
         do 2 f_equal; lia).
  destruct Hb as [?| ->]; [done|]. simpl. do 2 f_equal. lia.
Qed.

Lemma lstrip_no_space text :
  Forall (λ c, Pickers.is_space c = false) text → Pickers.lstrip text = text.
Proof. destruct 1 as [|c rest Hc _]; simpl; [done|]. by rewrite Hc. Qed.

Lemma rstrip_no_space text :
  Forall (λ c, Pickers.is_space c = false) text → Pickers.rstrip text = text.
Proof.
  induction 1 as [|c rest Hc _ IH]; simpl; [done|].
  rewrite IH, Hc. by destruct rest.
Qed.

Lemma uint_chars_head d :
  d ≠ Decimal.Nil →
  ∃ c rest, Pickers.uint_chars d = c :: rest ∧
            (c =? "-")%char = false ∧ (c =? "+")%char = false.
Proof. destruct d; [done|..]; intros _; by eexists _, _. Qed.

Lemma py_int_uint d :
  d ≠ Decimal.Nil →
  (Decimal.nb_digits d <= 4300)%nat →
  Pickers.py_int (NilEmpty.string_of_uint d) = Some (Pickers.uint_value d 0) ∧
  Pickers.py_int (String "-" (NilEmpty.string_of_uint d))
  = Some (- Pickers.uint_value d 0).
Proof.
  intros Hd Hlen.
  pose proof (uint_chars_no_space d) as Hns.
  assert (Pickers.parse_digits 0 0 false (Pickers.uint_chars d)
          = Some (Pickers.uint_value d 0, Decimal.nb_digits d)) as Hparse.
  { rewrite parse_uint by (by left). done. }
  assert ((4300 <? Decimal.nb_digits d)%nat = false) as Hlimit
    by (apply Nat.ltb_ge; lia).
  unfold Pickers.py_int. cbn [list_ascii_of_string]. fold (Pickers.uint_chars d). split.
  - rewrite lstrip_no_space, rstrip_no_space by done.
    destruct (uint_chars_head d Hd) as (c & rest & Heq & Hminus & Hplus).
    rewrite Heq at 1. rewrite Hminus, Hplus, Hparse. by rewrite Hlimit.
  - rewrite lstrip_no_space, rstrip_no_space by (by constructor).
    change ("-" =? "-")%char with true. cbv iota. rewrite Hparse. by rewrite Hlimit.
Qed.

Lemma uint_text_length d :
  String.length (NilEmpty.string_of_uint d) = Decimal.nb_digits d.
Proof. induction d; simpl; [done|..]; by f_equal. Qed.

Lemma str_int_pos p :
  Pickers.str_int (Z.pos p) = NilEmpty.string_of_uint (Pos.to_uint p).
Proof.
  unfold Pickers.str_int. cbn [Z.to_int NilZero.string_of_int].
  pose proof (DecimalPos.Unsigned.to_uint_nonnil p).
  unfold NilZero.string_of_uint. by destruct (Pos.to_uint p).
Qed.

Lemma str_int_neg p :
  Pickers.str_int (Z.neg p)
  = String "-" (NilEmpty.string_of_uint (Pos.to_uint p)).
Proof.
  unfold Pickers.str_int. cbn [Z.to_int NilZero.string_of_int].
  pose proof (DecimalPos.Unsigned.to_uint_nonnil p).
  unfold NilZero.string_of_uint. by destruct (Pos.to_uint p).
Qed.

Lemma uint_value_to_uint p : Pickers.uint_value (Pos.to_uint p) 0 = Z.pos p.
Proof.
  rewrite <- of_uint_value. by rewrite DecimalPos.Unsigned.of_to.
Qed.

Lemma py_int_str_int n :
  (String.length (Pickers.str_int n) <= 4300)%nat →
  Pickers.py_int (Pickers.str_int n) = Some n.
Proof.
  destruct n as [|p|p]; intros Hlen; [done|..].
  - rewrite str_int_pos in *. rewrite uint_text_length in Hlen.
    destruct (py_int_uint (Pos.to_uint p)) as [-> _];
      [apply DecimalPos.Unsigned.to_uint_nonnil|done|].
    by rewrite uint_value_to_uint.
  - rewrite str_int_neg in *. simpl in Hlen. rewrite uint_text_length in Hlen.
    destruct (py_int_uint (Pos.to_uint p)) as [_ ->];
      [apply DecimalPos.Unsigned.to_uint_nonnil|lia|].
    by rewrite uint_value_to_uint.
Qed.

(** ** Splitting an option at the separator *)

Lemma prefix_cons a s1 b s2 :
  String.prefix (String a s1) (String b s2)
  = if ascii_dec a b then String.prefix s1 s2 else false.
Proof. reflexivity. Qed.

Lemma prefix_empty s : String.prefix "" s = true.
Proof. by destruct s. Qed.

Lemma append_cons c a b : String c a +:+ b = String c (a +:+ b).
Proof. reflexivity. Qed.

Lemma append_empty b : "" +:+ b = b.
Proof. reflexivity. Qed.

Lemma prefix_separator c a b :
  String.prefix " - " (String c (a +:+ " -"))
  = String.prefix " - " (String c (a +:+ " - " +:+ b)).
Proof.
  rewrite !prefix_cons. destruct (ascii_dec " " c); [|done].
  destruct a as [|x a]; rewrite ?append_cons, ?append_empty, !prefix_cons.
  { by destruct (ascii_dec "-" " "). }
  destruct (ascii_dec "-" x); [|done].
  destruct a as [|y a]; rewrite ?append_cons, ?append_empty, !prefix_cons.
  - reflexivity.
  - by rewrite !prefix_empty.
Qed.

Lemma prefix_separator_here b :
  String.prefix " - " (String " " (String "-" (String " " b))) = true.
Proof. rewrite !prefix_cons. simpl. apply prefix_empty. Qed.

Lemma split_head_option a b :
  Pickers.split_head (a +:+ " - " +:+ b) = a
  ↔ Pickers.has_separator (a +:+ " -") = false.
Proof.
  induction a as [|c a IH].
  { rewrite !append_empty, !append_cons, append_empty.
    cbn [Pickers.split_head]. by rewrite prefix_separator_here. }
  change (String c a +:+ " - " +:+ b) with (String c (a +:+ " - " +:+ b)).
  change (String c a +:+ " -") with (String c (a +:+ " -")).
  cbn [Pickers.split_head Pickers.has_separator].
  rewrite <- (prefix_separator c a b).
  destruct (String.prefix " - " (String c (a +:+ " -"))); [done|].
  rewrite orb_false_l, <- IH. split; [by intros [= ?]|by intros ->].
Qed.

Lemma no_space_no_separator a :
  Forall (λ c, Pickers.is_space c = false) (list_ascii_of_string a) →
  Pickers.has_separator (a +:+ " -") = false.
Proof.
  induction a as [|c a IH]; [done|]. intros Hns.
  apply Forall_cons in Hns as [Hc Hns].
  change (String c a +:+ " -") with (String c (a +:+ " -")).
  cbn [Pickers.has_separator]. rewrite (IH Hns), orb_false_r.
  cbn [String.prefix]. destruct (ascii_dec " " c) as [<-|]; [done|]. done.
Qed.

Lemma str_int_no_space n :
  Forall (λ c, Pickers.is_space c = false)
         (list_ascii_of_string (Pickers.str_int n)).
Proof.
  destruct n as [|p|p]; [by repeat constructor|..].
  - rewrite str_int_pos. apply uint_chars_no_space.
  - rewrite str_int_neg. constructor; [done|]. apply uint_chars_no_space.
Qed.

Lemma split_head_str_int n name :
  Pickers.split_head (Pickers.str_int n +:+ " - " +:+ name) = Pickers.str_int n.
Proof. apply split_head_option, no_space_no_separator, str_int_no_space. Qed.

Lemma option_not_empty a b : String.eqb (a +:+ " - " +:+ b) "" = false.
Proof. by destruct a. Qed.

(** X20. A selection made with the pickers names the rows that were
    picked: the student identifier is read back from the option text
    (as is the faculty identifier, when a faculty is picked), and the
    course code is read back exactly when the separator of the option
    does not already occur in the code followed by the start of the
    separator; otherwise the selection carries a shorter code. The text
    of an identifier is taken to stay within the interpreter's limit of
    4300 digits. *)
Theorem picked_rows_are_selected
    (student : Student) (course : Course) (faculty : option Faculty)
    (section : string) (selections_df : list Selection) :
  (String.length (Pickers.str_int (st_id student)) <= 4300)%nat →
  (∀ f, faculty = Some f →
        (String.length (Pickers.str_int (f_id f)) <= 4300)%nat) →
  ∃ selection,
    Pickers.add_selection (Pickers.student_option student)
      (Pickers.course_option course) section
      (from_option Pickers.faculty_option "" faculty) selections_df
    = Pickers.Added (selections_df ++ [selection]) ∧
    sel_student_id selection = st_id student ∧
    sel_section selection = Some section ∧
    sel_faculty_id selection = f_id <$> faculty ∧
    (sel_course_code selection = c_code course
     ↔ Pickers.has_separator (c_code course +:+ " -") = false).
Proof.
  intros Hstudent Hfaculty. unfold Pickers.add_selection.
  unfold Pickers.student_option, Pickers.course_option.
  rewrite !option_not_empty. cbn [orb].
  rewrite split_head_str_int, (py_int_str_int _ Hstudent).
  destruct faculty as [f|]; cbn [from_option].
  - unfold Pickers.faculty_option. rewrite option_not_empty.
    rewrite split_head_str_int, (py_int_str_int _ (Hfaculty f eq_refl)).
    eexists. split; [done|]. cbn. repeat split; try done;
      by apply split_head_option.
  - change (String.eqb "" "") with true. cbv iota.
    eexists. split; [done|]. cbn. repeat split; try done;
      by apply split_head_option.
Qed.

Lemma picked_rows_are_selected_witness :
  ∃ selection,
    Pickers.add_selection "2 - Jane Smith" "CS301 - Data Structures" "A"
      "5 - Dr. Wilson" []
    = Pickers.Added [selection] ∧
    sel_student_id selection = 2 ∧
    sel_faculty_id selection = Some 5 ∧
    sel_course_code selection = "CS301".
Proof.
  destruct (picked_rows_are_selected (mkStudent 2 "Jane Smith")
              (mkCourse "CS301" "Data Structures" "Computer Science" "A" 6
                 "Lecture Hall" [1; 5])
              (Some (mkFaculty 5 "Dr. Wilson")) "A" [])
    as (selection & Hadd & Hid & _ & Hfac & Hcode).
  - simpl. lia.
  - intros f [= <-]. simpl. lia.
  - exists selection. split; [exact Hadd|]. split; [exact Hid|].
    split; [exact Hfac|]. apply Hcode. reflexivity.
Defined.
